(** * SNOWTAM watch: a shallow embedding of [scripts/update_snowtams.py]

    The script polls a NOTAM service for a list of airports, keeps the
    notices that look like winter runway reports, scores them and writes a
    change-tracked status snapshot.  This file embeds the classification,
    scoring and snapshot code as Rocq functions and proves the properties the
    specification states about them.

    Texts are Python [str] values: finite sequences of Unicode code points,
    here [list N].  Regular expressions are embedded as a small syntax tree
    run by a backtracking matcher that enumerates matches in the priority
    order of CPython's [re] module, so that [search] returns the match
    (and the groups) that [re.search] returns.

    What the script takes from outside is an argument of the embedded
    functions: the previous snapshot [prev], the clock reading [clock], the
    environment knobs [cfg] and the outcome [fetch] of each call of
    [fetch_notams_for_batch].  Printing and sleeping change no value and are
    left out.  An exception that the script does not catch is the result
    [None].

    The last part of the definitions embeds the rest of the script: the
    page loop of [fetch_notams_for_batch] against the answers of the
    service, [load_prev_status], [ensure_airports_json] on the rows of the
    CSV, and [main] over what a run finds in the environment and in its
    files.  Response bodies, files and rows are taken as decoded: the JSON
    and CSV readers are not embedded, and neither is the success of a
    write. *)

From Stdlib Require Import ZArith NArith String Ascii List Bool Lia.
From Stdlib Require Import DecimalString.
From stdpp Require Import gmap list option.

Local Open Scope N_scope.

Abbreviation text := (list N).

(** A string literal read as a [str]: one code point per character. *)
Definition py (s : string) : text := map N_of_ascii (list_ascii_of_string s).

(** ** The parts of the Python runtime that are data tables

    [uni_isalnum] is [Py_UNICODE_ISALNUM], the table behind [\w] and [\b];
    [str_upper] is [str.upper].  Both are Unicode tables of the interpreter,
    not code of the script, so the development is parametric in them. *)
Class PyRuntime := {
  uni_isalnum : N -> bool;
  str_upper : text -> text
}.

(** ** Character classes of [re] that are small enough to write out *)

(** [\s] and [str.strip]: [Py_UNICODE_ISSPACE]. *)
Definition is_space (c : N) : bool :=
  ((9 <=? c) && (c <=? 13)) || ((28 <=? c) && (c <=? 32))
  || (c =? 133) || (c =? 160) || (c =? 5760)
  || ((8192 <=? c) && (c <=? 8202))
  || (c =? 8232) || (c =? 8233) || (c =? 8239) || (c =? 8287) || (c =? 12288).

(** [[0-9]] *)
Definition is_digit (c : N) : bool := (48 <=? c) && (c <=? 57).

(** [[^0-9]] *)
Definition not_digit (c : N) : bool := negb (is_digit c).

(** [.] without DOTALL: anything but a line feed. *)
Definition not_newline (c : N) : bool := negb (c =? 10).

(** [[/\s]] *)
Definition slash_or_space (c : N) : bool := (c =? 47) || is_space c.

Definition is_upper_az (c : N) : bool := (65 <=? c) && (c <=? 90).
Definition is_lower_az (c : N) : bool := (97 <=? c) && (c <=? 122).

Definition lower_az (c : N) : N := if is_upper_az c then c + 32 else c.

(** A literal pattern character [p] under [re.IGNORECASE].  For a cased [p]
    the matcher accepts [x] when [lower(x)] is [lower(p)] or one of its
    listed equivalents.  The code points whose simple lower case is an ASCII
    letter are the two ASCII letters, U+0130 (to i) and U+212A (to k); the
    equivalents of the ASCII letters are U+0131 (for i) and U+017F (for s). *)
Definition ci (p x : N) : bool :=
  if is_upper_az p || is_lower_az p then
    let lo := lower_az p in
    (x =? lo) || (x =? lo - 32)
    || ((lo =? 105) && ((x =? 304) || (x =? 305)))
    || ((lo =? 115) && (x =? 383))
    || ((lo =? 107) && (x =? 8490))
  else x =? p.

(** ** Regular expressions *)

Inductive regex : Type :=
| Eps                              (* the empty pattern *)
| Cls (p : N -> bool)              (* one character of a class *)
| Bnd                              (* \b *)
| Seq (a b : regex)                (* ab *)
| Alt (a b : regex)                (* a|b *)
| Upto (n : nat) (r : regex)       (* r{0,n}, greedy *)
| StarCls (p : N -> bool)          (* [p]*, greedy *)
| Grp (i : nat) (r : regex).       (* capturing group number i *)

Declare Scope re_scope.
Delimit Scope re_scope with re.
Bind Scope re_scope with regex.
Infix "·" := Seq (at level 40, left associativity) : re_scope.
Infix "|||" := Alt (at level 50, left associativity) : re_scope.

(** A literal word under IGNORECASE. *)
Definition lit (s : string) : regex :=
  fold_right (fun c r => Seq (Cls (ci c)) r) Eps (py s).

(** [\s+] *)
Definition spaces1 : regex := Seq (Cls is_space) (StarCls is_space).

(** [r?] *)
Definition Opt (r : regex) : regex := Upto 1 r.

(** A matcher state: the characters already passed (nearest first), the
    characters ahead, and the groups set so far (latest first). *)
Record mstate := MState {
  seen : text;
  todo : text;
  caps : list (nat * text)
}.

Definition set_group (i : nat) (start : text) (st : mstate) : mstate :=
  MState (seen st) (todo st)
         ((i, firstn (length start - length (todo st)) start) :: caps st).

Fixpoint lookup_group (i : nat) (cs : list (nat * text)) : option text :=
  match cs with
  | [] => None
  | (j, s) :: cs' => if Nat.eqb i j then Some s else lookup_group i cs'
  end.

(** [m.group(i)]: [None] when the group took no part in the match. *)
Definition group (m : mstate) (i : nat) : option text := lookup_group i (caps m).

(** [p*] from a state: the longest run first, then shorter ones. *)
Fixpoint star_cls (p : N -> bool) (sn td : text) (cs : list (nat * text))
  : list mstate :=
  match td with
  | c :: td' =>
      if p c then star_cls p (c :: sn) td' cs ++ [MState sn td cs]
      else [MState sn td cs]
  | [] => [MState sn td cs]
  end.

(** [r{0,n}] given the matcher [step] of [r]: one more round first. *)
Fixpoint upto (step : mstate -> list mstate) (n : nat) (st : mstate)
  : list mstate :=
  match n with
  | O => [st]
  | S n' => flat_map (upto step n') (step st) ++ [st]
  end.

Section Runtime.
Context `{rt : PyRuntime}.

(** [\w] *)
Definition is_word (c : N) : bool := uni_isalnum c || (c =? 95).

Definition word_at (s : text) : bool :=
  match s with
  | c :: _ => is_word c
  | [] => false
  end.

(** [\b] between the character behind and the character ahead; outside the
    text counts as a non-word character. *)
Definition at_boundary (sn td : text) : bool := xorb (word_at sn) (word_at td).

(** All the ways [r] matches from [st], in the order the backtracking matcher
    tries them. *)
Fixpoint run (r : regex) (st : mstate) : list mstate :=
  match r with
  | Eps => [st]
  | Cls p =>
      match todo st with
      | c :: td' => if p c then [MState (c :: seen st) td' (caps st)] else []
      | [] => []
      end
  | Bnd => if at_boundary (seen st) (todo st) then [st] else []
  | Seq a b => flat_map (run b) (run a st)
  | Alt a b => run a st ++ run b st
  | Upto n r' => upto (run r') n st
  | StarCls p => star_cls p (seen st) (todo st) (caps st)
  | Grp i r' => map (set_group i (todo st)) (run r' st)
  end.

(** [pattern.search(t)]: the first match at the leftmost position that has
    one. *)
Fixpoint search_from (r : regex) (sn td : text) : option mstate :=
  match run r (MState sn td []) with
  | m :: _ => Some m
  | [] =>
      match td with
      | c :: td' => search_from r (c :: sn) td'
      | [] => None
      end
  end.

Definition search (r : regex) (t : text) : option mstate := search_from r [] t.

Definition found (r : regex) (t : text) : bool :=
  match search r t with Some _ => true | None => false end.

(** [Matches r behind mid ahead]: pattern [r] matches the stretch [mid] of a
    text in which [behind] precedes it (nearest character first) and [ahead]
    follows it. *)
Inductive Matches : regex -> text -> text -> text -> Prop :=
| M_Eps behind ahead : Matches Eps behind [] ahead
| M_Cls p c behind ahead :
    p c = true -> Matches (Cls p) behind [c] ahead
| M_Bnd behind ahead :
    at_boundary behind ahead = true -> Matches Bnd behind [] ahead
| M_Seq a b behind m1 m2 ahead :
    Matches a behind m1 (m2 ++ ahead) ->
    Matches b (rev m1 ++ behind) m2 ahead ->
    Matches (Seq a b) behind (m1 ++ m2) ahead
| M_AltL a b behind mid ahead :
    Matches a behind mid ahead -> Matches (Alt a b) behind mid ahead
| M_AltR a b behind mid ahead :
    Matches b behind mid ahead -> Matches (Alt a b) behind mid ahead
| M_UptoO n r behind ahead : Matches (Upto n r) behind [] ahead
| M_UptoS n r behind m1 m2 ahead :
    Matches r behind m1 (m2 ++ ahead) ->
    Matches (Upto n r) (rev m1 ++ behind) m2 ahead ->
    Matches (Upto (S n) r) behind (m1 ++ m2) ahead
| M_Star p behind mid ahead :
    Forall (fun c => p c = true) mid -> Matches (StarCls p) behind mid ahead
| M_Grp i r behind mid ahead :
    Matches r behind mid ahead -> Matches (Grp i r) behind mid ahead.

(** The pattern matches somewhere in the text. *)
Definition Occurs (r : regex) (t : text) : Prop :=
  exists pre mid post, t = pre ++ mid ++ post /\ Matches r (rev pre) mid post.

(** [st'] is [st] moved over [mid]. *)
Definition moved (st : mstate) (mid : text) (st' : mstate) : Prop :=
  todo st = mid ++ todo st' /\ seen st' = rev mid ++ seen st.

(** Every character class of [r] lies within [P]. *)
Fixpoint alphabet (P : N -> Prop) (r : regex) : Prop :=
  match r with
  | Eps | Bnd => True
  | Cls p | StarCls p => forall c, p c = true -> P c
  | Seq a b | Alt a b => alphabet P a /\ alphabet P b
  | Upto _ r' | Grp _ r' => alphabet P r'
  end.

End Runtime.

(** ** The patterns of the script *)

Definition word_re (k : string) : regex := (Bnd · lit k · Bnd)%re.

(** [\b(SNOWTAM|RWYCC|RCR|BRAKING|SLUSH|ICE|SNOW|COMPACTED\s+SNOW|WET\s+SNOW|DRY\s+SNOW|MU|CONTAMIN)\b] *)
Definition SNOW_HINT_RE : regex :=
  (Bnd
   · Grp 1 (lit "SNOWTAM" ||| lit "RWYCC" ||| lit "RCR" ||| lit "BRAKING"
            ||| lit "SLUSH" ||| lit "ICE" ||| lit "SNOW"
            ||| lit "COMPACTED" · spaces1 · lit "SNOW"
            ||| lit "WET" · spaces1 · lit "SNOW"
            ||| lit "DRY" · spaces1 · lit "SNOW"
            ||| lit "MU" ||| lit "CONTAMIN")
   · Bnd)%re.

(** [\b(RWY|RUNWAY).{0,24}\b(CLSD|CLOSED)\b|\bAERODROME\s+CLSD\b] *)
Definition RUNWAY_CLOSED_RE : regex :=
  (Bnd · Grp 1 (lit "RWY" ||| lit "RUNWAY") · Upto 24 (Cls not_newline)
       · Bnd · Grp 2 (lit "CLSD" ||| lit "CLOSED") · Bnd
   ||| Bnd · lit "AERODROME" · spaces1 · lit "CLSD" · Bnd)%re.

(** [\bBRAKING\s+(ACTION\s+)?(GOOD|MEDIUM|POOR)\b] *)
Definition BRAKING_RE : regex :=
  (Bnd · lit "BRAKING" · spaces1 · Opt (Grp 1 (lit "ACTION" · spaces1))
       · Grp 2 (lit "GOOD" ||| lit "MEDIUM" ||| lit "POOR") · Bnd)%re.

(** [\bRWYCC\b[^0-9]{0,6}([0-9](?:\s*[/\s]\s*[0-9]){0,5})] *)
Definition RWYCC_RE : regex :=
  (Bnd · lit "RWYCC" · Bnd · Upto 6 (Cls not_digit)
       · Grp 1 (Cls is_digit
                · Upto 5 (StarCls is_space · Cls slash_or_space
                          · StarCls is_space · Cls is_digit)))%re.

(** [\bRWY\b|\bRUNWAY\b|\bR(?:WY)?CC\b|\bBRAKING\b|\bCONTAMIN], the context
    test of [is_snowtam_like]. *)
Definition CONTEXT_RE : regex :=
  (Bnd · lit "RWY" · Bnd ||| Bnd · lit "RUNWAY" · Bnd
   ||| Bnd · lit "R" · Opt (lit "WY") · lit "CC" · Bnd
   ||| Bnd · lit "BRAKING" · Bnd ||| Bnd · lit "CONTAMIN")%re.

(** [\b(POOR|UNUSABLE|UNSAFE)\b] *)
Definition POOR_RE : regex :=
  (Bnd · Grp 1 (lit "POOR" ||| lit "UNUSABLE" ||| lit "UNSAFE") · Bnd)%re.

(** [\b(MEDIUM|MODERATE)\b] *)
Definition MEDIUM_RE : regex :=
  (Bnd · Grp 1 (lit "MEDIUM" ||| lit "MODERATE") · Bnd)%re.

(** ** Helpers on [str] *)

Fixpoint text_eqb (a b : text) : bool :=
  match a, b with
  | [], [] => true
  | x :: a', y :: b' => (x =? y) && text_eqb a' b'
  | _, _ => false
  end.

Fixpoint drop_spaces (s : text) : text :=
  match s with
  | c :: s' => if is_space c then drop_spaces s' else s
  | [] => []
  end.

(** [s.strip()] *)
Definition strip (s : text) : text := rev (drop_spaces (rev (drop_spaces s))).

(** [re.split(r"[/\s]+", s)]: the pieces between the maximal runs of
    separators; a separator at either end leaves an empty piece there.
    [cur] is the piece being read (latest character first) and [in_sep]
    tells that the previous character was a separator. *)
Fixpoint split_runs (sep : N -> bool) (in_sep : bool) (cur s : text)
  : list text :=
  match s with
  | [] => [rev cur]
  | c :: s' =>
      if sep c then
        if in_sep then split_runs sep true cur s'
        else rev cur :: split_runs sep true [] s'
      else split_runs sep false (c :: cur) s'
  end.

Definition re_split (sep : N -> bool) (s : text) : list text :=
  split_runs sep false [] s.

(** [part.isdigit()].  The parts tested are pieces of group 1 of [RWYCC_RE]
    and hold ASCII digits only (lemma [rwycc_parts_digits]); on such strings
    the Unicode digit test is the ASCII one. *)
Definition isdigit (s : text) : bool :=
  match s with
  | [] => false
  | _ => forallb is_digit s
  end.

(** [int(part)] for a string of ASCII digits, on which [int] does not
    raise. *)
Definition int_of (s : text) : Z :=
  fold_left (fun acc c => (10 * acc + (Z.of_N c - 48))%Z) s 0%Z.

(** [min(l)] for a non-empty list; the script calls it on nothing else. *)
Definition list_min (l : list Z) : Z :=
  match l with
  | [] => 0%Z
  | x :: l' => fold_left Z.min l' x
  end.

(** [sep.join(parts)] *)
Fixpoint join (sep : text) (parts : list text) : text :=
  match parts with
  | [] => []
  | [p] => p
  | p :: ps => p ++ sep ++ join sep ps
  end.

(** The characters of group 1 of [RWYCC_RE]. *)
Definition digit_or_sep (c : N) : Prop :=
  is_digit c = true \/ slash_or_space c = true.

(** ** Severity and evidence *)

Inductive Severity : Set := green | yellow | orange | red | gray.

Record Evidence := mkEvidence {
  ev_rwycc : option (list Z);
  ev_braking : option text;
  ev_closed : bool;
  ev_keywords : list text
}.

Definition KEYWORDS : list string :=
  ["SNOWTAM"; "RWYCC"; "RCR"; "BRAKING"; "SLUSH"; "ICE"; "SNOW"; "MU";
   "CONTAMIN"]%string.

Section Scoring.
Context `{rt : PyRuntime}.

(** [m.group(i)] where the pattern sets group [i] in every match (lemmas
    [rwycc_group_chars] and [braking_group_set]), so that the result is a
    string and never [None]. *)
Definition group_str (m : mstate) (i : nat) : text := default [] (group m i).

Definition extract_rwycc_values (t : text) : list Z :=
  match search RWYCC_RE t with
  | None => []
  | Some m =>
      let raw := group_str m 1 in
      let vals :=
        map int_of (List.filter isdigit
                                (re_split slash_or_space (strip raw))) in
      List.filter (fun v => (0 <=? v)%Z && (v <=? 6)%Z) vals
  end.

(** The keyword-only tail of [severity_from_text], entered with the evidence
    gathered so far. *)
Definition keyword_fallback (t : text) (ev : Evidence) : Severity * Evidence :=
  let kws := map py (List.filter (fun k => found (word_re k) t) KEYWORDS) in
  let ev := mkEvidence (ev_rwycc ev) (ev_braking ev) (ev_closed ev) kws in
  if found POOR_RE t then (red, ev)
  else if found MEDIUM_RE t then (orange, ev)
  else (yellow, ev).

Definition severity_from_text (t : text) : Severity * Evidence :=
  if found RUNWAY_CLOSED_RE t then (red, mkEvidence None None true [])
  else
    match extract_rwycc_values t with
    | (_ :: _) as rw =>
        let ev := mkEvidence (Some rw) None false [] in
        let mn := list_min rw in
        if (mn <=? 1)%Z then (red, ev)
        else if (mn <=? 3)%Z then (orange, ev)
        else (yellow, ev)
    | [] =>
        match search BRAKING_RE t with
        | Some bm =>
            let b := str_upper (group_str bm 2) in
            let ev := mkEvidence None (Some b) false [] in
            if text_eqb b (py "POOR") then (red, ev)
            else if text_eqb b (py "MEDIUM") then (orange, ev)
            else if text_eqb b (py "GOOD") then (yellow, ev)
            else keyword_fallback t ev
        | None => keyword_fallback t (mkEvidence None None false [])
        end
    end.

(** The braking word that [severity_from_text] reads off a text, when the
    braking pattern matches. *)
Definition braking_word (t : text) : option text :=
  match search BRAKING_RE t with
  | Some bm => Some (str_upper (group_str bm 2))
  | None => None
  end.

(** The texts that [severity_from_text] scores by keywords: no closure
    match, no codes, and no braking word among the three it knows. *)
Definition in_keyword_fallback (t : text) : Prop :=
  ~ Occurs RUNWAY_CLOSED_RE t
  /\ extract_rwycc_values t = []
  /\ (forall b, braking_word t = Some b ->
      b <> py "POOR" /\ b <> py "MEDIUM" /\ b <> py "GOOD").

Definition is_snowtam_like (notam_text : text) : bool :=
  match notam_text with
  | [] => false
  | _ =>
      if found SNOW_HINT_RE notam_text then
        if found CONTEXT_RE notam_text then true
        else if found (word_re "SNOWTAM") notam_text then true
        else false
      else false
  end.

End Scoring.

(** ** [hashlib.sha1] and [str.encode] *)

Module Hashlib.

(** [s.encode("utf-8", errors="ignore")]: lone surrogates cannot be encoded
    and are left out. *)
Definition utf8_char (c : N) : list N :=
  if c <? 128 then [c]
  else if c <? 2048 then [N.lor 192 (N.shiftr c 6); N.lor 128 (N.land c 63)]
  else if (55296 <=? c) && (c <=? 57343) then []
  else if c <? 65536 then
    [N.lor 224 (N.shiftr c 12); N.lor 128 (N.land (N.shiftr c 6) 63);
     N.lor 128 (N.land c 63)]
  else
    [N.lor 240 (N.shiftr c 18); N.lor 128 (N.land (N.shiftr c 12) 63);
     N.lor 128 (N.land (N.shiftr c 6) 63); N.lor 128 (N.land c 63)].

Definition encode_utf8_ignore (s : text) : list N := flat_map utf8_char s.

Definition mask32 : N := 4294967295.
Definition add32 (a b : N) : N := N.land (a + b) mask32.
Definition rotl (n x : N) : N :=
  N.land (N.lor (N.shiftl x n) (N.shiftr x (32 - n))) mask32.
Definition not32 (x : N) : N := N.lxor x mask32.

(** Big-endian bytes of [x], [n] of them. *)
Fixpoint be_bytes (n : nat) (x : N) : list N :=
  match n with
  | O => []
  | S n' => N.land (N.shiftr x (8 * N.of_nat n')) 255 :: be_bytes n' x
  end.

Definition pad (msg : list N) : list N :=
  let len := N.of_nat (length msg) in
  let zeros := N.to_nat ((119 - len mod 64) mod 64) in
  msg ++ [128] ++ repeat 0 zeros ++ be_bytes 8 (8 * len).

Fixpoint words (fuel : nat) (bs : list N) : list N :=
  match fuel, bs with
  | S f, b0 :: b1 :: b2 :: b3 :: bs' =>
      (N.shiftl b0 24 + N.shiftl b1 16 + N.shiftl b2 8 + b3) :: words f bs'
  | _, _ => []
  end.

(** The message schedule, latest word first. *)
Fixpoint expand (n : nat) (w : list N) : list N :=
  match n with
  | O => w
  | S n' =>
      let x := N.lxor (N.lxor (nth 2 w 0) (nth 7 w 0))
                      (N.lxor (nth 13 w 0) (nth 15 w 0)) in
      expand n' (rotl 1 x :: w)
  end.

Definition round (t : N) (wt : N) (s : N * N * N * N * N) : N * N * N * N * N :=
  let '(a, b, c, d, e) := s in
  let '(f, k) :=
    if t <? 20 then (N.lor (N.land b c) (N.land (not32 b) d), 1518500249)
    else if t <? 40 then (N.lxor (N.lxor b c) d, 1859775393)
    else if t <? 60 then
      (N.lor (N.lor (N.land b c) (N.land b d)) (N.land c d), 2400959708)
    else (N.lxor (N.lxor b c) d, 3395469782) in
  let tmp := add32 (add32 (add32 (add32 (rotl 5 a) f) e) k) wt in
  (tmp, a, rotl 30 b, c, d).

Fixpoint rounds (t : N) (ws : list N) (s : N * N * N * N * N) : N * N * N * N * N :=
  match ws with
  | [] => s
  | wt :: ws' => rounds (t + 1) ws' (round t wt s)
  end.

Definition block (h : N * N * N * N * N) (blk : list N) : N * N * N * N * N :=
  let w := rev (expand 64 (rev (words 16 blk))) in
  let '(a, b, c, d, e) := rounds 0 w h in
  let '(h0, h1, h2, h3, h4) := h in
  (add32 h0 a, add32 h1 b, add32 h2 c, add32 h3 d, add32 h4 e).

Fixpoint blocks (fuel : nat) (h : N * N * N * N * N) (bs : list N)
  : N * N * N * N * N :=
  match fuel, bs with
  | S f, _ :: _ => blocks f (block h (firstn 64 bs)) (skipn 64 bs)
  | _, _ => h
  end.

Definition hex_digit (x : N) : N := if x <? 10 then 48 + x else 87 + x.

Definition hex_byte (b : N) : text := [hex_digit (N.shiftr b 4); hex_digit (N.land b 15)].

(** [hashlib.sha1(data).hexdigest()] *)
Definition sha1_hexdigest (data : list N) : text :=
  let p := pad data in
  let '(h0, h1, h2, h3, h4) :=
    blocks (length p) (1732584193, 4023233417, 2562383102, 271733878, 3285377520) p in
  flat_map hex_byte
    (be_bytes 4 h0 ++ be_bytes 4 h1 ++ be_bytes 4 h2 ++ be_bytes 4 h3 ++ be_bytes 4 h4).

End Hashlib.

Definition sha1_text (s : text) : text :=
  Hashlib.sha1_hexdigest (Hashlib.encode_utf8_ignore s).

(** ** Notices, status records and the snapshot *)

(** The [interpretation] object of a notice. *)
Record Interp := mkInterp {
  interp_excerpt : option text;
  interp_description : option text
}.

(** A notice as the service returns it; a key that is absent or null reads
    as [None]. *)
Record Notam := mkNotam {
  icao_code : option text;
  icao_message : option text;
  interpretation : option Interp
}.

Record SnowItem := mkSnowItem {
  raw : text;
  excerpt : text;
  description : text
}.

(** A record of the previous snapshot ([Dict[str, dict]], as the script
    wrote it on its last run) as far as the script reads it: the keys [hash]
    and [last_change_utc], each a string, null or absent. *)
Record PrevRecord := mkPrev {
  prev_hash : option text;
  prev_last_change_utc : option text
}.

(** A status record.  [evidence] is [None] where the record has no such key
    (fetch failure) and [Some None] where the key holds null. *)
Record AirportStatus := mkStatus {
  loaded : bool;
  has_snowtam : bool;
  severity : Severity;
  changed : bool;
  last_change_utc : option text;
  error : option text;
  items : list SnowItem;
  evidence : option (option Evidence);
  hash : option text
}.

Record Snapshot := mkSnapshot {
  generated_at_utc : text;
  source : text;
  window : text * text;
  batch_size : Z;
  per_page : Z;
  max_pages : Z;
  blink_hint_minutes : Z;
  airports : gmap text AirportStatus
}.

(** The module-level knobs read from the environment. *)
Record Config := mkConfig {
  BATCH_SIZE : Z;
  PER_PAGE : Z;
  MAX_PAGES : Z;
  BLINK_HINT_MINUTES : Z
}.

(** The three renderings of the clock reading [now] that [build_status]
    uses: [now], [now - 1 day] and [now + 7 days], each to the second with a
    trailing Z. *)
Record Clock := mkClock {
  now_z : text;
  starts : text;
  ends : text
}.

(** What one call of [fetch_notams_for_batch] does: it raises an exception
    (a subclass of [Exception], as network, HTTP and decoding errors are) of
    some type with some message, or returns the notices.  [build_status] gets
    the outcome of call number [bi] on [batch] as [fetch bi batch]. *)
Inductive FetchResult :=
| Raised (type_name message : text)
| Fetched (notams : list Notam).

(** [range(0, stop, step)] for a positive step. *)
Definition range0 (stop step : nat) : list nat :=
  map (fun k => k * step)%nat (seq 0 ((stop + step - 1) / step)).

(** [chunk(lst, n)]: [range] raises on a zero step and is empty for a
    negative one. *)
Definition chunk {A} (lst : list A) (n : Z) : option (list (list A)) :=
  if (n =? 0)%Z then None
  else if (n <? 0)%Z then Some []
  else
    let n := Z.to_nat n in
    Some (map (fun i => firstn n (skipn i lst)) (range0 (length lst) n)).

(** [order.get(sev, 0)] *)
Definition order (sev : Severity) : Z :=
  match sev with
  | green => 0
  | yellow => 1
  | orange => 2
  | red => 3
  | gray => 0
  end%Z.

(** [x or ""] *)
Definition or_empty (x : option text) : text := default [] x.

Definition item_text (it : SnowItem) : text :=
  raw it ++ [10] ++ excerpt it ++ [10] ++ description it.

(** The separator ["\n\n---\n\n"] of the blob. *)
Definition BLOB_SEP : text := [10; 10; 45; 45; 45; 10; 10].

Section Snapshot.
Context `{rt : PyRuntime}.
Variable cfg : Config.
Variable prev : gmap text PrevRecord.
Variable clock : Clock.
Variable fetch : nat -> list text -> FetchResult.

(** [prev.get(icao, {}).get(key)] and [(prev.get(icao) or {}).get(key)] *)
Definition prev_get (icao : text) (key : PrevRecord -> option text)
  : option text :=
  match prev !! icao with
  | Some r => key r
  | None => None
  end.

(** The record written for every airport of a batch whose fetch raised. *)
Definition degraded_status (icao : text) (err : text) : AirportStatus :=
  {| loaded := true;
     has_snowtam := false;
     severity := gray;
     changed := false;
     last_change_utc := prev_get icao prev_last_change_utc;
     error := Some err;
     items := [];
     evidence := None;
     hash := prev_get icao prev_hash |}.

(** [{icao: [] for icao in batch}], then each notice appended under its
    normalised code when that code is a key. *)
Definition group_by_icao (batch : list text) (notams : list Notam)
  : gmap text (list Notam) :=
  let init : gmap text (list Notam) :=
    fold_left (fun m icao => <[icao := []]> m) batch ∅ in
  fold_left
    (fun (m : gmap text (list Notam)) n =>
       let code := str_upper (strip (or_empty (icao_code n))) in
       match m !! code with
       | Some l => <[code := l ++ [n]]> m
       | None => m
       end)
    notams init.

(** One round of the loop over the notices of an airport. *)
Definition scan_notam (acc : list SnowItem * Severity * option Evidence)
  (n : Notam) : list SnowItem * Severity * option Evidence :=
  let '(snow_items, worst_sev, worst_evidence) := acc in
  let raw := or_empty (icao_message n) in
  if negb (is_snowtam_like raw) then acc
  else
    let excerpt := or_empty (interpretation n ≫= interp_excerpt) in
    let desc := or_empty (interpretation n ≫= interp_description) in
    let '(sev, ev) := severity_from_text (raw ++ [10] ++ desc) in
    let '(worst_sev, worst_evidence) :=
      match worst_sev with
      | green => (sev, Some ev)
      | _ =>
          if (order sev >? order worst_sev)%Z then (sev, Some ev)
          else (worst_sev, worst_evidence)
      end in
    (snow_items ++ [mkSnowItem raw excerpt desc], worst_sev, worst_evidence).

(** The body of the loop over the airports of a fetched batch. *)
Definition airport_status (icao : text) (notams : list Notam) : AirportStatus :=
  let '(snow_items, worst_sev, worst_evidence) :=
    fold_left scan_notam notams ([], green, None) in
  let has_snow := (0 <? length snow_items)%nat in
  let worst_sev := if negb has_snow then green else worst_sev in
  let blob := join BLOB_SEP (map item_text snow_items) in
  let new_hash := if has_snow then sha1_text blob else py "NO_SNOWTAM" in
  let old_hash := prev_get icao prev_hash in
  let changed :=
    match old_hash with
    | Some h => negb (text_eqb h new_hash)
    | None => false
    end in
  let last_change := prev_get icao prev_last_change_utc in
  let last_change := if changed then Some (now_z clock) else last_change in
  {| loaded := true;
     has_snowtam := has_snow;
     severity := worst_sev;
     changed := changed;
     last_change_utc := last_change;
     error := None;
     items := snow_items;
     evidence := Some worst_evidence;
     hash := Some new_hash |}.

(** One round of the loop over the batches. *)
Definition process_batch (bi : nat) (batch : list text)
  (airports_out : gmap text AirportStatus) : gmap text AirportStatus :=
  match fetch bi batch with
  | Raised type_name message =>
      let err := type_name ++ py ": " ++ message in
      fold_left (fun out icao => <[icao := degraded_status icao err]> out)
                batch airports_out
  | Fetched notams =>
      let by_icao := group_by_icao batch notams in
      fold_left
        (fun out icao =>
           <[icao := airport_status icao (default [] (by_icao !! icao))]> out)
        batch airports_out
  end.

(** The record that round [bi] of the batch loop writes for [icao]. *)
Definition batch_record (bi : nat) (batch : list text) (icao : text)
  : AirportStatus :=
  match fetch bi batch with
  | Raised type_name message =>
      degraded_status icao (type_name ++ py ": " ++ message)
  | Fetched notams =>
      airport_status icao
        (default [] (group_by_icao batch notams !! icao))
  end.

(** [for bi, batch in enumerate(batches, start=1)] *)
Fixpoint process_batches (bi : nat) (batches : list (list text))
  (airports_out : gmap text AirportStatus) : gmap text AirportStatus :=
  match batches with
  | [] => airports_out
  | batch :: rest =>
      process_batches (S bi) rest (process_batch bi batch airports_out)
  end.

(** [build_status]; [None] when [chunk] raises. *)
Definition build_status (icao_list : list text) : option Snapshot :=
  match chunk icao_list (BATCH_SIZE cfg) with
  | None => None
  | Some batches =>
      Some {| generated_at_utc := now_z clock;
              source := py "Notamify /api/v2/notams (active)";
              window := (starts clock, ends clock);
              batch_size := BATCH_SIZE cfg;
              per_page := PER_PAGE cfg;
              max_pages := MAX_PAGES cfg;
              blink_hint_minutes := BLINK_HINT_MINUTES cfg;
              airports := process_batches 1 batches ∅ |}
  end.

End Snapshot.

(** ** The airport list *)

Section AirportList.
Context `{rt : PyRuntime}.

(** [c.isalnum()] *)
Definition isalnum (c : text) : bool :=
  match c with
  | [] => false
  | _ => forallb uni_isalnum c
  end.

(** The second loop of [read_airport_list]: first occurrences, in order. *)
Definition unique_in_order (codes : list text) : list text :=
  fst (fold_left
         (fun (acc : list text * gset text) c =>
            let '(out, seen) := acc in
            if bool_decide (c ∈ seen) then acc else (out ++ [c], {[c]} ∪ seen))
         codes ([], ∅)).

(** [read_airport_list] on the lines of [airports.txt]. *)
Definition read_airport_list (lines : list text) : list text :=
  let codes :=
    List.filter
      (fun c => negb (text_eqb c []) && (length c =? 4)%nat && isalnum c)
      (map (fun line => str_upper (strip line)) lines) in
  unique_in_order codes.

End AirportList.

(** ** A runtime for worked examples

    The two tables written out for the code points below U+0100 and for the
    four letters U+0130, U+0131, U+017F and U+212A that IGNORECASE relates to
    ASCII letters; there they agree with CPython's.  The worked examples use
    no other character. *)

Definition demo_isalnum (c : N) : bool :=
  is_digit c || is_upper_az c || is_lower_az c
  || (c =? 170) || (c =? 178) || (c =? 179) || (c =? 181) || (c =? 185)
  || (c =? 186) || ((188 <=? c) && (c <=? 190))
  || ((192 <=? c) && (c <=? 214)) || ((216 <=? c) && (c <=? 246))
  || ((248 <=? c) && (c <=? 255))
  || (c =? 304) || (c =? 305) || (c =? 383) || (c =? 8490).

Definition demo_upper_char (c : N) : text :=
  if is_lower_az c then [c - 32]
  else if c =? 181 then [924]
  else if c =? 223 then [83; 83]
  else if c =? 247 then [c]
  else if (224 <=? c) && (c <=? 254) then [c - 32]
  else if c =? 255 then [376]
  else if c =? 305 then [73]
  else if c =? 383 then [83]
  else [c].

Definition demo_upper (s : text) : text := flat_map demo_upper_char s.

#[export] Instance demo_runtime : PyRuntime :=
  {| uni_isalnum := demo_isalnum; str_upper := demo_upper |}.

(** ** Runtimes that agree

    The matcher reads the [\w] table only at characters of the text, so two
    runtimes whose tables agree there match alike. *)

(** The two [\w] tables agree on the characters of [s]. *)
Definition same_words (rt1 rt2 : PyRuntime) (s : text) : Prop :=
  Forall (fun c => @uni_isalnum rt1 c = @uni_isalnum rt2 c) s.

Definition is_ascii (t : text) : bool := forallb (fun c => c <? 128) t.

(** A runtime whose tables are CPython's on ASCII. *)
Definition ascii_faithful (rt : PyRuntime) : Prop :=
  (forall c, c < 128 -> @uni_isalnum rt c = demo_isalnum c)
  /\ (forall s, is_ascii s = true -> @str_upper rt s = demo_upper s).

(** ** A worked run

    Eight airports with the default batch size of five: the first batch is
    fetched, the fetch of the second batch (three airports with previous
    hashes h1, h2 and NO_SNOWTAM) raises. *)

Definition demo_config : Config := mkConfig 5 30 1 90.

Definition demo_airports : list text :=
  map py ["EPWA"; "EPKK"; "EPGD"; "EPWR"; "EPPO"; "LHBP"; "LHDC"; "LHSM"]%string.

Definition demo_prev : gmap text PrevRecord :=
  list_to_map
    [(py "EPWA", mkPrev (Some (py "h0")) None);
     (py "EPKK", mkPrev (Some (py "NO_SNOWTAM")) (Some (py "2024-01-01T05:00:00Z")));
     (py "LHBP", mkPrev (Some (py "h1")) (Some (py "2024-01-01T05:00:00Z")));
     (py "LHDC", mkPrev (Some (py "h2")) None);
     (py "LHSM", mkPrev (Some (py "NO_SNOWTAM")) None)].

Definition demo_clock : Clock :=
  mkClock (py "2024-01-02T06:00:00Z") (py "2024-01-01T06:00:00Z")
          (py "2024-01-09T06:00:00Z").

Definition demo_notams : list Notam :=
  [mkNotam (Some (py "EPWA"))
           (Some (py "SNOWTAM 0123 RWYCC 5/5/4 BRAKING ACTION GOOD"))
           (Some (mkInterp (Some (py "Runway codes 5/5/4")) None));
   mkNotam (Some (py "epgd ")) (Some (py "RWY 09 CLSD DUE SNOW")) None;
   mkNotam (Some (py "EPKK")) (Some (py "TWY A CLSD")) None].

Definition demo_fetch (bi : nat) (batch : list text) : FetchResult :=
  match bi with
  | 1%nat => Fetched demo_notams
  | _ => Raised (py "ConnectionError") (py "timed out")
  end.

Definition demo_snapshot : option Snapshot :=
  build_status demo_config demo_prev demo_clock demo_fetch demo_airports.

(** ** More of the script

    The pieces of the loops of [build_status] by name, the exchange of
    [fetch_notams_for_batch] with the service, the status file between
    runs, [ensure_airports_json] and [main]. *)

(** A literal word under IGNORECASE, given by its characters: [lit s] is
    [lits (py s)]. *)
Definition lits (cs : text) : regex :=
  fold_right (fun c r => Seq (Cls (ci c)) r) Eps cs.

Section Loop.
Context `{rt : PyRuntime}.

(** [is_snowtam_like(n.get("icao_message") or "")], the test that lets a
    notice into the items of its airport. *)
Definition relevant (n : Notam) : bool :=
  is_snowtam_like (or_empty (icao_message n)).

(** The item appended for a notice that passed the test. *)
Definition snow_item (n : Notam) : SnowItem :=
  mkSnowItem (or_empty (icao_message n))
             (or_empty (interpretation n ≫= interp_excerpt))
             (or_empty (interpretation n ≫= interp_description)).

(** The text that is scored for a notice: [raw + "\n" + desc]. *)
Definition scored_text (n : Notam) : text :=
  or_empty (icao_message n) ++ [10]
  ++ or_empty (interpretation n ≫= interp_description).

End Loop.

(** A character of a [hexdigest]. *)
Definition is_hex (c : N) : bool :=
  ((48 <=? c) && (c <=? 57)) || ((97 <=? c) && (c <=? 102)).

(** ** The exchange with the service

    [fetch_notams_for_batch] sends one GET request per page.  What comes
    back is outside the program: the call of [requests.get] raises, or gives
    a response with a status code and a body.  [raise_for_status] raises
    [HTTPError] for a status from 400 to 599, with a message that
    [requests] builds from the status line and the URL; [r.json()] raises on
    a body that is no JSON, and [data.get] raises on a JSON value that is no
    object.  The value under ["notams"] is read as a list of notices, or as
    [None] where the key is absent or null. *)

Inductive Body :=
| BodyRaised (type_name message : text)
| BodyObject (notams : option (list Notam)).

Record Response := mkResponse {
  status_code : Z;
  http_error_msg : text;
  body : Body
}.

Inductive GetResult :=
| GetRaised (type_name message : text)
| Got (r : Response).

Record Request := mkRequest {
  req_url : text;
  req_headers : list (text * text);
  req_params : list (text * text)
}.

(** [str(n)] for an [int]. *)
Definition str_int (n : Z) : text := py (NilZero.string_of_int (Z.to_int n)).

Definition NOTAMIFY_URL : text := py "https://api.notamify.com/api/v2/notams".

Definition notamify_headers (api_key : text) : list (text * text) :=
  let bearer := py "Bearer " ++ api_key in
  [(py "Accept", py "application/json");
   (py "Authorization", bearer);
   (py "Authentication", bearer);
   (py "User-Agent", py "wizz-snowtam-watch/1.0")].

(** What one round of the page loop has after [data.get("notams") or []],
    or the exception it raised before. *)
Inductive PageResult :=
| PageRaised (type_name message : text)
| PageNotams (notams : list Notam).

Definition read_page (g : GetResult) : PageResult :=
  match g with
  | GetRaised ty msg => PageRaised ty msg
  | Got r =>
      if (status_code r =? 401)%Z then
        PageRaised (py "RuntimeError")
          (py "Notamify returned 401 Unauthorized. Check NOTAMIFY_API_KEY secret/header.")
      else if (400 <=? status_code r)%Z && (status_code r <? 600)%Z then
        PageRaised (py "HTTPError") (http_error_msg r)
      else
        match body r with
        | BodyRaised ty msg => PageRaised ty msg
        | BodyObject notams => PageNotams (default [] notams)
        end
  end.

Section Fetch.
Variable cfg : Config.
Variable get : Request -> GetResult.

(** The request for one page. *)
Definition page_request (api_key : text) (batch : list text)
  (starts_at ends_at : text) (page : Z) : Request :=
  {| req_url := NOTAMIFY_URL;
     req_headers := notamify_headers api_key;
     req_params :=
       [(py "page", str_int page);
        (py "per_page", str_int (PER_PAGE cfg));
        (py "starts_at", starts_at);
        (py "ends_at", ends_at)]
       ++ map (fun icao => (py "location", icao)) batch |}.

(** The loop [for page in range(1, MAX_PAGES + 1)], from [pages] on, with
    the notices gathered so far. *)
Fixpoint fetch_pages (api_key : text) (batch : list text)
  (starts_at ends_at : text) (pages : list Z) (out : list Notam)
  : FetchResult :=
  match pages with
  | [] => Fetched out
  | page :: rest =>
      match read_page
              (get (page_request api_key batch starts_at ends_at page)) with
      | PageRaised ty msg => Raised ty msg
      | PageNotams [] => Fetched out
      | PageNotams notams =>
          let out := out ++ notams in
          if (Z.of_nat (length notams) <? PER_PAGE cfg)%Z then Fetched out
          else fetch_pages api_key batch starts_at ends_at rest out
      end
  end.

(** What the loop reads on page [p]. *)
Definition page_result (api_key : text) (batch : list text)
  (starts_at ends_at : text) (p : nat) : PageResult :=
  read_page (get (page_request api_key batch starts_at ends_at (Z.of_nat p))).

(** A page after which the loop goes on: not empty, and not shorter than
    [PER_PAGE]. *)
Definition full_page (notams : list Notam) : Prop :=
  notams <> [] /\ (PER_PAGE cfg <= Z.of_nat (length notams))%Z.

Definition fetch_notams_for_batch (api_key : text) (batch : list text)
  (starts_at ends_at : text) : FetchResult :=
  fetch_pages api_key batch starts_at ends_at
    (map Z.of_nat (seq 1 (Z.to_nat (MAX_PAGES cfg)))) [].

End Fetch.

(** [build_status] with the fetcher of the script: the call for batch
    number [bi] talks to the service through [get bi]. *)
Definition build_status_http `{rt : PyRuntime} (cfg : Config)
  (prev : gmap text PrevRecord) (clock : Clock)
  (get : nat -> Request -> GetResult) (api_key : text)
  (icao_list : list text) : option Snapshot :=
  build_status cfg prev clock
    (fun bi batch =>
       fetch_notams_for_batch cfg (get bi) api_key batch
         (starts clock) (ends clock))
    icao_list.

(** ** The status file between two runs

    [data/snowtam_status.json] as [load_prev_status] finds it: absent; not
    readable as JSON (any exception of [open] or [json.load] is swallowed);
    a JSON value that is no object; or an object, whose ["airports"] entry,
    when there is one, maps codes to records as the script writes them. *)
Inductive StatusFile :=
| NoStatusFile
| UnreadableStatus
| NotAnObject
| StatusObject (airports_entry : option (gmap text PrevRecord)).

Definition load_prev_status (f : StatusFile) : gmap text PrevRecord :=
  match f with
  | StatusObject (Some m) => m
  | _ => ∅
  end.

(** What a later run reads of a record that [json.dump] wrote. *)
Definition as_prev (r : AirportStatus) : PrevRecord :=
  mkPrev (hash r) (last_change_utc r).

(** The status file after [main] has written [snap] into it. *)
Definition status_file_of (snap : Snapshot) : StatusFile :=
  StatusObject (Some (as_prev <$> airports snap)).

(** ** The coordinates file

    [ensure_airports_json] reads [airports.csv] through [csv.DictReader].
    A row is modelled as the reader yields it, by what [row.get] gives for
    the six columns read ([None] for a column that the header or the row
    lacks).  [float] is Python's conversion of a string, [None] where it
    raises; it is a parameter, as are the numbers it yields. *)
Record Row := mkRow {
  row_ident : option text;
  row_latitude_deg : option text;
  row_longitude_deg : option text;
  row_name : option text;
  row_iso_country : option text;
  row_municipality : option text
}.

(** An entry of the list under ["airports"]. *)
Record AirportEntry {F : Type} := mkAirportEntry {
  entry_icao : text;
  entry_name : text;
  entry_lat : F;
  entry_lon : F;
  entry_country : text;
  entry_municipality : text
}.
Arguments AirportEntry : clear implicits.
Arguments mkAirportEntry {F}.

(** The object that is dumped into [data/airports.json]. *)
Record AirportsDoc {F : Type} := mkAirportsDoc {
  doc_generated_at_utc : text;
  doc_source : text;
  doc_missing : list text;
  doc_airports : list (AirportEntry F)
}.
Arguments AirportsDoc : clear implicits.
Arguments mkAirportsDoc {F}.

(** The download of [airports.csv]: [requests.get] raises, or there is a
    response with a status, the message [raise_for_status] would raise
    with, and the rows of the body. *)
Inductive CsvResult :=
| CsvRaised (type_name message : text)
| CsvGot (status : Z) (error_msg : text) (rows : list Row).

Inductive EnsureResult {F : Type} :=
| Kept
| EnsureRaised (type_name message : text)
| Wrote (doc : AirportsDoc F).
Arguments EnsureResult : clear implicits.

Section Ensure.
Context `{rt : PyRuntime}.
Variable F : Type.
Variable float : text -> option F.

(** The body of the loop over the rows: the key and the entry that the row
    puts into [by_icao], if any. *)
Definition row_entry (need : gset text) (row : Row)
  : option (text * AirportEntry F) :=
  let ident := str_upper (strip (or_empty (row_ident row))) in
  if bool_decide (ident ∈ need) then
    match float (or_empty (row_latitude_deg row)) with
    | None => None
    | Some lat =>
        match float (or_empty (row_longitude_deg row)) with
        | None => None
        | Some lon =>
            Some (ident,
                  {| entry_icao := ident;
                     entry_name := strip (or_empty (row_name row));
                     entry_lat := lat;
                     entry_lon := lon;
                     entry_country := strip (or_empty (row_iso_country row));
                     entry_municipality :=
                       strip (or_empty (row_municipality row)) |})
        end
    end
  else None.

(** One round of the loop over the rows. *)
Definition read_row (need : gset text) (by_icao : gmap text (AirportEntry F))
  (row : Row) : gmap text (AirportEntry F) :=
  match row_entry need row with
  | Some (ident, e) => <[ident := e]> by_icao
  | None => by_icao
  end.

Definition read_rows (need : gset text) (rows : list Row)
  : gmap text (AirportEntry F) :=
  fold_left (read_row need) rows ∅.

(** [ensure_airports_json(icao_list)].  [existing] is the set [have] read
    from a present [airports.json], [None] when the file is absent or
    reading it raises; [generated_at] is the clock reading that is dumped. *)
Definition ensure_airports_json (existing : option (gset text))
  (download : CsvResult) (generated_at : text) (icao_list : list text)
  : EnsureResult F :=
  let need : gset text := list_to_set icao_list in
  if match existing with
     | Some have => bool_decide (need ⊆ have)
     | None => false
     end
  then Kept
  else
    match download with
    | CsvRaised ty msg => EnsureRaised ty msg
    | CsvGot status error_msg rows =>
        if (400 <=? status)%Z && (status <? 600)%Z then
          EnsureRaised (py "HTTPError") error_msg
        else
          let by_icao := read_rows need rows in
          Wrote {| doc_generated_at_utc := generated_at;
                   doc_source := py "OurAirports airports.csv";
                   doc_missing :=
                     List.filter (fun icao => bool_decide (by_icao !! icao = None))
                                 icao_list;
                   doc_airports := omap (fun icao => by_icao !! icao) icao_list |}
    end.

End Ensure.

(** ** [main]

    What a run finds outside the program: the environment variable, the
    three files, the answers of the two services and the readings of the
    clock. *)
Record World := mkWorld {
  env_NOTAMIFY_API_KEY : option text;
  file_airports_txt : option (list text);
  file_airports_json : option (gset text);
  file_status_json : StatusFile;
  ourairports : CsvResult;
  notamify : nat -> Request -> GetResult;
  clock_status : Clock;
  clock_airports : text
}.

(** How [main] ends: it returns 2; an exception leaves it, after the
    coordinates file was or was not rewritten; or it reaches
    [json.dump(status, f)], after which it returns 0 if the write succeeds.

    Two ways in which the script can raise are outside this model, because
    a notice is a [Notam], with a string or null under each key that is
    read: a notice of another shape (a number under [icao_code], say) makes
    the loops of [build_status] raise outside the [try], and [json.dump]
    raises on a text that holds a lone surrogate.  [MainRaised] therefore
    lists the exceptions of a run on notices of the expected shape, up to
    the dump. *)
Inductive MainResult {F : Type} :=
| Returned2
| MainRaised (type_name : text) (airports_doc : option (AirportsDoc F))
| DumpedStatus (airports_doc : option (AirportsDoc F)) (status : Snapshot).
Arguments MainResult : clear implicits.

Section Main.
Context `{rt : PyRuntime}.
Variable cfg : Config.
Variable F : Type.
Variable float : text -> option F.

Definition main (w : World) : MainResult F :=
  let api_key := strip (or_empty (env_NOTAMIFY_API_KEY w)) in
  match api_key with
  | [] => Returned2
  | _ =>
      match file_airports_txt w with
      | None => MainRaised (py "FileNotFoundError") None
      | Some lines =>
          let icao_list := read_airport_list lines in
          match ensure_airports_json F float (file_airports_json w)
                  (ourairports w) (clock_airports w) icao_list with
          | EnsureRaised ty _ => MainRaised ty None
          | ensured =>
              let doc :=
                match ensured with
                | Wrote d => Some d
                | _ => None
                end in
              match build_status_http cfg
                      (load_prev_status (file_status_json w))
                      (clock_status w) (notamify w) api_key icao_list with
              | None => MainRaised (py "ValueError") doc
              | Some status => DumpedStatus doc status
              end
          end
      end
  end.

End Main.

(** ** Worked runs against the services *)

(** A response with status 200 and the given notices. *)
Definition demo_ok (notams : list Notam) : GetResult :=
  Got (mkResponse 200 [] (BodyObject (Some notams))).

(** A service that answers the request for page [p] with the [p]-th of
    [pages], and with an empty page beyond them. *)
Definition demo_service (pages : list GetResult) (req : Request) : GetResult :=
  match req_params req with
  | (_, p) :: _ => default (demo_ok []) (pages !! pred (Z.to_nat (int_of p)))
  | [] => demo_ok []
  end.

(** The service of the worked run: the notices for the first batch, no
    connection for the second. *)
Definition demo_notamify (bi : nat) : Request -> GetResult :=
  match bi with
  | 1%nat => demo_service [demo_ok demo_notams]
  | _ => fun _ => GetRaised (py "ConnectionError") (py "timed out")
  end.

(** A service that rejects the key. *)
Definition demo_unauthorized (bi : nat) (req : Request) : GetResult :=
  Got (mkResponse 401 (py "401 Client Error: Unauthorized")
         (BodyRaised (py "JSONDecodeError") (py "Expecting value"))).

(** Pages of three notices, two pages at most. *)
Definition demo_paged_config : Config := mkConfig 5 3 2 90.

(** The worked run, a second run an hour later in which no fetch succeeds,
    and a third run that finds the notices of the first. *)
Definition demo_fetch_down (bi : nat) (batch : list text) : FetchResult :=
  Raised (py "ConnectionError") (py "timed out").

(** A fetcher that refuses an empty batch and is [demo_fetch] otherwise. *)
Definition demo_fetch_guarded (bi : nat) (batch : list text) : FetchResult :=
  match batch with
  | [] => Raised (py "ValueError") (py "empty batch")
  | _ => demo_fetch bi batch
  end.

Definition demo_clock2 : Clock :=
  mkClock (py "2024-01-02T07:00:00Z") (py "2024-01-01T07:00:00Z")
          (py "2024-01-09T07:00:00Z").

Definition demo_clock3 : Clock :=
  mkClock (py "2024-01-02T08:00:00Z") (py "2024-01-01T08:00:00Z")
          (py "2024-01-09T08:00:00Z").

Definition demo_status_file : StatusFile :=
  from_option status_file_of NoStatusFile demo_snapshot.

Definition demo_snapshot2 : option Snapshot :=
  build_status demo_config (load_prev_status demo_status_file) demo_clock2
    demo_fetch_down demo_airports.

Definition demo_status_file2 : StatusFile :=
  from_option status_file_of NoStatusFile demo_snapshot2.

Definition demo_snapshot3 : option Snapshot :=
  build_status demo_config (load_prev_status demo_status_file2) demo_clock3
    demo_fetch demo_airports.

(** A notice that fails the relevance test. *)
Definition demo_other_notam : Notam :=
  mkNotam (Some (py "EPWA")) (Some (py "TWY B CLSD")) None.

(** [float] on strings of digits, for the worked rows. *)
Definition demo_float (s : text) : option Z :=
  if isdigit s then Some (int_of s) else None.

Definition demo_rows : list Row :=
  [mkRow (Some (py "EPWA")) (Some (py "52")) (Some (py "20"))
         (Some (py " Warsaw Chopin ")) (Some (py "PL")) (Some (py "Warsaw"));
   mkRow (Some (py "epkk ")) (Some (py "50")) (Some (py "")) None None None;
   mkRow (Some (py "KJFK")) (Some (py "40")) (Some (py "73")) None None None;
   mkRow (Some (py "EPWA")) (Some (py "53")) (Some (py "21"))
         (Some (py "Warsaw")) (Some (py "PL")) None;
   mkRow None (Some (py "1")) (Some (py "2")) None None None;
   mkRow (Some (py "EPGD")) (Some (py "54")) (Some (py "18"))
         (Some (py "Gdansk")) None None;
   mkRow (Some (py "EPGD")) (Some (py "north")) (Some (py "18"))
         (Some (py "Gdansk again")) None None].

Definition demo_lines : list text :=
  map py ["epwa"; " EPKK "; ""; "EPWA"; "EP-K"; "EPGDX"; "epgd"]%string.

Definition demo_world : World :=
  mkWorld (Some (py " secret ")) (Some demo_lines) None NoStatusFile
          (CsvGot 200 [] demo_rows) demo_notamify demo_clock
          (py "2024-01-02T06:00:00.250000+00:00").

(** * Properties *)

#[local] Set Warnings "-clear-no-such-hyp".

Section Language.
Context `{rt : PyRuntime}.

Lemma text_eqb_eq (a b : text) : text_eqb a b = true <-> a = b.
Proof.
  revert b. induction a as [|x a IH]; intros [|y b]; simpl; try easy.
  rewrite andb_true_iff, N.eqb_eq, IH. split; [intros [-> ->]|intros [= -> ->]]; done.
Qed.

(** *** The matcher against the patterns' meaning *)

Lemma moved_nil st : moved st [] st.
Proof. by split. Qed.

Lemma moved_app st1 m1 st2 m2 st3 :
  moved st1 m1 st2 -> moved st2 m2 st3 -> moved st1 (m1 ++ m2) st3.
Proof.
  intros [H1 H2] [H3 H4]. split.
  - by rewrite H1, H3, app_assoc.
  - by rewrite H4, H2, rev_app_distr, app_assoc.
Qed.

Lemma star_cls_sound p td : forall sn cs st',
  In st' (star_cls p sn td cs) ->
  exists mid, moved (MState sn td cs) mid st'
              /\ Forall (fun c => p c = true) mid /\ caps st' = cs.
Proof.
  induction td as [|c td IH]; intros sn cs st' Hin; simpl in Hin.
  - destruct Hin as [<-|[]]. exists []. by repeat split.
  - destruct (p c) eqn:Hp.
    + apply in_app_iff in Hin as [Hin|[<-|[]]].
      * apply IH in Hin as (mid & [Ht Hs] & Hall & Hc). simpl in *.
        exists (c :: mid). repeat split; simpl; auto.
        -- by rewrite Ht.
        -- by rewrite Hs, <- app_assoc.
      * exists []. by repeat split.
    + destruct Hin as [<-|[]]. exists []. by repeat split.
Qed.

Lemma upto_sound (step : mstate -> list mstate) r :
  (forall st st', In st' (step st) ->
     exists mid, moved st mid st' /\ Matches r (seen st) mid (todo st')) ->
  forall n st st', In st' (upto step n st) ->
     exists mid, moved st mid st' /\ Matches (Upto n r) (seen st) mid (todo st').
Proof.
  intros Hstep. induction n as [|n IH]; intros st st' Hin; simpl in Hin.
  - destruct Hin as [<-|[]]. exists []. split; [apply moved_nil | constructor].
  - apply in_app_iff in Hin as [Hin|[<-|[]]].
    + apply in_flat_map in Hin as (st1 & H1 & H2).
      apply Hstep in H1 as (m1 & Hm1 & HM1).
      apply IH in H2 as (m2 & Hm2 & HM2).
      exists (m1 ++ m2). split; [by eapply moved_app|].
      destruct Hm1 as [_ Hs], Hm2 as [Ht _].
      rewrite Hs in HM2. rewrite Ht in HM1. by constructor.
    + exists []. split; [apply moved_nil | constructor].
Qed.

(** Every match the matcher returns is a match of the pattern. *)
Lemma run_sound r : forall st st',
  In st' (run r st) ->
  exists mid, moved st mid st' /\ Matches r (seen st) mid (todo st').
Proof.
  induction r as [|p| |a IHa b IHb|a IHa b IHb|n r IH|p|i r IH];
    intros st st' Hin; simpl in Hin.
  - destruct Hin as [<-|[]]. exists []. split; [apply moved_nil | constructor].
  - destruct (todo st) as [|c td] eqn:Etd; [done|].
    destruct (p c) eqn:Hp; [|done]. destruct Hin as [<-|[]].
    exists [c]. split; [by split | by constructor].
  - destruct (at_boundary _ _) eqn:Hb; [|done]. destruct Hin as [<-|[]].
    exists []. split; [apply moved_nil | by constructor].
  - apply in_flat_map in Hin as (st1 & H1 & H2).
    apply IHa in H1 as (m1 & Hm1 & HM1). apply IHb in H2 as (m2 & Hm2 & HM2).
    exists (m1 ++ m2). split; [by eapply moved_app|].
    destruct Hm1 as [_ Hs], Hm2 as [Ht _].
    rewrite Hs in HM2. rewrite Ht in HM1. by constructor.
  - apply in_app_iff in Hin as [Hin|Hin].
    + apply IHa in Hin as (mid & ? & ?). exists mid. split; [done|by apply M_AltL].
    + apply IHb in Hin as (mid & ? & ?). exists mid. split; [done|by apply M_AltR].
  - by apply (upto_sound (run r) r IH).
  - destruct st as [sn td cs]. simpl in Hin.
    apply star_cls_sound in Hin as (mid & Hm & Hall & _).
    exists mid. split; [done | by constructor].
  - apply in_map_iff in Hin as (st1 & <- & Hin).
    apply IH in Hin as (mid & [Ht Hs] & HM).
    exists mid. split; [by split | by constructor].
Qed.

Lemma star_cls_complete p mid : forall sn ahead cs,
  Forall (fun c => p c = true) mid ->
  In (MState (rev mid ++ sn) ahead cs) (star_cls p sn (mid ++ ahead) cs).
Proof.
  induction mid as [|c mid IH]; intros sn ahead cs Hall; simpl.
  - destruct ahead as [|c td]; simpl; [by left|].
    destruct (p c); [apply in_app_iff; right|]; by left.
  - inversion Hall as [|? ? Hc Hall']; subst. rewrite Hc.
    apply in_app_iff. left. rewrite <- app_assoc. by apply IH.
Qed.

(** Every match of the pattern is among those the matcher returns. *)
Lemma run_complete r behind mid ahead :
  Matches r behind mid ahead ->
  forall cs, exists cs',
    In (MState (rev mid ++ behind) ahead cs')
       (run r (MState behind (mid ++ ahead) cs)).
Proof.
  induction 1 as [b a|p c b a Hp|b a Hb|ra rb b m1 m2 a _ IH1 _ IH2
                  |ra rb b m a _ IH|ra rb b m a _ IH|n r b a
                  |n r b m1 m2 a _ IH1 _ IH2|p b m a Hall|i r b m a _ IH];
    intros cs; simpl.
  - exists cs. by left.
  - exists cs. rewrite Hp. by left.
  - exists cs. rewrite Hb. by left.
  - destruct (IH1 cs) as [cs1 H1]. destruct (IH2 cs1) as [cs2 H2].
    exists cs2. apply in_flat_map. eexists. rewrite <- app_assoc.
    split; [exact H1|]. by rewrite rev_app_distr, <- app_assoc.
  - destruct (IH cs) as [cs' Hin]. exists cs'. apply in_app_iff. by left.
  - destruct (IH cs) as [cs' Hin]. exists cs'. apply in_app_iff. by right.
  - exists cs. destruct n; simpl; [by left|]. apply in_app_iff. right. by left.
  - destruct (IH1 cs) as [cs1 H1]. destruct (IH2 cs1) as [cs2 H2].
    exists cs2. apply in_app_iff. left. apply in_flat_map. eexists.
    rewrite <- app_assoc. split; [exact H1|].
    by rewrite rev_app_distr, <- app_assoc.
  - exists cs. by apply star_cls_complete.
  - destruct (IH cs) as [cs' Hin]. eexists. apply in_map_iff.
    eexists. split; [|exact Hin]. unfold set_group. simpl. reflexivity.
Qed.

Lemma search_from_Some r td : forall sn m,
  search_from r sn td = Some m ->
  exists pre rest, td = pre ++ rest
    /\ In m (run r (MState (rev pre ++ sn) rest [])).
Proof.
  induction td as [|c td IH]; intros sn m; simpl.
  - destruct (run r _) as [|m' ms] eqn:E; [done|]. intros [= <-].
    exists [], []. split; [done|]. simpl. rewrite E. by left.
  - destruct (run r _) as [|m' ms] eqn:E.
    + intros Hs. apply IH in Hs as (pre & rest & -> & Hin).
      exists (c :: pre), rest. split; [done|]. simpl. by rewrite <- app_assoc.
    + intros [= <-]. exists [], (c :: td). split; [done|]. simpl.
      rewrite E. by left.
Qed.

Lemma search_from_None r td : forall sn,
  search_from r sn td = None ->
  forall pre rest, td = pre ++ rest ->
    run r (MState (rev pre ++ sn) rest []) = [].
Proof.
  induction td as [|c td IH]; intros sn; simpl.
  - destruct (run r _) as [|m' ms] eqn:E; [|done]. intros _ pre rest Heq.
    symmetry in Heq. apply app_eq_nil in Heq as [-> ->]. done.
  - destruct (run r _) as [|m' ms] eqn:E; [|done]. intros Hs pre rest Heq.
    destruct pre as [|c' pre]; simpl in *.
    + by subst rest.
    + injection Heq as <- ->. rewrite <- app_assoc. by apply IH.
Qed.

(** [pattern.search(t)] finds a match exactly when the pattern matches
    somewhere in [t]. *)
Lemma found_iff_Occurs r t : found r t = true <-> Occurs r t.
Proof.
  unfold found, search. split.
  - destruct (search_from r [] t) as [m|] eqn:E; [|done]. intros _.
    apply search_from_Some in E as (pre & rest & -> & Hin).
    apply run_sound in Hin as (mid & [Ht _] & HM). simpl in *.
    rewrite app_nil_r in HM. exists pre, mid, (todo m). by rewrite <- Ht.
  - intros (pre & mid & post & -> & HM).
    destruct (search_from r [] _) as [m|] eqn:E; [done|]. exfalso.
    pose proof (search_from_None _ _ _ E pre (mid ++ post) eq_refl) as Hn.
    destruct (run_complete _ _ _ _ HM []) as [cs' Hin].
    rewrite app_nil_r in Hn. rewrite Hn in Hin. done.
Qed.

Lemma not_found_iff r t : found r t = false <-> ~ Occurs r t.
Proof. rewrite <- found_iff_Occurs. by destruct (found r t). Qed.


(** *** Groups *)

Lemma Matches_alphabet (P : N -> Prop) r behind mid ahead :
  alphabet P r -> Matches r behind mid ahead -> Forall P mid.
Proof.
  intros Ha HM. induction HM; simpl in Ha; try (by constructor).
  - constructor; auto.
  - destruct Ha. apply Forall_app; auto.
  - destruct Ha; auto.
  - destruct Ha; auto.
  - apply Forall_app; auto.
  - rewrite Forall_forall in *. auto.
  - auto.
Qed.

Lemma in_run_Seq a b st st' :
  In st' (run (Seq a b) st) <-> exists st1, In st1 (run a st) /\ In st' (run b st1).
Proof. simpl. apply in_flat_map. Qed.

Lemma in_run_Bnd st st' : In st' (run Bnd st) -> st' = st.
Proof. simpl. destruct (at_boundary _ _); [|done]. by intros [<-|[]]. Qed.

(** A match of a group records the stretch it matched. *)
Lemma run_Grp i r st st' :
  In st' (run (Grp i r) st) ->
  exists mid, moved st mid st' /\ Matches r (seen st) mid (todo st')
              /\ group st' i = Some mid.
Proof.
  simpl. intros Hin. apply in_map_iff in Hin as (st1 & <- & Hin).
  apply run_sound in Hin as (mid & [Ht Hs] & HM).
  exists mid. split; [by split|]. split; [done|].
  unfold group, set_group. simpl. rewrite Nat.eqb_refl. f_equal.
  rewrite Ht, length_app. replace (_ + _ - _)%nat with (length mid) by lia.
  by rewrite firstn_app, Nat.sub_diag, firstn_all, app_nil_r.
Qed.

(** Group 1 of a match of [RWYCC_RE] is set and holds only digits, slashes
    and white space. *)
Lemma rwycc_group_chars t m :
  search RWYCC_RE t = Some m ->
  exists raw, group m 1 = Some raw /\ Forall digit_or_sep raw.
Proof.
  intros Hs. apply search_from_Some in Hs as (pre & rest & _ & Hin).
  unfold RWYCC_RE in Hin. apply in_run_Seq in Hin as (st1 & _ & Hin).
  apply run_Grp in Hin as (raw & _ & HM & Hg). exists raw. split; [done|].
  eapply Matches_alphabet; [|exact HM]. unfold digit_or_sep. simpl.
  unfold slash_or_space. repeat split; intros c Hc; rewrite ?Hc; auto using orb_true_r.
Qed.

Lemma drop_spaces_Forall (P : N -> Prop) s :
  Forall P s -> Forall P (drop_spaces s).
Proof.
  induction 1 as [|c s Hc Hs IH]; simpl; [constructor|].
  destruct (is_space c); [exact IH | by constructor].
Qed.

Lemma strip_Forall (P : N -> Prop) s : Forall P s -> Forall P (strip s).
Proof.
  intros Hs. unfold strip.
  apply Forall_rev, drop_spaces_Forall, Forall_rev, drop_spaces_Forall, Hs.
Qed.

Lemma split_runs_Forall (P : N -> Prop) sep s : forall in_sep cur part,
  Forall P cur ->
  Forall (fun c => sep c = false -> P c) s ->
  In part (split_runs sep in_sep cur s) -> Forall P part.
Proof.
  induction s as [|c s IH]; intros in_sep cur part Hcur Hs Hin; simpl in Hin.
  - destruct Hin as [<-|[]]. by apply Forall_rev.
  - inversion Hs as [|? ? Hc Hs']; subst.
    destruct (sep c) eqn:Esep.
    + destruct in_sep; [by apply (IH true cur)|].
      destruct Hin as [<-|Hin]; [by apply Forall_rev|].
      apply (IH true []); [constructor | exact Hs' | exact Hin].
    + apply (IH false (c :: cur)); [|exact Hs' | exact Hin].
      constructor; [by apply Hc | exact Hcur].
Qed.

(** The pieces that [extract_rwycc_values] tests and converts hold ASCII
    digits only. *)
Lemma rwycc_parts_digits t m part :
  search RWYCC_RE t = Some m ->
  In part (re_split slash_or_space (strip (group_str m 1))) ->
  Forall (fun c => is_digit c = true) part.
Proof.
  intros Hs Hin. destruct (rwycc_group_chars t m Hs) as (raw & Hg & Hraw).
  unfold group_str in Hin. rewrite Hg in Hin. simpl in Hin.
  eapply split_runs_Forall; [constructor | | exact Hin].
  eapply Forall_impl; [|apply strip_Forall, Hraw].
  intros c [Hd|Hsep] Hn; [done | congruence].
Qed.

(** Group 2 of a match of [BRAKING_RE] is set. *)
Lemma braking_group_set t m :
  search BRAKING_RE t = Some m -> is_Some (group m 2).
Proof.
  intros Hs. apply search_from_Some in Hs as (pre & rest & _ & Hin).
  unfold BRAKING_RE in Hin. apply in_run_Seq in Hin as (st2 & Hin & Hb).
  apply in_run_Bnd in Hb as ->. apply in_run_Seq in Hin as (st1 & _ & Hin).
  apply run_Grp in Hin as (w & _ & _ & Hg). by exists w.
Qed.

End Language.

(** ** Two runtimes that agree on the characters of a text *)

Section Agreement.
Variables rt1 rt2 : PyRuntime.

Lemma word_at_agree s : same_words rt1 rt2 s -> @word_at rt1 s = @word_at rt2 s.
Proof.
  intros Hs. destruct s as [|c s]; [done|]. simpl. unfold is_word.
  inversion Hs as [|? ? Hc _]. by rewrite Hc.
Qed.

Lemma moved_same_words st mid st' :
  moved st mid st' ->
  same_words rt1 rt2 (seen st) -> same_words rt1 rt2 (todo st) ->
  same_words rt1 rt2 (seen st') /\ same_words rt1 rt2 (todo st').
Proof.
  unfold same_words. intros [Ht Hs] Hsn Htd. rewrite Ht in Htd.
  apply Forall_app in Htd as [Hmid Htd]. split; [|done].
  rewrite Hs. apply Forall_app. split; [by apply Forall_rev | done].
Qed.

Lemma flat_map_agree {A B} (f g : A -> list B) l :
  (forall x, In x l -> f x = g x) -> flat_map f l = flat_map g l.
Proof.
  induction l as [|x l IH]; intros Hfg; simpl; [done|].
  rewrite Hfg by (by left). rewrite IH; [done|]. intros y Hy. apply Hfg. by right.
Qed.

Lemma upto_agree (f g : mstate -> list mstate) r :
  (forall st st', In st' (f st) -> exists mid, moved st mid st'
                                  /\ @Matches rt1 r (seen st) mid (todo st')) ->
  (forall st, same_words rt1 rt2 (seen st) -> same_words rt1 rt2 (todo st) ->
     f st = g st) ->
  forall n st, same_words rt1 rt2 (seen st) -> same_words rt1 rt2 (todo st) ->
    upto f n st = upto g n st.
Proof.
  intros Hsound Hfg. induction n as [|n IH]; intros st Hsn Htd; simpl; [done|].
  rewrite <- (Hfg st Hsn Htd). f_equal. apply flat_map_agree.
  intros st1 Hin. apply Hsound in Hin as (mid & Hm & _).
  destruct (moved_same_words _ _ _ Hm Hsn Htd). by apply IH.
Qed.

(** The matcher does the same under both runtimes. *)
Lemma run_agree r : forall st,
  same_words rt1 rt2 (seen st) -> same_words rt1 rt2 (todo st) ->
  @run rt1 r st = @run rt2 r st.
Proof.
  induction r as [|p| |a IHa b IHb|a IHa b IHb|n r IH|p|i r IH];
    intros st Hsn Htd; simpl; try done.
  - unfold at_boundary. by rewrite (word_at_agree _ Hsn), (word_at_agree _ Htd).
  - rewrite <- (IHa st Hsn Htd). apply flat_map_agree.
    intros st1 Hin. apply run_sound in Hin as (mid & Hm & _).
    destruct (moved_same_words _ _ _ Hm Hsn Htd). by apply IHb.
  - by rewrite IHa, IHb.
  - apply (upto_agree _ _ r); [apply run_sound | exact IH | done | done].
  - by rewrite IH.
Qed.

Lemma search_from_agree r td : forall sn,
  same_words rt1 rt2 sn -> same_words rt1 rt2 td ->
  @search_from rt1 r sn td = @search_from rt2 r sn td.
Proof.
  induction td as [|c td IH]; intros sn Hsn Htd; simpl.
  - by rewrite run_agree.
  - rewrite run_agree by done. destruct (run r _); [|done].
    inversion Htd; subst. apply IH; [by constructor | done].
Qed.

Lemma search_agree r t :
  same_words rt1 rt2 t -> @search rt1 r t = @search rt2 r t.
Proof. intros Ht. apply search_from_agree; [constructor | done]. Qed.

Lemma found_agree r t : same_words rt1 rt2 t -> @found rt1 r t = @found rt2 r t.
Proof. intros Ht. unfold found. by rewrite search_agree. Qed.

Lemma is_snowtam_like_agree t :
  same_words rt1 rt2 t -> @is_snowtam_like rt1 t = @is_snowtam_like rt2 t.
Proof. intros Ht. unfold is_snowtam_like. by rewrite !found_agree. Qed.

Lemma extract_rwycc_agree t :
  same_words rt1 rt2 t -> @extract_rwycc_values rt1 t = @extract_rwycc_values rt2 t.
Proof. intros Ht. unfold extract_rwycc_values. by rewrite search_agree. Qed.

Lemma keyword_fallback_agree t ev :
  same_words rt1 rt2 t -> @keyword_fallback rt1 t ev = @keyword_fallback rt2 t ev.
Proof.
  intros Ht.
  assert (Hk : List.filter (fun k => @found rt1 (word_re k) t) KEYWORDS
               = List.filter (fun k => @found rt2 (word_re k) t) KEYWORDS)
    by (apply filter_ext; intros k; by apply found_agree).
  unfold keyword_fallback. by rewrite Hk, !found_agree.
Qed.

(** The scorer does the same under both runtimes when, besides, [str.upper]
    agrees on the braking word. *)
Lemma severity_from_text_agree t :
  same_words rt1 rt2 t ->
  (forall m, @search rt2 BRAKING_RE t = Some m ->
     @str_upper rt1 (group_str m 2) = @str_upper rt2 (group_str m 2)) ->
  @severity_from_text rt1 t = @severity_from_text rt2 t.
Proof.
  intros Ht Hup. unfold severity_from_text.
  rewrite found_agree, extract_rwycc_agree, search_agree by done.
  destruct (found _ _); [done|]. destruct (extract_rwycc_values t); [|done].
  destruct (search BRAKING_RE t) as [m|] eqn:E; [|by apply keyword_fallback_agree].
  rewrite (Hup m eq_refl). by rewrite keyword_fallback_agree.
Qed.

End Agreement.

Lemma braking_word_within t m :
  search BRAKING_RE t = Some m ->
  forall P : N -> Prop, Forall P t -> Forall P (group_str m 2).
Proof.
  intros Hs P Ht. apply search_from_Some in Hs as (pre & rest & -> & Hin).
  unfold BRAKING_RE in Hin. apply in_run_Seq in Hin as (st2 & Hin & Hb).
  apply in_run_Bnd in Hb as ->. apply in_run_Seq in Hin as (st1 & H1 & Hin).
  apply run_sound in H1 as (m1 & [Ht1 _] & _).
  apply run_Grp in Hin as (w & [Htw _] & _ & Hg).
  unfold group_str. rewrite Hg. simpl in *.
  apply Forall_app in Ht as [_ Hrest]. rewrite Ht1 in Hrest.
  apply Forall_app in Hrest as [_ Hrest]. rewrite Htw in Hrest.
  by apply Forall_app in Hrest as [Hw _].
Qed.

(** On an ASCII text every runtime with CPython's ASCII tables scores and
    classifies as the demo runtime does. *)
Lemma ascii_text_any_runtime (rt : PyRuntime) t :
  ascii_faithful rt -> is_ascii t = true ->
  @severity_from_text rt t = @severity_from_text demo_runtime t
  /\ @is_snowtam_like rt t = @is_snowtam_like demo_runtime t
  /\ @extract_rwycc_values rt t = @extract_rwycc_values demo_runtime t
  /\ (forall r, @found rt r t = @found demo_runtime r t).
Proof.
  intros [Hal Hup] Ht.
  assert (Hlt : Forall (fun c => c < 128) t).
  { apply Forall_forall. intros c Hc. apply N.ltb_lt.
    unfold is_ascii in Ht. rewrite forallb_forall in Ht. by apply Ht. }
  assert (Hw : same_words rt demo_runtime t).
  { unfold same_words. eapply Forall_impl; [|exact Hlt]. intros c Hc. by apply Hal. }
  split; [|split; [by apply is_snowtam_like_agree|
                   split; [by apply extract_rwycc_agree|
                           intros r; by apply found_agree]]].
  apply severity_from_text_agree; [done|]. intros m Hm. apply Hup.
  unfold is_ascii. apply forallb_forall. intros c Hc. apply N.ltb_lt.
  pose proof (braking_word_within t m Hm _ Hlt) as Hg.
  rewrite Forall_forall in Hg. by apply Hg.
Qed.

(** ** The scorer and the classifier *)

Section Scorer.
Context `{rt : PyRuntime}.

(** *** Facts about the helpers of the scorer *)

Lemma fold_min_spec l : forall x,
  (fold_left Z.min l x <= x)%Z
  /\ Forall (fun v => (fold_left Z.min l x <= v)%Z) l
  /\ (fold_left Z.min l x = x \/ In (fold_left Z.min l x) l).
Proof.
  induction l as [|y l IH]; intros x; simpl.
  - repeat split; [lia | constructor | by left].
  - destruct (IH (Z.min x y)) as (H1 & H2 & H3). repeat split.
    + lia.
    + constructor; [lia | exact H2].
    + destruct H3 as [H3|H3]; [|by right; right].
      rewrite H3. destruct (Z.min_spec x y) as [[_ ->]|[_ ->]];
        [by left | right; by left].
Qed.

Lemma list_min_le l v : In v l -> (list_min l <= v)%Z.
Proof.
  destruct l as [|x l]; [done|]. simpl.
  destruct (fold_min_spec l x) as (H1 & H2 & _).
  intros [<-|Hin]; [done|]. rewrite Forall_forall in H2. by apply H2.
Qed.

Lemma list_min_In l : l <> [] -> In (list_min l) l.
Proof.
  destruct l as [|x l]; [done|]. intros _. simpl.
  destruct (fold_min_spec l x) as (_ & _ & [->|H3]); [by left | by right].
Qed.

Lemma extract_rwycc_range t :
  Forall (fun v => (0 <= v <= 6)%Z) (extract_rwycc_values t).
Proof.
  unfold extract_rwycc_values. destruct (search RWYCC_RE t); [|constructor].
  apply Forall_forall. intros v Hv. apply filter_In in Hv as [_ Hv]. lia.
Qed.

(** The scorer on a text without a closure match whose codes are [rw]. *)
Lemma severity_from_codes t rw :
  ~ Occurs RUNWAY_CLOSED_RE t ->
  extract_rwycc_values t = rw -> rw <> [] ->
  severity_from_text t
  = (if (list_min rw <=? 1)%Z then red
     else if (list_min rw <=? 3)%Z then orange else yellow,
     mkEvidence (Some rw) None false []).
Proof.
  intros Hc Hrw Hne. apply not_found_iff in Hc.
  unfold severity_from_text. rewrite Hc, Hrw.
  destruct rw as [|v rw]; [done|].
  by repeat destruct (_ <=? _)%Z.
Qed.

(** C4. A text in which the closure pattern matches somewhere scores red with
    [closed] set and nothing else in the evidence, whatever else the text
    holds: no later check is made. *)
Theorem closure_is_red t :
  Occurs RUNWAY_CLOSED_RE t ->
  severity_from_text t = (red, mkEvidence None None true []).
Proof.
  intros Hc. apply found_iff_Occurs in Hc.
  unfold severity_from_text. by rewrite Hc.
Qed.

(** C3, as the code has it. When the closure pattern does not match and some
    extracted code [v] is at most 1, the score is red and the evidence holds
    the extracted codes, [v] among them. *)
Theorem low_code_is_red t rw v :
  ~ Occurs RUNWAY_CLOSED_RE t ->
  extract_rwycc_values t = rw ->
  In v rw -> (v <= 1)%Z ->
  severity_from_text t = (red, mkEvidence (Some rw) None false [])
  /\ (v = 0 \/ v = 1)%Z.
Proof.
  intros Hc Hrw Hin Hv.
  assert (Hne : rw <> []) by (intros ->; inversion Hin).
  rewrite (severity_from_codes t rw Hc Hrw Hne).
  pose proof (list_min_le _ _ Hin).
  destruct (Z.leb_spec (list_min rw) 1); [|lia]. split; [done|].
  pose proof (extract_rwycc_range t) as Hr. rewrite Hrw, Forall_forall in Hr.
  specialize (Hr v Hin). lia.
Qed.

(** C5. When the closure pattern does not match and codes are extracted, every
    code kept lies in 0..6 and the smallest one decides: 0-1 red, 2-3 orange,
    4-6 yellow, with the codes as the only evidence; the braking phrase is not
    looked at.  Under a runtime with CPython's ASCII tables the scenario text
    scores yellow with codes 5, 5, 4 although its braking phrase matches, and
    a code above 6 is dropped. *)
Theorem rwycc_minimum_governs :
  (forall t rw,
     ~ Occurs RUNWAY_CLOSED_RE t ->
     extract_rwycc_values t = rw -> rw <> [] ->
     let mn := list_min rw in
     Forall (fun v => (0 <= v <= 6)%Z) rw
     /\ In mn rw /\ Forall (fun v => (mn <= v)%Z) rw
     /\ snd (severity_from_text t) = mkEvidence (Some rw) None false []
     /\ ((0 <= mn <= 1)%Z -> fst (severity_from_text t) = red)
     /\ ((2 <= mn <= 3)%Z -> fst (severity_from_text t) = orange)
     /\ ((4 <= mn <= 6)%Z -> fst (severity_from_text t) = yellow))
  /\ (ascii_faithful rt ->
      (let t := py "SNOWTAM 0123 RWYCC 5/5/4 BRAKING ACTION GOOD" in
       found BRAKING_RE t = true
       /\ severity_from_text t
          = (yellow, mkEvidence (Some [5; 5; 4]%Z) None false []))
      /\ extract_rwycc_values (py "RWYCC 7/5/9") = [5%Z]).
Proof.
  split.
  - intros t rw Hc Hrw Hne mn.
    rewrite (severity_from_codes t rw Hc Hrw Hne). fold mn. simpl.
    split; [rewrite <- Hrw; apply extract_rwycc_range|].
    split; [by apply list_min_In|].
    split; [apply Forall_forall; intros v Hv; by apply list_min_le|].
    split; [done|].
    destruct (Z.leb_spec mn 1), (Z.leb_spec mn 3); repeat split; intros;
      try done; lia.
  - intros Hf. split.
    + intros t.
      destruct (ascii_text_any_runtime rt t Hf eq_refl) as (-> & _ & _ & ->).
      by vm_compute.
    + destruct (ascii_text_any_runtime rt (py "RWYCC 7/5/9") Hf eq_refl)
        as (_ & _ & -> & _).
      by vm_compute.
Qed.

(** C6. [is_snowtam_like] answers true only for a text in which the
    vocabulary pattern matches and, besides, the context pattern or the word
    SNOWTAM matches; so a text in which neither the context pattern nor the
    word SNOWTAM matches gets false, whatever else it holds. *)
Theorem is_snowtam_like_only_if t :
  (is_snowtam_like t = true ->
   Occurs SNOW_HINT_RE t
   /\ (Occurs CONTEXT_RE t \/ Occurs (word_re "SNOWTAM") t))
  /\ (~ Occurs CONTEXT_RE t -> ~ Occurs (word_re "SNOWTAM") t ->
      is_snowtam_like t = false).
Proof.
  rewrite <- !found_iff_Occurs. unfold is_snowtam_like. destruct t as [|c t].
  - split; [done|]. done.
  - destruct (found SNOW_HINT_RE _), (found CONTEXT_RE _),
      (found (word_re "SNOWTAM") _); split; intros; try done; auto.
Qed.

(** The classifier in full: the empty text has no match of any pattern. *)
Lemma is_snowtam_like_iff t :
  is_snowtam_like t = true
  <-> Occurs SNOW_HINT_RE t
      /\ (Occurs CONTEXT_RE t \/ Occurs (word_re "SNOWTAM") t).
Proof.
  rewrite <- !found_iff_Occurs. unfold is_snowtam_like. destruct t as [|c t].
  - split; [done|]. by intros [? _].
  - destruct (found SNOW_HINT_RE _), (found CONTEXT_RE _),
      (found (word_re "SNOWTAM") _); split; try done; intros; auto;
      naive_solver.
Qed.

(** The empty text is scored by the keyword fallback, whatever the runtime
    tables are. *)
Lemma severity_empty_text :
  severity_from_text [] = (yellow, mkEvidence None None false []).
Proof. reflexivity. Qed.

(** C9. [severity_from_text] returns red, orange or yellow for every text,
    the empty one included, and never green.  In the keyword fallback the
    score is red when POOR, UNUSABLE or UNSAFE occurs as a word, else orange
    when MEDIUM or MODERATE occurs, else yellow. *)
Theorem severity_from_text_never_green t :
  let sev := fst (severity_from_text t) in
  (sev = red \/ sev = orange \/ sev = yellow)
  /\ sev <> green
  /\ severity_from_text [] = (yellow, mkEvidence None None false [])
  /\ (in_keyword_fallback t ->
      (Occurs POOR_RE t -> sev = red)
      /\ (~ Occurs POOR_RE t -> Occurs MEDIUM_RE t -> sev = orange)
      /\ (~ Occurs POOR_RE t -> ~ Occurs MEDIUM_RE t -> sev = yellow)).
Proof.
  intros sev.
  assert (Hfb : forall ev, let s := fst (keyword_fallback t ev) in
            (s = red \/ s = orange \/ s = yellow)
            /\ ((Occurs POOR_RE t -> s = red)
                /\ (~ Occurs POOR_RE t -> Occurs MEDIUM_RE t -> s = orange)
                /\ (~ Occurs POOR_RE t -> ~ Occurs MEDIUM_RE t -> s = yellow))).
  { intros ev s. subst s. rewrite <- !found_iff_Occurs. unfold keyword_fallback.
    destruct (found POOR_RE t), (found MEDIUM_RE t); simpl;
      repeat split; intros; try done; auto. }
  assert (H3 : sev = red \/ sev = orange \/ sev = yellow).
  { subst sev. unfold severity_from_text.
    destruct (found RUNWAY_CLOSED_RE t); [auto|].
    destruct (extract_rwycc_values t) as [|v rw].
    - destruct (search BRAKING_RE t) as [bm|]; [|apply Hfb].
      repeat (destruct (text_eqb _ _); [auto|]). apply Hfb.
    - repeat (destruct (_ <=? _)%Z; [auto|]). auto. }
  split; [exact H3|]. split; [by destruct H3 as [->|[->| ->]]|].
  split; [reflexivity|].
  intros (Hc & Hrw & Hb). apply not_found_iff in Hc.
  subst sev. unfold severity_from_text. rewrite Hc, Hrw.
  unfold braking_word in Hb.
  destruct (search BRAKING_RE t) as [bm|]; [|apply Hfb].
  destruct (Hb _ eq_refl) as (Hp & Hm & Hg).
  rewrite <- text_eqb_eq in Hp, Hm, Hg.
  destruct (text_eqb _ (py "POOR")); [done|].
  destruct (text_eqb _ (py "MEDIUM")); [done|].
  destruct (text_eqb _ (py "GOOD")); [done|]. apply Hfb.
Qed.

End Scorer.

(** *** Worked texts *)

Lemma closure_is_red_witness :
  Occurs RUNWAY_CLOSED_RE (py "RWY 09 CLSD")
  /\ severity_from_text (py "RWY 09 CLSD")
     = (red, mkEvidence None None true []).
Proof.
  assert (Hc : Occurs RUNWAY_CLOSED_RE (py "RWY 09 CLSD"))
    by (apply found_iff_Occurs; vm_compute; reflexivity).
  split; [exact Hc | exact (closure_is_red _ Hc)].
Defined.

(** The closure phrase wins over codes and braking words in the same text. *)
Example closure_beside_other_signals :
  severity_from_text (py "RWYCC 6/6/6 BRAKING ACTION GOOD AERODROME CLSD")
  = (red, mkEvidence None None true []).
Proof. by vm_compute. Qed.

Example closure_scenario :
  severity_from_text (py "RWY 14/32 CLSD WEF 2024-01-01")
  = (red, mkEvidence None None true []).
Proof. by vm_compute. Qed.

(** Two texts that hold "RWYCC 0".  In the first the first RWYCC marker
    carries a 5: the score is yellow and the evidence holds no 0.  In the
    second a closure phrase follows: the score is red but no code is read. *)
Lemma rwycc_zero_not_read :
  (let t := py "RWYCC 5 RWYCC 0" in
   (exists pre post, t = pre ++ py "RWYCC 0" ++ post)
   /\ severity_from_text t = (yellow, mkEvidence (Some [5%Z]) None false [])
   /\ ~ (fst (severity_from_text t) = red
         /\ exists rw, ev_rwycc (snd (severity_from_text t)) = Some rw
                       /\ In 0%Z rw))
  /\ (let t := py "RWYCC 0 CLSD" in
      (exists pre post, t = pre ++ py "RWYCC 0" ++ post)
      /\ severity_from_text t = (red, mkEvidence None None true [])
      /\ ~ (exists rw, ev_rwycc (snd (severity_from_text t)) = Some rw
                       /\ In 0%Z rw)).
Proof.
  split.
  - split; [by exists (py "RWYCC 5 "), []|].
    split; [by vm_compute|]. intros [Hred _]. by vm_compute in Hred.
  - split; [by exists [], (py " CLSD")|].
    split; [by vm_compute|]. intros (rw & Hrw & _). by vm_compute in Hrw.
Qed.

Lemma low_code_is_red_witness :
  let t := py "RWYCC 0" in
  ~ Occurs RUNWAY_CLOSED_RE t
  /\ extract_rwycc_values t = [0%Z]
  /\ severity_from_text t = (red, mkEvidence (Some [0%Z]) None false []).
Proof.
  intros t.
  assert (Hc : ~ Occurs RUNWAY_CLOSED_RE t)
    by (apply not_found_iff; vm_compute; reflexivity).
  assert (Hrw : extract_rwycc_values t = [0%Z]) by (vm_compute; reflexivity).
  split; [exact Hc|]. split; [exact Hrw|].
  refine (proj1 (low_code_is_red t [0%Z] 0%Z Hc Hrw _ _)); [by left | lia].
Defined.

Lemma demo_runtime_ascii_faithful : ascii_faithful demo_runtime.
Proof. by split. Qed.

Lemma rwycc_minimum_governs_witness :
  (let t := py "RWYCC 3/2 BRAKING ACTION POOR" in
   ~ Occurs RUNWAY_CLOSED_RE t
   /\ extract_rwycc_values t = [3; 2]%Z
   /\ fst (severity_from_text t) = orange)
  /\ ascii_faithful demo_runtime
  /\ severity_from_text (py "SNOWTAM 0123 RWYCC 5/5/4 BRAKING ACTION GOOD")
     = (yellow, mkEvidence (Some [5; 5; 4]%Z) None false []).
Proof.
  pose (t := py "RWYCC 3/2 BRAKING ACTION POOR").
  assert (Hc : ~ Occurs RUNWAY_CLOSED_RE t)
    by (apply not_found_iff; vm_compute; reflexivity).
  assert (Hrw : extract_rwycc_values t = [3; 2]%Z) by (vm_compute; reflexivity).
  assert (Hf : ascii_faithful demo_runtime) by (by split).
  split; [|split; [exact Hf|]].
  - split; [exact Hc|]. split; [exact Hrw|].
    destruct (proj1 rwycc_minimum_governs t _ Hc Hrw ltac:(discriminate))
      as (_ & _ & _ & _ & _ & Ho & _).
    apply Ho. vm_compute. split; discriminate.
  - exact (proj2 (proj1 (proj2 rwycc_minimum_governs Hf))).
Defined.

(** The three spellings named in the script, the cap at six codes, the
    window of six characters after the marker, and digits outside 0..6. *)
Example extract_rwycc_examples :
  map (fun t => extract_rwycc_values (py t))
      ["RWYCC 3/3/2"; "RWYCC: 2"; "RWYCC 5 5 4"; "RWYCC 5 5 4 3 2 1 0";
       "RWYCC ABOUT 3"; "RWYCC 9"; "RWYCC 7/5/9"; "rwycc 1 / 2"]%string
  = [[3; 3; 2]; [2]; [5; 5; 4]; [5; 5; 4; 3; 2; 1]; []; []; [5]; [1; 2]]%Z.
Proof. by vm_compute. Qed.

(** Without usable codes the braking phrase decides. *)
Example braking_after_unusable_codes :
  severity_from_text (py "RWYCC 9 BRAKING ACTION MEDIUM")
  = (orange, mkEvidence None (Some (py "MEDIUM")) false []).
Proof. by vm_compute. Qed.

Lemma is_snowtam_like_only_if_witness :
  let t := py "HEAVY SNOW AT SNOW HILL" in
  ~ Occurs CONTEXT_RE t /\ ~ Occurs (word_re "SNOWTAM") t
  /\ Occurs SNOW_HINT_RE t /\ is_snowtam_like t = false.
Proof.
  intros t.
  assert (H1 : ~ Occurs CONTEXT_RE t)
    by (apply not_found_iff; vm_compute; reflexivity).
  assert (H2 : ~ Occurs (word_re "SNOWTAM") t)
    by (apply not_found_iff; vm_compute; reflexivity).
  split; [exact H1|]. split; [exact H2|].
  split; [apply found_iff_Occurs; vm_compute; reflexivity|].
  exact (proj2 (is_snowtam_like_only_if t) H1 H2).
Defined.

Example bare_snow_is_not_relevant : is_snowtam_like (py "SNOW") = false.
Proof. by vm_compute. Qed.

(** The vocabulary pattern wants CONTAMIN as a word of its own, the context
    pattern takes it as the beginning of a word. *)
Example contaminated_runway_is_not_relevant :
  is_snowtam_like (py "RWY 09 CONTAMINATED") = false
  /\ is_snowtam_like (py "RWY 09 CONTAMINATED ICE") = true.
Proof. by vm_compute. Qed.

Example snowtam_scenario_is_relevant :
  is_snowtam_like (py "SNOWTAM 0123 RWYCC 5/5/4 BRAKING ACTION GOOD") = true.
Proof. by vm_compute. Qed.

Lemma severity_from_text_never_green_witness :
  let t := py "SLUSH AND ICE, SURFACE UNSAFE" in
  in_keyword_fallback t /\ Occurs POOR_RE t
  /\ fst (severity_from_text t) = red.
Proof.
  intros t.
  assert (Hf : in_keyword_fallback t).
  { split; [apply not_found_iff; vm_compute; reflexivity|].
    split; [vm_compute; reflexivity|]. intros b Hb. by vm_compute in Hb. }
  assert (Hp : Occurs POOR_RE t)
    by (apply found_iff_Occurs; vm_compute; reflexivity).
  split; [exact Hf|]. split; [exact Hp|].
  destruct (severity_from_text_never_green t) as (_ & _ & _ & Hfb).
  exact (proj1 (Hfb Hf) Hp).
Defined.

(** A braking word spelt with a dotted capital I is stored as evidence but is
    none of the three known words, so the keywords decide. *)
Example braking_word_outside_the_three :
  severity_from_text (py "BRAKING MED" ++ [304] ++ py "UM")
  = (orange,
     mkEvidence None (Some (py "MED" ++ [304] ++ py "UM")) false [py "BRAKING"]).
Proof. by vm_compute. Qed.

(** The worked texts are ASCII: they score and classify the same under every
    runtime with CPython's ASCII tables. *)
Lemma worked_texts_any_runtime (rt : PyRuntime) :
  ascii_faithful rt ->
  severity_from_text (py "RWY 09 CLSD") = (red, mkEvidence None None true [])
  /\ severity_from_text (py "RWYCC 5 RWYCC 0")
     = (yellow, mkEvidence (Some [5%Z]) None false [])
  /\ severity_from_text (py "RWYCC 0 CLSD")
     = (red, mkEvidence None None true [])
  /\ severity_from_text (py "RWYCC 0")
     = (red, mkEvidence (Some [0%Z]) None false [])
  /\ is_snowtam_like (py "SNOW") = false
  /\ is_snowtam_like (py "HEAVY SNOW AT SNOW HILL") = false
  /\ is_snowtam_like (py "SNOWTAM 0123 RWYCC 5/5/4 BRAKING ACTION GOOD") = true.
Proof.
  intros Hf.
  repeat match goal with
         | |- _ /\ _ => split
         | |- @severity_from_text _ ?t = _ =>
             rewrite (proj1 (ascii_text_any_runtime rt t Hf eq_refl));
             by vm_compute
         | |- @is_snowtam_like _ ?t = _ =>
             rewrite (proj1 (proj2 (ascii_text_any_runtime rt t Hf eq_refl)));
             by vm_compute
         end.
Qed.

(** ** The snapshot *)

Section SnapshotFacts.
Context `{rt : PyRuntime}.
Variable cfg : Config.
Variable prev : gmap text PrevRecord.
Variable clock : Clock.
Variable fetch : nat -> list text -> FetchResult.

Lemma fold_insert_lookup {V} (f : text -> V) (l : list text)
  (m : gmap text V) (k : text) :
  fold_left (fun out i => <[i := f i]> out) l m !! k
  = if decide (k ∈ l) then Some (f k) else m !! k.
Proof.
  revert m. induction l as [|i l IH]; intros m; simpl.
  - destruct (decide (k ∈ [])) as [Hk|]; [|done]. by apply elem_of_nil in Hk.
  - rewrite IH. destruct (decide (k ∈ l)) as [Hl|Hl].
    + by rewrite decide_True by set_solver.
    + destruct (decide (k = i)) as [->|Hne].
      * by rewrite lookup_insert_eq, decide_True by set_solver.
      * by rewrite lookup_insert_ne, decide_False by set_solver.
Qed.

Lemma process_batch_lookup bi batch out icao :
  process_batch prev clock fetch bi batch out !! icao
  = if decide (icao ∈ batch) then Some (batch_record prev clock fetch bi batch icao)
    else out !! icao.
Proof.
  unfold process_batch, batch_record.
  destruct (fetch bi batch) as [ty msg|ns].
  - apply (fold_insert_lookup (fun i => degraded_status prev i _)).
  - apply (fold_insert_lookup
             (fun i => airport_status prev clock i
                         (default [] (group_by_icao batch ns !! i)))).
Qed.

Lemma process_batches_notin bs : forall bi out icao,
  icao ∉ concat bs ->
  process_batches prev clock fetch bi bs out !! icao = out !! icao.
Proof.
  induction bs as [|b bs IH]; intros bi out icao Hn; simpl; [done|].
  simpl in Hn. rewrite IH by set_solver.
  rewrite process_batch_lookup. case_decide; [set_solver | done].
Qed.

Lemma process_batches_last pre : forall bi b post out icao,
  icao ∈ b -> icao ∉ concat post ->
  process_batches prev clock fetch bi (pre ++ b :: post) out !! icao
  = Some (batch_record prev clock fetch (bi + length pre) b icao).
Proof.
  induction pre as [|p pre IH]; intros bi b post out icao Hin Hpost; simpl.
  - rewrite process_batches_notin by done.
    rewrite process_batch_lookup. rewrite decide_True by done.
    by rewrite Nat.add_0_r.
  - rewrite IH by done. do 2 f_equal. lia.
Qed.

(** Every record of the output comes from some round of the loop. *)
Lemma process_batches_origin bs : forall bi out icao r,
  process_batches prev clock fetch bi bs out !! icao = Some r ->
  out !! icao = Some r
  \/ exists k b, bs !! k = Some b /\ icao ∈ b
                 /\ r = batch_record prev clock fetch (bi + k) b icao.
Proof.
  induction bs as [|b bs IH]; intros bi out icao r Hr; simpl in Hr; [by left|].
  apply IH in Hr as [Hr|(k & b' & Hk & Hin & ->)].
  - rewrite process_batch_lookup in Hr. case_decide as Hin; [|by left].
    right. exists 0%nat, b. rewrite Nat.add_0_r. naive_solver.
  - right. exists (S k), b'. split; [done|]. split; [done|].
    f_equal. lia.
Qed.

Lemma process_batches_is_Some bs : forall bi out icao,
  is_Some (process_batches prev clock fetch bi bs out !! icao)
  <-> is_Some (out !! icao) \/ icao ∈ concat bs.
Proof.
  induction bs as [|b bs IH]; intros bi out icao; simpl.
  - set_solver.
  - rewrite IH, process_batch_lookup. rewrite elem_of_app.
    case_decide; split; intros; eauto; naive_solver.
Qed.


(** *** Facts about [chunk] *)

Lemma chunks_concat {A} (n m : nat) : forall (s : nat) (l : list A),
  (length l <= (s + m) * n)%nat ->
  concat (map (fun i => firstn n (skipn i l)) (map (fun k => k * n)%nat (seq s m)))
  = skipn (s * n) l.
Proof.
  induction m as [|m IH]; intros s l Hlen; simpl.
  - rewrite Nat.add_0_r in Hlen. symmetry. by apply skipn_all2.
  - rewrite IH by lia. simpl.
    rewrite <- skipn_skipn. apply firstn_skipn.
Qed.

Lemma chunk_concat {A} (lst : list A) (n : Z) bs :
  (0 < n)%Z -> chunk lst n = Some bs -> concat bs = lst.
Proof.
  intros Hn. unfold chunk, range0.
  destruct (n =? 0)%Z eqn:E0; [lia|].
  destruct (n <? 0)%Z eqn:E1; [lia|].
  intros [= <-]. set (k := Z.to_nat n). assert (0 < k)%nat by lia.
  rewrite (chunks_concat k _ 0%nat); [done|].
  simpl. pose proof (Nat.div_mod_eq (length lst + k - 1) k).
  pose proof (Nat.mod_upper_bound (length lst + k - 1) k). nia.
Qed.

Lemma chunk_is_Some {A} (lst : list A) (n : Z) :
  (0 < n)%Z -> is_Some (chunk lst n).
Proof.
  intros Hn. unfold chunk.
  destruct (n =? 0)%Z eqn:E0; [lia|]. destruct (n <? 0)%Z eqn:E1; [lia|]. eauto.
Qed.

(** *** Facts about single records *)

Lemma airport_status_loaded icao ns : loaded (airport_status prev clock icao ns) = true.
Proof. unfold airport_status. by destruct (fold_left _ _ _) as [[? ?] ?]. Qed.

Lemma airport_status_error icao ns : error (airport_status prev clock icao ns) = None.
Proof. unfold airport_status. by destruct (fold_left _ _ _) as [[? ?] ?]. Qed.

Lemma airport_status_green icao ns :
  has_snowtam (airport_status prev clock icao ns) = false ->
  severity (airport_status prev clock icao ns) = green.
Proof.
  unfold airport_status. destruct (fold_left _ _ _) as [[its ws] we]. simpl.
  by intros ->.
Qed.

Lemma airport_status_changed icao ns :
  changed (airport_status prev clock icao ns)
  = match prev_get prev icao prev_hash with
    | Some h => negb (bool_decide (Some h = hash (airport_status prev clock icao ns)))
    | None => false
    end.
Proof.
  unfold airport_status. destruct (fold_left _ _ _) as [[its ws] we]. simpl.
  destruct (prev_get prev icao prev_hash) as [h|]; [|done]. f_equal.
  apply eq_true_iff_eq. rewrite text_eqb_eq, bool_decide_eq_true. naive_solver.
Qed.

Lemma airport_status_last_change icao ns :
  last_change_utc (airport_status prev clock icao ns)
  = if changed (airport_status prev clock icao ns) then Some (now_z clock)
    else prev_get prev icao prev_last_change_utc.
Proof. unfold airport_status. by destruct (fold_left _ _ _) as [[its ws] we]. Qed.

(** A record of the output is a degraded record or a scored one. *)
Lemma snapshot_record_cases icao_list snap icao r :
  build_status cfg prev clock fetch icao_list = Some snap ->
  airports snap !! icao = Some r ->
  (exists ty msg, r = degraded_status prev icao (ty ++ py ": " ++ msg))
  \/ (exists ns, r = airport_status prev clock icao ns).
Proof.
  unfold build_status. destruct (chunk _ _) as [bs|]; [|done].
  intros [= <-]. simpl. intros Hr.
  apply process_batches_origin in Hr as [Hr|(k & b & _ & _ & ->)].
  - by rewrite lookup_empty in Hr.
  - unfold batch_record. destruct (fetch _ _); eauto.
Qed.


Lemma chunk_cases {A} (lst : list A) (n : Z) bs :
  chunk lst n = Some bs -> bs = [] \/ concat bs = lst.
Proof.
  intros Hc. destruct (decide (0 < n)%Z) as [Hn|Hn].
  - right. by apply chunk_concat with n.
  - left. unfold chunk in Hc. destruct (Z.eqb_spec n 0); [done|].
    destruct (Z.ltb_spec n 0); [congruence | lia].
Qed.

(** C2, as the code has it. A record without relevant notices is green when
    its batch was fetched and gray when the fetch failed. *)
Theorem no_notice_green_unless_fetch_failed icao_list snap icao r :
  build_status cfg prev clock fetch icao_list = Some snap ->
  airports snap !! icao = Some r ->
  has_snowtam r = false ->
  (error r = None -> severity r = green)
  /\ (error r <> None -> severity r = gray).
Proof.
  intros Hb Hr Hs.
  destruct (snapshot_record_cases _ _ _ _ Hb Hr) as [(ty & msg & ->)|[ns ->]].
  - split; [done|]. done.
  - split; [intros _; by apply airport_status_green|].
    by rewrite airport_status_error.
Qed.

(** C8. In a record written by a batch whose fetch succeeded, the last-change
    time is the time of this run when [changed] is true, and only then:
    otherwise it is the last-change time that the previous snapshot holds
    for the airport, null when that record has none, and null when the
    previous snapshot has no record for the airport (in which case
    [changed] is false). *)
Theorem last_change_follows_changed icao_list snap icao r :
  build_status cfg prev clock fetch icao_list = Some snap ->
  airports snap !! icao = Some r ->
  error r = None ->
  (changed r = true -> last_change_utc r = Some (now_z clock))
  /\ (changed r = false ->
      last_change_utc r = prev !! icao ≫= prev_last_change_utc)
  /\ (forall p, prev !! icao = Some p -> changed r = false ->
      last_change_utc r = prev_last_change_utc p)
  /\ (prev !! icao = None -> changed r = false /\ last_change_utc r = None)
  /\ (last_change_utc r <> prev !! icao ≫= prev_last_change_utc ->
      changed r = true /\ last_change_utc r = Some (now_z clock)).
Proof.
  intros Hb Hr He.
  destruct (snapshot_record_cases _ _ _ _ Hb Hr)
    as [(ty & msg & ->)|[ns ->]]; [done|].
  rewrite airport_status_last_change, airport_status_changed.
  unfold prev_get. destruct (prev !! icao) as [p|] eqn:Hp; simpl.
  - destruct (prev_hash p) as [h|]; [destruct (negb _)|];
      split_and!; try done; by intros ? [= <-].
  - split_and!; done.
Qed.

(** [read_airport_list] lists no airport twice. *)
Lemma read_airport_list_NoDup lines : NoDup (read_airport_list lines).
Proof.
  unfold read_airport_list, unique_in_order.
  generalize (List.filter
                (fun c => negb (text_eqb c []) && (length c =? 4)%nat && isalnum c)
                (map (fun line => str_upper (strip line)) lines)).
  intros codes.
  assert (Hinv : forall (acc : list text * gset text),
            NoDup acc.1 -> (forall x, x ∈ acc.1 <-> x ∈ acc.2) ->
            NoDup (fold_left
                     (fun (acc : list text * gset text) c =>
                        let '(out, seen) := acc in
                        if bool_decide (c ∈ seen) then acc
                        else (out ++ [c], {[c]} ∪ seen)) codes acc).1).
  { induction codes as [|c codes IH]; intros [out seen] Hnd Hiff; simpl in *;
      [done|].
    apply IH; case_bool_decide as Hc; simpl; try done.
    - apply list.NoDup_app. split; [done|]. split; [|apply NoDup_singleton].
      intros x Hx. rewrite list_elem_of_singleton. intros ->.
      by apply Hc, Hiff.
    - intros x. rewrite elem_of_app, list_elem_of_singleton, Hiff. set_solver. }
  apply Hinv; simpl; [constructor|]. intros x. set_solver.
Qed.


(** What the run writes for the airports of batch number [k] (counted from
    0), when no airport is listed twice. *)
Lemma build_status_batch icao_list batches k batch icao :
  NoDup icao_list ->
  chunk icao_list (BATCH_SIZE cfg) = Some batches ->
  batches !! k = Some batch ->
  icao ∈ batch ->
  exists snap,
    build_status cfg prev clock fetch icao_list = Some snap
    /\ airports snap !! icao = Some (batch_record prev clock fetch (S k) batch icao).
Proof.
  intros Hnd Hc Hk Hin. unfold build_status. rewrite Hc.
  eexists. split; [done|]. simpl.
  destruct (chunk_cases _ _ _ Hc) as [->|Hcat]; [done|].
  rewrite <- (take_drop_middle _ _ _ Hk).
  rewrite <- Hcat, <- (take_drop_middle _ _ _ Hk) in Hnd.
  rewrite concat_app, concat_cons in Hnd.
  apply list.NoDup_app in Hnd as (_ & _ & Hnd).
  apply list.NoDup_app in Hnd as (_ & Hnd & _).
  rewrite process_batches_last by auto.
  do 2 f_equal. rewrite length_take. apply lookup_lt_Some in Hk. lia.
Qed.

(** The whole run, batch by batch, when no airport is listed twice. *)
Lemma build_status_all_batches icao_list batches :
  NoDup icao_list ->
  chunk icao_list (BATCH_SIZE cfg) = Some batches ->
  exists snap,
    build_status cfg prev clock fetch icao_list = Some snap
    /\ forall k batch icao, batches !! k = Some batch -> icao ∈ batch ->
       airports snap !! icao
       = Some (batch_record prev clock fetch (S k) batch icao).
Proof.
  intros Hnd Hc. eexists. split; [unfold build_status; by rewrite Hc|].
  intros k batch icao Hk Hin.
  destruct (build_status_batch _ _ _ _ _ Hnd Hc Hk Hin) as (snap & Hs & Hl).
  unfold build_status in Hs. rewrite Hc in Hs. by injection Hs as <-.
Qed.

(** The airports of a batch whose fetch returned get the scored record, the
    one with a null [error]. *)
Lemma fetched_batch_records icao_list batches k batch ns :
  NoDup icao_list ->
  chunk icao_list (BATCH_SIZE cfg) = Some batches ->
  batches !! k = Some batch ->
  fetch (S k) batch = Fetched ns ->
  exists snap,
    build_status cfg prev clock fetch icao_list = Some snap
    /\ forall icao, icao ∈ batch ->
       exists r, airports snap !! icao = Some r /\ error r = None
         /\ r = airport_status prev clock icao
                  (default [] (group_by_icao batch ns !! icao)).
Proof.
  intros Hnd Hc Hk Hf.
  destruct (build_status_all_batches _ _ Hnd Hc) as (snap & Hb & Hall).
  exists snap. split; [done|]. intros icao Hin. eexists.
  split; [by apply (Hall k batch)|].
  unfold batch_record. rewrite Hf. split; [apply airport_status_error | done].
Qed.

Lemma batch_record_loaded bi batch icao :
  loaded (batch_record prev clock fetch bi batch icao) = true.
Proof.
  unfold batch_record. destruct (fetch bi batch); [done|].
  apply airport_status_loaded.
Qed.

(** C7. When the fetch of a batch raises, the round of the loop writes for
    every airport of the batch the degraded record -- loaded, no relevant
    notice, gray, not changed, the error text attached, no items, no
    evidence, and as hash and last-change time the ones that the record of
    the airport in the previous snapshot holds, null where the previous
    snapshot has no record of the airport -- and leaves the other records
    alone.  The run goes on: when no airport is listed twice, the snapshot
    holds that record for the airports of the failed batch and, for the
    airports of every batch, the record that the fetch of their own batch
    determines. *)
Theorem fetch_failure_degrades_batch bi batch ty msg :
  fetch bi batch = Raised ty msg ->
  let err := ty ++ py ": " ++ msg in
  (forall icao,
     let r := degraded_status prev icao err in
     loaded r = true /\ has_snowtam r = false /\ severity r = gray
     /\ changed r = false
     /\ hash r = prev !! icao ≫= prev_hash
     /\ last_change_utc r = prev !! icao ≫= prev_last_change_utc
     /\ (forall p, prev !! icao = Some p ->
           hash r = prev_hash p
           /\ last_change_utc r = prev_last_change_utc p)
     /\ (prev !! icao = None -> hash r = None /\ last_change_utc r = None)
     /\ error r = Some err /\ items r = [] /\ evidence r = None)
  /\ (forall out icao,
        process_batch prev clock fetch bi batch out !! icao
        = if decide (icao ∈ batch) then Some (degraded_status prev icao err)
          else out !! icao)
  /\ (forall icao_list batches k,
        NoDup icao_list ->
        chunk icao_list (BATCH_SIZE cfg) = Some batches ->
        batches !! k = Some batch -> bi = S k ->
        exists snap,
          build_status cfg prev clock fetch icao_list = Some snap
          /\ (forall icao, icao ∈ batch ->
              airports snap !! icao = Some (degraded_status prev icao err))
          /\ (forall k' batch' icao,
                batches !! k' = Some batch' -> icao ∈ batch' ->
                airports snap !! icao
                = Some (batch_record prev clock fetch (S k') batch' icao))).
Proof.
  intros Hf err. split; [|split].
  - intros icao. unfold degraded_status, prev_get. simpl.
    destruct (prev !! icao) as [p|]; simpl; split_and!; try done.
    by intros ? [= <-].
  - intros out icao. rewrite process_batch_lookup.
    unfold batch_record. by rewrite Hf.
  - intros icao_list batches k Hnd Hc Hk ->.
    destruct (build_status_all_batches _ _ Hnd Hc) as (snap & Hb & Hall).
    exists snap. split; [done|]. split; [|done].
    intros icao Hin. rewrite (Hall k batch icao Hk Hin).
    unfold batch_record. by rewrite Hf.
Qed.

(** C10. The loop over the batches leaves a record for exactly the
    identifiers of the batches, each with [loaded] true, whether the fetch of
    its batch succeeded or raised; so the snapshot of a run with a positive
    batch size has a record for exactly the identifiers of the input list.
    The mapping holds one record per identifier by construction. *)
Theorem every_airport_has_a_loaded_record :
  (forall bi batches,
     let out := process_batches prev clock fetch bi batches ∅ in
     (forall icao, icao ∈ concat batches <-> is_Some (out !! icao))
     /\ (forall icao r, out !! icao = Some r -> loaded r = true))
  /\ (forall icao_list,
        (0 < BATCH_SIZE cfg)%Z ->
        exists snap,
          build_status cfg prev clock fetch icao_list = Some snap
          /\ (forall icao,
                icao ∈ icao_list <-> is_Some (airports snap !! icao))
          /\ (forall icao r, airports snap !! icao = Some r -> loaded r = true)).
Proof.
  assert (Hloop : forall bi batches,
            let out := process_batches prev clock fetch bi batches ∅ in
            (forall icao, icao ∈ concat batches <-> is_Some (out !! icao))
            /\ (forall icao r, out !! icao = Some r -> loaded r = true)).
  { intros bi batches out. subst out. split.
    - intros icao. rewrite process_batches_is_Some, lookup_empty.
      split; [auto|]. intros [[? [=]]|]; done.
    - intros icao r Hr.
      apply process_batches_origin in Hr as [Hr|(k & b & _ & _ & ->)].
      + by rewrite lookup_empty in Hr.
      + apply batch_record_loaded. }
  split; [exact Hloop|].
  intros icao_list Hn. destruct (chunk_is_Some icao_list _ Hn) as [bs Hc].
  pose proof (chunk_concat _ _ _ Hn Hc) as Hcat.
  eexists. split; [unfold build_status; by rewrite Hc|]. simpl.
  rewrite <- Hcat. apply Hloop.
Qed.

End SnapshotFacts.

(** *** The worked run *)

(** What the worked run writes: changed, last-change time and hash of the
    airports of the fetched batch.  EPWA had another hash before; EPKK had and
    has no relevant notice; EPGD is seen for the first time, with a notice. *)
Example demo_fetched_batch :
  (fun snap =>
     map (fun k => (fun r => (severity r, changed r, last_change_utc r))
                     <$> airports snap !! py k)
         ["EPWA"; "EPKK"; "EPGD"]%string) <$> demo_snapshot
  = Some [Some (yellow, true, Some (py "2024-01-02T06:00:00Z"));
          Some (green, false, Some (py "2024-01-01T05:00:00Z"));
          Some (red, false, None)].
Proof. by vm_compute. Qed.

(** The scenario of the failed batch: gray, not changed, hashes kept. *)
Example demo_failed_batch :
  (fun snap =>
     map (fun k => (fun r => (severity r, changed r, hash r))
                     <$> airports snap !! py k)
         ["LHBP"; "LHDC"; "LHSM"]%string) <$> demo_snapshot
  = Some [Some (gray, false, Some (py "h1"));
          Some (gray, false, Some (py "h2"));
          Some (gray, false, Some (py "NO_SNOWTAM"))].
Proof. by vm_compute. Qed.

(** A record without relevant notices that is not green: the fetch of its
    batch failed. *)
Lemma failed_fetch_record_is_not_green :
  exists snap r,
    demo_snapshot = Some snap
    /\ airports snap !! py "LHBP" = Some r
    /\ has_snowtam r = false
    /\ severity r = gray
    /\ severity r <> green.
Proof.
  eexists _, _.
  split; [vm_compute; reflexivity|]. split; [vm_compute; reflexivity|].
  split; [vm_compute; reflexivity|]. split; [vm_compute; reflexivity|].
  vm_compute. discriminate.
Qed.

Lemma no_notice_green_unless_fetch_failed_witness :
  exists snap r,
    demo_snapshot = Some snap
    /\ airports snap !! py "EPKK" = Some r
    /\ has_snowtam r = false
    /\ ((error r = None -> severity r = green)
        /\ (error r <> None -> severity r = gray)).
Proof.
  eexists _, _.
  split; [vm_compute; reflexivity|]. split; [vm_compute; reflexivity|].
  split; [vm_compute; reflexivity|].
  eapply (no_notice_green_unless_fetch_failed
            demo_config demo_prev demo_clock demo_fetch demo_airports
            _ (py "EPKK"));
    vm_compute; reflexivity.
Defined.

(** EPKK is not changed and keeps the time the previous snapshot held;
    EPWA is changed and gets the time of the run. *)
Lemma last_change_follows_changed_witness :
  exists snap r r',
    demo_snapshot = Some snap
    /\ (airports snap !! py "EPKK" = Some r
        /\ error r = None
        /\ demo_prev !! py "EPKK"
           = Some (mkPrev (Some (py "NO_SNOWTAM"))
                          (Some (py "2024-01-01T05:00:00Z")))
        /\ changed r = false
        /\ last_change_utc r = Some (py "2024-01-01T05:00:00Z"))
    /\ (airports snap !! py "EPWA" = Some r'
        /\ error r' = None
        /\ demo_prev !! py "EPWA" = Some (mkPrev (Some (py "h0")) None)
        /\ changed r' = true
        /\ last_change_utc r' = Some (py "2024-01-02T06:00:00Z")).
Proof.
  eexists _, _, _.
  split; [vm_compute; reflexivity|]. split.
  - split; [vm_compute; reflexivity|]. split; [vm_compute; reflexivity|].
    split; [vm_compute; reflexivity|]. split; [vm_compute; reflexivity|].
    etransitivity; [|vm_compute; reflexivity].
    refine (proj1 (proj2 (last_change_follows_changed
              demo_config demo_prev demo_clock demo_fetch demo_airports
              _ (py "EPKK") _ _ _ _)) _);
      vm_compute; reflexivity.
  - split; [vm_compute; reflexivity|]. split; [vm_compute; reflexivity|].
    split; [vm_compute; reflexivity|]. split; [vm_compute; reflexivity|].
    etransitivity; [|vm_compute; reflexivity].
    refine (proj1 (last_change_follows_changed
              demo_config demo_prev demo_clock demo_fetch demo_airports
              _ (py "EPWA") _ _ _ _) _);
      vm_compute; reflexivity.
Defined.

(** The failed batch of the worked run: LHBP keeps the hash h1 and the
    last-change time of the previous snapshot. *)
Lemma fetch_failure_degrades_batch_witness :
  let batch := map py ["LHBP"; "LHDC"; "LHSM"]%string in
  demo_fetch 2 batch = Raised (py "ConnectionError") (py "timed out")
  /\ NoDup demo_airports
  /\ chunk demo_airports (BATCH_SIZE demo_config)
     = Some [take 5 demo_airports; batch]
  /\ demo_prev !! py "LHBP"
     = Some (mkPrev (Some (py "h1")) (Some (py "2024-01-01T05:00:00Z")))
  /\ exists snap,
       demo_snapshot = Some snap
       /\ (forall icao, icao ∈ batch ->
           airports snap !! icao
           = Some (degraded_status demo_prev icao
                     (py "ConnectionError: timed out")))
       /\ exists r,
            airports snap !! py "LHBP" = Some r
            /\ severity r = gray /\ changed r = false
            /\ hash r = Some (py "h1")
            /\ last_change_utc r = Some (py "2024-01-01T05:00:00Z")
            /\ error r = Some (py "ConnectionError: timed out").
Proof.
  intros batch.
  assert (Hf : demo_fetch 2 batch
               = Raised (py "ConnectionError") (py "timed out"))
    by reflexivity.
  assert (Hnd : NoDup demo_airports)
    by (refine (bool_decide_unpack _ _); vm_compute; exact I).
  assert (Hc : chunk demo_airports (BATCH_SIZE demo_config)
               = Some [take 5 demo_airports; batch])
    by (vm_compute; reflexivity).
  assert (Hp : demo_prev !! py "LHBP"
               = Some (mkPrev (Some (py "h1"))
                         (Some (py "2024-01-01T05:00:00Z"))))
    by (vm_compute; reflexivity).
  split; [exact Hf|]. split; [exact Hnd|]. split; [exact Hc|].
  split; [exact Hp|].
  destruct (fetch_failure_degrades_batch
              demo_config demo_prev demo_clock demo_fetch 2%nat batch _ _ Hf)
    as (Hrec & _ & Hrun).
  destruct (Hrun demo_airports _ 1%nat Hnd Hc eq_refl eq_refl)
    as (snap & Hb & Hdeg & _).
  exists snap. split; [exact Hb|]. split; [exact Hdeg|].
  eexists. split; [apply Hdeg; by left|].
  destruct (Hrec (py "LHBP")) as (_ & _ & Hg & Hch & _ & _ & Hsome & _ & He & _).
  destruct (Hsome _ Hp) as [Hh Hl].
  split; [exact Hg|]. split; [exact Hch|]. split; [exact Hh|].
  split; [exact Hl|]. exact He.
Defined.

Lemma every_airport_has_a_loaded_record_witness :
  (0 < BATCH_SIZE demo_config)%Z
  /\ exists snap,
       demo_snapshot = Some snap
       /\ (forall icao, icao ∈ demo_airports <-> is_Some (airports snap !! icao))
       /\ (forall icao r, airports snap !! icao = Some r -> loaded r = true).
Proof.
  assert (Hn : (0 < BATCH_SIZE demo_config)%Z) by (vm_compute; reflexivity).
  split; [exact Hn|].
  exact (proj2 (every_airport_has_a_loaded_record
                  demo_config demo_prev demo_clock demo_fetch)
               demo_airports Hn).
Defined.

(** With a negative batch size [chunk] yields no batch and the snapshot has
    no airport; with a zero batch size [range] raises. *)
Example negative_batch_size_empty_snapshot :
  airports <$> build_status (mkConfig (-1) 30 1 90) demo_prev demo_clock
                            demo_fetch demo_airports
  = Some ∅.
Proof. by vm_compute. Qed.

Example zero_batch_size_raises :
  build_status (mkConfig 0 30 1 90) demo_prev demo_clock demo_fetch
               demo_airports
  = None.
Proof. reflexivity. Qed.

(** The airport list read from a file with blank, short and repeated lines. *)
Example demo_read_airport_list :
  read_airport_list
    (map py ["epwa"; " EPKK "; ""; "EPWA"; "EP-K"; "EPGDX"; "epgd"]%string)
  = map py ["EPWA"; "EPKK"; "EPGD"]%string.
Proof. by vm_compute. Qed.

(** ** More about the scorer and the classifier *)

Section MoreScorer.
Context `{rt : PyRuntime}.

(** The scorer, rule by rule. *)
Lemma severity_from_text_rules t :
  (found RUNWAY_CLOSED_RE t = true
   /\ severity_from_text t = (red, mkEvidence None None true []))
  \/ (found RUNWAY_CLOSED_RE t = false
      /\ extract_rwycc_values t <> []
      /\ severity_from_text t
         = (if (list_min (extract_rwycc_values t) <=? 1)%Z then red
            else if (list_min (extract_rwycc_values t) <=? 3)%Z then orange
            else yellow,
            mkEvidence (Some (extract_rwycc_values t)) None false []))
  \/ (found RUNWAY_CLOSED_RE t = false
      /\ extract_rwycc_values t = []
      /\ exists b, braking_word t = Some b
         /\ (b = py "POOR" \/ b = py "MEDIUM" \/ b = py "GOOD")
         /\ severity_from_text t
            = (if text_eqb b (py "POOR") then red
               else if text_eqb b (py "MEDIUM") then orange else yellow,
               mkEvidence None (Some b) false []))
  \/ (found RUNWAY_CLOSED_RE t = false
      /\ extract_rwycc_values t = []
      /\ (forall b, braking_word t = Some b ->
          b <> py "POOR" /\ b <> py "MEDIUM" /\ b <> py "GOOD")
      /\ severity_from_text t
         = keyword_fallback t (mkEvidence None (braking_word t) false [])).
Proof.
  unfold severity_from_text, braking_word.
  destruct (found RUNWAY_CLOSED_RE t); [by left|]. right.
  destruct (extract_rwycc_values t) as [|v rw] eqn:Erw.
  - right. destruct (search BRAKING_RE t) as [bm|].
    + set (b := str_upper (group_str bm 2)).
      destruct (text_eqb b (py "POOR")) eqn:E1.
      { left. split; [done|]. split; [done|]. exists b.
        rewrite E1. apply text_eqb_eq in E1. split; [done|]. split; [by left | done]. }
      destruct (text_eqb b (py "MEDIUM")) eqn:E2.
      { left. split; [done|]. split; [done|]. exists b.
        rewrite E1, E2. apply text_eqb_eq in E2. split; [done|]. split; [by right; left | done]. }
      destruct (text_eqb b (py "GOOD")) eqn:E3.
      { left. split; [done|]. split; [done|]. exists b.
        rewrite E1, E2. apply text_eqb_eq in E3. split; [done|]. split; [by right; right | done]. }
      right. split; [done|]. split; [done|]. split; [|done].
      intros b' [= <-]. repeat split; intros Hb; apply text_eqb_eq in Hb;
        congruence.
    + right. split; [done|]. split; [done|]. split; [|done]. by intros b [=].
  - left. split; [done|]. split; [discriminate|].
    by repeat destruct (_ <=? _)%Z.
Qed.


Lemma keyword_fallback_fst t ev :
  fst (keyword_fallback t ev) = red \/ fst (keyword_fallback t ev) = orange
  \/ fst (keyword_fallback t ev) = yellow.
Proof.
  unfold keyword_fallback. destruct (found POOR_RE t); [by left|].
  destruct (found MEDIUM_RE t); [by right; left | by right; right].
Qed.

Lemma keyword_fallback_snd t ev :
  snd (keyword_fallback t ev)
  = mkEvidence (ev_rwycc ev) (ev_braking ev) (ev_closed ev)
      (map py (List.filter (fun k => found (word_re k) t) KEYWORDS)).
Proof.
  unfold keyword_fallback. by destruct (found POOR_RE t), (found MEDIUM_RE t).
Qed.

(** The score is never green or gray. *)
Lemma severity_from_text_warm t : (1 <= order (fst (severity_from_text t)))%Z.
Proof.
  destruct (severity_from_text_rules t)
    as [[_ ->]|[(_ & _ & ->)|[(_ & _ & b & _ & _ & ->)|(_ & _ & _ & ->)]]];
    simpl.
  - lia.
  - by repeat destruct (_ <=? _)%Z.
  - by repeat destruct (text_eqb _ _).
  - by destruct (keyword_fallback_fst t (mkEvidence None (braking_word t) false []))
      as [->|[->| ->]].
Qed.

(** X1. With no closure match and no codes, the braking word read off the
    text is kept as evidence; POOR scores red, MEDIUM orange and GOOD yellow
    with no keywords gathered, and any other word leaves the score to the
    keyword fallback. *)
Theorem braking_word_decides t b :
  ~ Occurs RUNWAY_CLOSED_RE t ->
  extract_rwycc_values t = [] ->
  braking_word t = Some b ->
  ev_braking (snd (severity_from_text t)) = Some b
  /\ (b = py "POOR" ->
      severity_from_text t = (red, mkEvidence None (Some b) false []))
  /\ (b = py "MEDIUM" ->
      severity_from_text t = (orange, mkEvidence None (Some b) false []))
  /\ (b = py "GOOD" ->
      severity_from_text t = (yellow, mkEvidence None (Some b) false []))
  /\ (b <> py "POOR" -> b <> py "MEDIUM" -> b <> py "GOOD" ->
      severity_from_text t
      = keyword_fallback t (mkEvidence None (Some b) false [])).
Proof.
  intros Hc Hrw Hb. apply not_found_iff in Hc.
  destruct (severity_from_text_rules t)
    as [[Hc' _]|[(_ & Hrw' & _)|[(_ & _ & b' & Hb' & Hin & Hs)
                                |(_ & _ & Hout & Hs)]]];
    [congruence | congruence | |].
  - assert (b' = b) as -> by congruence. rewrite Hs. simpl.
    split; [done|].
    repeat split; intros; subst; try done;
      destruct Hin as [->|[->| ->]]; done.
  - rewrite Hs, Hb. rewrite keyword_fallback_snd. simpl. split; [done|].
    destruct (Hout b Hb) as (H1 & H2 & H3). repeat split; intros; done.
Qed.

(** X2. The evidence names one rule.  [closed] is set exactly when the
    closure pattern matches, and then nothing else is; codes are stored
    exactly when there is no closure match and some code is extracted, and
    then they are the extracted list, with no braking word and no keyword;
    keywords are gathered only when neither closure nor codes decided. *)
Theorem evidence_names_one_rule t :
  let ev := snd (severity_from_text t) in
  (ev_closed ev = true <-> Occurs RUNWAY_CLOSED_RE t)
  /\ (ev_closed ev = true ->
      ev_rwycc ev = None /\ ev_braking ev = None /\ ev_keywords ev = [])
  /\ (forall rw, ev_rwycc ev = Some rw <->
        ~ Occurs RUNWAY_CLOSED_RE t /\ rw <> []
        /\ extract_rwycc_values t = rw)
  /\ (forall rw, ev_rwycc ev = Some rw ->
        ev_braking ev = None /\ ev_keywords ev = [])
  /\ (ev_keywords ev <> [] -> ev_closed ev = false /\ ev_rwycc ev = None).
Proof.
  intros ev. subst ev.
  pose proof (found_iff_Occurs RUNWAY_CLOSED_RE t) as Hy.
  pose proof (not_found_iff RUNWAY_CLOSED_RE t) as Hn.
  destruct (severity_from_text_rules t)
    as [[Hc ->]|[(Hc & Hrw & ->)|[(Hc & Hrw & b & _ & _ & ->)
                                |(Hc & Hrw & _ & ->)]]];
    rewrite ?keyword_fallback_snd; simpl;
    [apply Hy in Hc | apply Hn in Hc..]; split_and!; naive_solver.
Qed.

(** X3. Every keyword in the evidence is one of the script's nine keywords
    and occurs in the text as a word of its own; the keywords come in the
    order of the script's list; in the keyword fallback every keyword that
    occurs is listed. *)
Theorem keywords_are_words_of_the_text t :
  let kws := ev_keywords (snd (severity_from_text t)) in
  (forall k, In k kws ->
     exists w, In w KEYWORDS /\ k = py w /\ Occurs (word_re w) t)
  /\ sublist kws (map py KEYWORDS)
  /\ (in_keyword_fallback t ->
      forall w, In w KEYWORDS -> Occurs (word_re w) t -> In (py w) kws).
Proof.
  intros kws.
  assert (Hfb : forall l,
            (forall k, In k (map py (List.filter (fun k => found (word_re k) t) l)) ->
               exists w, In w l /\ k = py w /\ Occurs (word_re w) t)
            /\ sublist (map py (List.filter (fun k => found (word_re k) t) l))
                       (map py l)
            /\ (forall w, In w l -> Occurs (word_re w) t ->
                In (py w) (map py (List.filter (fun k => found (word_re k) t) l)))).
  { intros l. split; [|split].
    - intros k Hk. apply in_map_iff in Hk as (w & <- & Hw).
      apply filter_In in Hw as [Hw Hf]. exists w.
      split; [done|]. split; [done|]. by apply found_iff_Occurs.
    - induction l as [|w l IH]; simpl; [constructor|].
      destruct (found (word_re w) t); simpl;
        [by apply sublist_skip | by apply sublist_cons].
    - intros w Hw Ho. apply in_map, filter_In. split; [done|].
      by apply found_iff_Occurs. }
  destruct (Hfb KEYWORDS) as (H1 & H2 & H3).
  assert (Hnil : sublist [] (map py KEYWORDS)) by apply sublist_nil_l.
  subst kws.
  destruct (severity_from_text_rules t)
    as [[Hc Hs]|[(Hc & Hrw & Hs)|[(Hc & Hrw & b & Hb & Hin & Hs)
                                |(Hc & Hrw & Hout & Hs)]]];
    rewrite Hs, ?keyword_fallback_snd; simpl.
  - split; [done|]. split; [done|]. intros (Hn & _). apply not_found_iff in Hn.
    congruence.
  - split; [done|]. split; [done|]. intros (_ & Hn & _). congruence.
  - split; [done|]. split; [done|]. intros (_ & _ & Hn).
    destruct (Hn b Hb) as (? & ? & ?). destruct Hin as [?|[?|?]]; done.
  - split; [exact H1|]. split; [exact H2|]. intros _. exact H3.
Qed.


(** *** Counting the codes *)

Lemma ndig_app (m1 m2 : text) :
  length (List.filter is_digit (m1 ++ m2))
  = (length (List.filter is_digit m1) + length (List.filter is_digit m2))%nat.
Proof. by rewrite List.filter_app, length_app. Qed.

Lemma no_digit_run (p : N -> bool) (m : text) :
  (forall c, p c = true -> is_digit c = false) ->
  Forall (fun c => p c = true) m -> List.filter is_digit m = [].
Proof.
  intros Hp. induction 1 as [|c m Hc _ IH]; simpl; [done|].
  by rewrite (Hp c Hc).
Qed.

Lemma space_not_digit c : is_space c = true -> is_digit c = false.
Proof.
  unfold is_space, is_digit. intros Hs.
  destruct (N.leb_spec 48 c), (N.leb_spec c 57); simpl; try done.
  repeat (apply orb_prop in Hs as [Hs|Hs]);
    repeat (apply andb_prop in Hs as [? ?]);
    repeat match goal with
           | H : (_ <=? _) = true |- _ => apply N.leb_le in H
           | H : (_ =? _) = true |- _ => apply N.eqb_eq in H
           end; lia.
Qed.

Lemma sep_not_digit c : slash_or_space c = true -> is_digit c = false.
Proof.
  unfold slash_or_space. intros Hs. apply orb_prop in Hs as [Hs|Hs].
  - apply N.eqb_eq in Hs as ->. reflexivity.
  - by apply space_not_digit.
Qed.

Lemma Upto_digits r k :
  (forall b m a, Matches r b m a -> (length (List.filter is_digit m) <= k)%nat) ->
  forall n b m a, Matches (Upto n r) b m a ->
    (length (List.filter is_digit m) <= n * k)%nat.
Proof.
  intros Hr. induction n as [|n IH]; intros b m a HM; inversion HM; subst;
    simpl; try lia.
  rewrite ndig_app.
  match goal with
  | H1 : Matches r _ _ _, H2 : Matches (Upto n r) _ _ _ |- _ =>
      apply Hr in H1; apply IH in H2; lia
  end.
Qed.

(** Group 1 of [RWYCC_RE] holds at most six digits. *)
Lemma rwycc_group_digits t m :
  search RWYCC_RE t = Some m ->
  (length (List.filter is_digit (group_str m 1)) <= 6)%nat.
Proof.
  intros Hs. apply search_from_Some in Hs as (pre & rest & _ & Hin).
  unfold RWYCC_RE in Hin. apply in_run_Seq in Hin as (st1 & _ & Hin).
  apply run_Grp in Hin as (raw & _ & HM & Hg).
  unfold group_str. rewrite Hg. simpl.
  inversion HM as [| | |? ? ? m1 m2 ? H1 H2| | | | | |]; subst.
  rewrite ndig_app.
  assert (length (List.filter is_digit m1) <= 1)%nat.
  { inversion H1; subst. simpl. destruct (is_digit c); simpl; lia. }
  assert (length (List.filter is_digit m2) <= 5 * 1)%nat; [|lia].
  eapply Upto_digits; [|exact H2].
  clear. intros b m a HM.
  inversion HM as [| | |? ? ? m123 m4 ? H123 H4| | | | | |]; subst.
  inversion H123 as [| | |? ? ? m12 m3 ? H12 H3| | | | | |]; subst.
  inversion H12 as [| | |? ? ? m1 m2 ? H1 H2| | | | | |]; subst.
  inversion H1; inversion H2; inversion H3; inversion H4; subst.
  rewrite !ndig_app.
  rewrite (no_digit_run is_space m1), (no_digit_run is_space m3);
    auto using space_not_digit.
  simpl. match goal with H : slash_or_space _ = true |- _ =>
                 rewrite (sep_not_digit _ H) end.
  simpl. destruct (is_digit _); simpl; lia.
Qed.

Lemma filter_length_rev (p : N -> bool) (l : text) :
  length (List.filter p (rev l)) = length (List.filter p l).
Proof.
  induction l as [|c l IH]; simpl; [done|].
  rewrite List.filter_app, length_app, IH. simpl.
  destruct (p c); simpl; lia.
Qed.

Lemma drop_spaces_digits s :
  (length (List.filter is_digit (drop_spaces s))
   <= length (List.filter is_digit s))%nat.
Proof.
  induction s as [|c s IH]; simpl; [done|].
  destruct (is_space c) eqn:Hs; [|done].
  rewrite (space_not_digit c Hs). exact IH.
Qed.

Lemma strip_digits s :
  (length (List.filter is_digit (strip s))
   <= length (List.filter is_digit s))%nat.
Proof.
  unfold strip. rewrite filter_length_rev.
  etransitivity; [apply drop_spaces_digits|]. rewrite filter_length_rev.
  apply drop_spaces_digits.
Qed.

(** The pieces that pass [isdigit] are no more than the characters that are
    not separators. *)
Lemma split_runs_count sep s : forall in_sep cur,
  (length (List.filter isdigit (split_runs sep in_sep cur s))
   <= length cur + length (List.filter (fun c => negb (sep c)) s))%nat.
Proof.
  assert (Hone : forall cur : text,
            (length (List.filter isdigit [rev cur]) <= length cur)%nat).
  { intros cur. simpl. destruct (isdigit (rev cur)) eqn:E; simpl; [|lia].
    destruct cur as [|c cur]; [done | simpl; lia]. }
  induction s as [|c s IH]; intros in_sep cur; simpl.
  - specialize (Hone cur). simpl in Hone. lia.
  - destruct (sep c); simpl.
    + destruct in_sep; [apply IH|].
      specialize (Hone cur). specialize (IH true []). simpl in *.
      destruct (isdigit (rev cur)); simpl in *; lia.
    + specialize (IH false (c :: cur)). simpl in IH. lia.
Qed.

Lemma filter_length_le {A} (p : A -> bool) (l : list A) :
  (length (List.filter p l) <= length l)%nat.
Proof. induction l as [|x l IH]; simpl; [done|]. destruct (p x); simpl; lia. Qed.

Lemma nonsep_are_digits (s : text) :
  Forall digit_or_sep s ->
  (length (List.filter (fun c => negb (slash_or_space c)) s)
   <= length (List.filter is_digit s))%nat.
Proof.
  induction 1 as [|c s Hc _ IH]; simpl; [done|].
  destruct Hc as [Hd|Hsep].
  - rewrite Hd. destruct (negb _); simpl; lia.
  - rewrite Hsep, (sep_not_digit c Hsep). simpl. exact IH.
Qed.

(** X4. [extract_rwycc_values] returns at most six codes, and none when the
    marker pattern matches nowhere. *)
Theorem at_most_six_codes t :
  (length (extract_rwycc_values t) <= 6)%nat
  /\ (~ Occurs RWYCC_RE t -> extract_rwycc_values t = []).
Proof.
  split.
  - unfold extract_rwycc_values.
    destruct (search RWYCC_RE t) as [m|] eqn:Hs; [|simpl; lia].
    etransitivity; [apply filter_length_le|]. rewrite length_map.
    etransitivity; [apply split_runs_count|]. simpl.
    destruct (rwycc_group_chars t m Hs) as (raw & Hg & Hraw).
    etransitivity; [apply nonsep_are_digits|].
    { apply strip_Forall. unfold group_str. by rewrite Hg. }
    etransitivity; [apply strip_digits|]. by apply rwycc_group_digits with t.
  - intros Hn. apply not_found_iff in Hn. unfold found in Hn.
    unfold extract_rwycc_values. by destruct (search RWYCC_RE t).
Qed.


(** *** Words that settle relevance *)

Lemma Occurs_mono r1 r2 t :
  (forall b m a, Matches r1 b m a -> Matches r2 b m a) ->
  Occurs r1 t -> Occurs r2 t.
Proof. intros Hr (pre & mid & post & -> & HM). exists pre, mid, post. auto. Qed.

Lemma M_Seq' a b behind m1 m2 m ahead ahead1 behind2 :
  m = m1 ++ m2 -> ahead1 = m2 ++ ahead -> behind2 = rev m1 ++ behind ->
  Matches a behind m1 ahead1 -> Matches b behind2 m2 ahead ->
  Matches (Seq a b) behind m ahead.
Proof. intros -> -> ->. apply M_Seq. Qed.

Lemma Matches_Seq_inv a b behind m ahead :
  Matches (Seq a b) behind m ahead ->
  exists m1 m2, m = m1 ++ m2 /\ Matches a behind m1 (m2 ++ ahead)
                /\ Matches b (rev m1 ++ behind) m2 ahead.
Proof. intros HM. inversion HM; subst. eauto. Qed.

Lemma Matches_Bnd_inv behind m ahead :
  Matches Bnd behind m ahead -> m = [] /\ at_boundary behind ahead = true.
Proof. intros HM. by inversion HM. Qed.

(** A word pattern, taken apart. *)
Lemma Matches_word_inv k behind m ahead :
  Matches (word_re k) behind m ahead <->
  at_boundary behind (m ++ ahead) = true
  /\ Matches (lit k) behind m ahead
  /\ at_boundary (rev m ++ behind) ahead = true.
Proof.
  unfold word_re. split.
  - intros HM. apply Matches_Seq_inv in HM as (m12 & m3 & -> & H12 & H3).
    apply Matches_Bnd_inv in H3 as [-> H3].
    apply Matches_Seq_inv in H12 as (m1 & m2 & -> & H1 & H2).
    apply Matches_Bnd_inv in H1 as [-> H1]. simpl in *.
    rewrite !app_nil_r in *. done.
  - intros (H1 & H2 & H3).
    eapply (M_Seq' _ _ _ m []); [by rewrite app_nil_r | done | done | |
                                 by constructor].
    eapply (M_Seq' _ _ _ [] m); [done | done | done | by constructor | done].
Qed.

(** A word of the vocabulary is a match of the vocabulary pattern when it is
    one of its alternatives. *)
Lemma word_in_group k X i t :
  (forall b m a, Matches (lit k) b m a -> Matches X b m a) ->
  Occurs (word_re k) t -> Occurs (Seq (Seq Bnd (Grp i X)) Bnd) t.
Proof.
  intros HX. apply Occurs_mono. intros b m a HM.
  apply Matches_word_inv in HM as (H1 & H2 & H3).
  eapply (M_Seq' _ _ _ m []); [by rewrite app_nil_r | done | done | |
                               by constructor].
  eapply (M_Seq' _ _ _ [] m); [done | done | done | by constructor |].
  constructor. by apply HX.
Qed.

Lemma Matches_lits_app c1 : forall c2 b m a,
  Matches (lits (c1 ++ c2)) b m a ->
  exists m1 m2, m = m1 ++ m2 /\ Matches (lits c1) b m1 (m2 ++ a)
                /\ Matches (lits c2) (rev m1 ++ b) m2 a.
Proof.
  induction c1 as [|c c1 IH]; intros c2 b m a HM; simpl in *.
  - exists [], m. split; [done|]. split; [constructor | done].
  - apply Matches_Seq_inv in HM as (m1 & m2 & -> & H1 & H2).
    apply IH in H2 as (m3 & m4 & -> & H3 & H4).
    exists (m1 ++ m3), m4. split; [by rewrite app_assoc|]. split.
    + eapply M_Seq'; [done | | done | exact H1 | exact H3].
      by rewrite app_assoc.
    + by rewrite rev_app_distr, <- app_assoc.
Qed.

Lemma Matches_Opt_intro r b m a : Matches r b m a -> Matches (Opt r) b m a.
Proof.
  intros HM. unfold Opt. rewrite <- (app_nil_r m).
  apply M_UptoS; [exact HM | apply M_UptoO].
Qed.

Lemma hint_of_SNOWTAM t :
  Occurs (word_re "SNOWTAM") t -> Occurs SNOW_HINT_RE t.
Proof.
  apply word_in_group. intros b m a HM. do 11 apply M_AltL. exact HM.
Qed.

Lemma hint_of_RWYCC t : Occurs (word_re "RWYCC") t -> Occurs SNOW_HINT_RE t.
Proof.
  apply word_in_group. intros b m a HM. do 10 apply M_AltL. apply M_AltR.
  exact HM.
Qed.

Lemma hint_of_BRAKING t :
  Occurs (word_re "BRAKING") t -> Occurs SNOW_HINT_RE t.
Proof.
  apply word_in_group. intros b m a HM. do 8 apply M_AltL. apply M_AltR.
  exact HM.
Qed.

Lemma context_of_BRAKING t :
  Occurs (word_re "BRAKING") t -> Occurs CONTEXT_RE t.
Proof.
  apply Occurs_mono. intros b m a HM. apply M_AltL, M_AltR. exact HM.
Qed.

Lemma context_of_RWYCC t : Occurs (word_re "RWYCC") t -> Occurs CONTEXT_RE t.
Proof.
  apply Occurs_mono. intros b m a HM. do 2 apply M_AltL. apply M_AltR.
  apply Matches_word_inv in HM as (H1 & H2 & H3).
  change (lit "RWYCC") with (lits (py "R" ++ py "WYCC")) in H2.
  apply Matches_lits_app in H2 as (mR & mX & -> & HR & HX).
  change (py "WYCC") with (py "WY" ++ py "CC") in HX.
  apply Matches_lits_app in HX as (mWY & mCC & -> & HWY & HCC).
  eapply (M_Seq' _ _ _ (mR ++ mWY ++ mCC) []);
    [by rewrite app_nil_r | done | done | | by constructor].
  eapply (M_Seq' _ _ _ (mR ++ mWY) mCC);
    [by rewrite app_assoc | done | done | |].
  - eapply (M_Seq' _ _ _ mR mWY); [done | done | done | |].
    + eapply (M_Seq' _ _ _ [] mR); [done | done | done | |].
      * constructor. by rewrite <- !app_assoc in *.
      * simpl. by rewrite <- !app_assoc in *.
    + apply Matches_Opt_intro. exact HWY.
  - by rewrite rev_app_distr, <- !app_assoc in *.
Qed.

(** X5. A notice whose text holds the word SNOWTAM, RWYCC or BRAKING as a
    word of its own is kept, whatever else it holds. *)
Theorem explicit_word_is_relevant t :
  Occurs (word_re "SNOWTAM") t \/ Occurs (word_re "RWYCC") t
  \/ Occurs (word_re "BRAKING") t ->
  is_snowtam_like t = true.
Proof.
  intros H. apply is_snowtam_like_iff. destruct H as [H|[H|H]].
  - split; [by apply hint_of_SNOWTAM | by right].
  - split; [by apply hint_of_RWYCC | left; by apply context_of_RWYCC].
  - split; [by apply hint_of_BRAKING | left; by apply context_of_BRAKING].
Qed.


(** *** The braking phrase in an ASCII text *)

Lemma ci_upper_ascii p x :
  is_upper_az p = true -> x < 128 -> ci p x = true ->
  demo_upper_char x = [p].
Proof.
  unfold ci, demo_upper_char, lower_az, is_upper_az, is_lower_az.
  intros Hp Hx. rewrite Hp. simpl.
  apply andb_prop in Hp as [H1 H2]. apply N.leb_le in H1, H2.
  intros Hc.
  repeat (apply orb_prop in Hc as [Hc|Hc]);
    repeat (apply andb_prop in Hc as [? Hc]);
    repeat (apply orb_prop in Hc as [Hc|Hc]);
    apply N.eqb_eq in Hc; subst x; try lia.
  - replace (97 <=? p + 32) with true by (symmetry; apply N.leb_le; lia).
    replace (p + 32 <=? 122) with true by (symmetry; apply N.leb_le; lia).
    simpl. f_equal. lia.
  - replace (p + 32 - 32) with p by lia.
    replace (p <=? 122) with true by (symmetry; apply N.leb_le; lia).
    replace (97 <=? p) with false by (symmetry; apply N.leb_gt; lia).
    simpl.
    repeat match goal with
           | |- context [p =? ?n] =>
               replace (p =? n) with false by (symmetry; apply N.eqb_neq; lia)
           | |- context [?n <=? p] =>
               replace (n <=? p) with false by (symmetry; apply N.leb_gt; lia)
           end.
    done.
Qed.

(** An ASCII match of an upper-case literal, upper-cased, is the literal. *)
Lemma lits_upper_ascii cs :
  Forall (fun c => is_upper_az c = true) cs ->
  forall b w a, Matches (lits cs) b w a ->
    Forall (fun c => c < 128) w -> demo_upper w = cs.
Proof.
  induction 1 as [|c cs Hc _ IH]; intros b w a HM Hw; simpl in HM.
  - by inversion HM.
  - apply Matches_Seq_inv in HM as (m1 & m2 & -> & H1 & H2).
    inversion H1; subst. apply Forall_app in Hw as [Hx Hw].
    inversion Hx; subst. unfold demo_upper. simpl.
    rewrite (ci_upper_ascii c c0) by done. simpl. f_equal.
    by apply (IH _ _ _ H2).
Qed.

(** The braking word of an ASCII text is one of the three words. *)
Lemma braking_word_ascii t b :
  ascii_faithful rt -> is_ascii t = true ->
  braking_word t = Some b ->
  b = py "GOOD" \/ b = py "MEDIUM" \/ b = py "POOR".
Proof.
  intros [_ Hup] Ht. unfold braking_word.
  destruct (search BRAKING_RE t) as [bm|] eqn:Hs; [|done]. intros [= <-].
  assert (Hlt : Forall (fun c => c < 128) t).
  { apply Forall_forall. intros c Hc. apply N.ltb_lt.
    unfold is_ascii in Ht. rewrite forallb_forall in Ht. by apply Ht. }
  apply search_from_Some in Hs as (pre & rest & -> & Hin).
  unfold BRAKING_RE in Hin. apply in_run_Seq in Hin as (st2 & Hin & Hb).
  apply in_run_Bnd in Hb as ->. apply in_run_Seq in Hin as (st1 & H1 & Hin).
  apply run_sound in H1 as (m1 & [Ht1 _] & _).
  apply run_Grp in Hin as (w & [Htw _] & HM & Hg).
  unfold group_str. rewrite Hg. simpl in *.
  assert (Hw : Forall (fun c => c < 128) w).
  { apply Forall_app in Hlt as [_ Hrest]. rewrite Ht1 in Hrest.
    apply Forall_app in Hrest as [_ Hrest]. rewrite Htw in Hrest.
    by apply Forall_app in Hrest as [Hw _]. }
  rewrite Hup.
  2: { unfold is_ascii. apply forallb_forall. intros c Hc. apply N.ltb_lt.
       rewrite Forall_forall in Hw. by apply Hw. }
  assert (Hu : forall s b a, Forall (fun c => is_upper_az c = true) (py s) ->
            Matches (lit s) b w a -> demo_upper w = py s).
  { intros s b a Hs HMs. by apply (lits_upper_ascii (py s) Hs _ _ _ HMs). }
  inversion HM as [| | | |? ? ? ? ? HL|? ? ? ? ? HR| | | |]; subst.
  - inversion HL as [| | | |? ? ? ? ? HL'|? ? ? ? ? HR'| | | |]; subst.
    + left. eapply Hu; [|done]. by repeat constructor.
    + right; left. eapply Hu; [|done]. by repeat constructor.
  - right; right. eapply Hu; [|done]. by repeat constructor.
Qed.

(** X6. In an ASCII text, under a runtime with CPython's ASCII tables, a
    braking phrase that is reached (no closure match, no codes) always
    decides the score: its word, upper-cased, is POOR, MEDIUM or GOOD, the
    score is red, orange or yellow accordingly, and no keyword is gathered. *)
Theorem ascii_braking_phrase_decides t :
  ascii_faithful rt -> is_ascii t = true ->
  ~ Occurs RUNWAY_CLOSED_RE t ->
  extract_rwycc_values t = [] ->
  Occurs BRAKING_RE t ->
  exists b,
    braking_word t = Some b
    /\ (b = py "POOR" \/ b = py "MEDIUM" \/ b = py "GOOD")
    /\ severity_from_text t
       = (if text_eqb b (py "POOR") then red
          else if text_eqb b (py "MEDIUM") then orange else yellow,
          mkEvidence None (Some b) false []).
Proof.
  intros Hf Ht Hc Hrw Hb. apply not_found_iff in Hc.
  apply found_iff_Occurs in Hb. unfold found in Hb.
  destruct (braking_word t) as [b|] eqn:Eb.
  2: { unfold braking_word in Eb. by destruct (search BRAKING_RE t). }
  pose proof (braking_word_ascii t b Hf Ht Eb) as H3.
  destruct (severity_from_text_rules t)
    as [[Hc' _]|[(_ & Hrw' & _)|[(_ & _ & b' & Hb' & Hin & Hs)
                                |(_ & _ & Hout & _)]]];
    [congruence | congruence | |].
  - rewrite Eb in Hb'. injection Hb' as <-. exists b. by split_and!.
  - rewrite Eb in Hout. destruct (Hout b eq_refl) as (? & ? & ?).
    destruct H3 as [?|[?|?]]; done.
Qed.

End MoreScorer.

(** ** More about the snapshot *)

(** ** Batches *)

Section Batches.
Context {A : Type}.

Lemma range0_lookup stop step k i :
  range0 stop step !! k = Some i ->
  (i = k * step /\ k < (stop + step - 1) / step)%nat.
Proof.
  unfold range0. rewrite list_lookup_fmap. intros H.
  destruct (seq 0 _ !! k) as [j|] eqn:Hj; [|done]. simpl in H.
  apply lookup_seq in Hj as [-> Hlt]. injection H as <-. split; [done|lia].
Qed.

Lemma div_up_lt stop step k :
  (0 < step)%nat -> (k < (stop + step - 1) / step)%nat -> (k * step < stop)%nat.
Proof.
  intros Hs Hk.
  assert (H : (S k * step <= stop + step - 1)%nat).
  { transitivity (((stop + step - 1) / step) * step)%nat.
    - apply Nat.mul_le_mono_r. lia.
    - rewrite Nat.mul_comm. apply Nat.Div0.mul_div_le. }
  simpl in H. lia.
Qed.

Lemma chunk_lookup (lst : list A) (n : Z) bs k b :
  (0 < n)%Z -> chunk lst n = Some bs -> bs !! k = Some b ->
  b = firstn (Z.to_nat n) (skipn (k * Z.to_nat n) lst)
  /\ (k * Z.to_nat n < length lst)%nat.
Proof.
  intros Hn. unfold chunk.
  destruct (Z.eqb_spec n 0); [lia|]. destruct (Z.ltb_spec n 0); [lia|].
  intros [= <-]. rewrite list_lookup_fmap. intros Hb.
  destruct (range0 _ _ !! k) as [i|] eqn:Hi; [|done]. simpl in Hb.
  injection Hb as <-. apply range0_lookup in Hi as [-> Hk]. split; [done|].
  apply div_up_lt; [lia | done].
Qed.

Lemma chunk_length (lst : list A) (n : Z) bs :
  (0 < n)%Z -> chunk lst n = Some bs ->
  length bs = ((length lst + Z.to_nat n - 1) / Z.to_nat n)%nat.
Proof.
  intros Hn. unfold chunk.
  destruct (Z.eqb_spec n 0); [lia|]. destruct (Z.ltb_spec n 0); [lia|].
  intros [= <-]. unfold range0. by rewrite !length_map, length_seq.
Qed.

(** X7. [chunk] with a positive size cuts the list into consecutive
    batches: put together they are the list, none is empty, none is longer
    than the size, and every batch but the last has exactly the size. *)
Theorem chunk_batches (lst : list A) (n : Z) bs :
  (0 < n)%Z -> chunk lst n = Some bs ->
  concat bs = lst
  /\ (forall k b, bs !! k = Some b ->
        b <> []
        /\ (length b <= Z.to_nat n)%nat
        /\ (S k < length bs -> length b = Z.to_nat n)%nat
        /\ b = firstn (Z.to_nat n) (skipn (k * Z.to_nat n) lst)).
Proof.
  intros Hn Hc. split; [by apply (chunk_concat lst n)|].
  intros k b Hb. pose proof (chunk_length _ _ _ Hn Hc) as Hlen.
  destruct (chunk_lookup _ _ _ _ _ Hn Hc Hb) as [-> Hk].
  split_and!; [| |intros Hlast|done].
  - intros H. apply (f_equal length) in H. revert H.
    rewrite length_firstn, length_skipn. simpl. lia.
  - rewrite length_firstn. lia.
  - rewrite length_firstn, length_skipn. rewrite Hlen in Hlast.
    apply div_up_lt in Hlast; [|lia]. simpl in Hlast. lia.
Qed.

End Batches.

(** ** The calls of the fetcher *)

Section Calls.
Context `{rt : PyRuntime}.
Variable cfg : Config.
Variable prev : gmap text PrevRecord.
Variable clock : Clock.

Lemma process_batches_ext fetch1 fetch2 bs : forall bi out,
  (forall k b, bs !! k = Some b -> fetch1 (bi + k)%nat b = fetch2 (bi + k)%nat b) ->
  process_batches prev clock fetch1 bi bs out
  = process_batches prev clock fetch2 bi bs out.
Proof.
  induction bs as [|b bs IH]; intros bi out Hag; simpl; [done|].
  assert (Hb : process_batch prev clock fetch1 bi b out
               = process_batch prev clock fetch2 bi b out).
  { unfold process_batch. specialize (Hag 0%nat b eq_refl).
    rewrite Nat.add_0_r in Hag. by rewrite Hag. }
  rewrite Hb. apply IH. intros k b' Hk.
  replace (S bi + k)%nat with (bi + S k)%nat by lia. by apply Hag.
Qed.

(** X8. [build_status] asks the fetcher only about batches that are not
    empty, hold at most [BATCH_SIZE] codes, all of them from the list, and
    numbers its calls from 1: two fetchers that agree on such calls give the
    same snapshot. *)
Theorem fetcher_called_on_batches_only fetch1 fetch2 icao_list :
  (forall bi b,
     (1 <= bi)%nat -> b <> [] ->
     (Z.of_nat (length b) <= BATCH_SIZE cfg)%Z ->
     (forall c, c ∈ b -> c ∈ icao_list) ->
     fetch1 bi b = fetch2 bi b) ->
  build_status cfg prev clock fetch1 icao_list
  = build_status cfg prev clock fetch2 icao_list.
Proof.
  intros Hag. unfold build_status.
  destruct (chunk icao_list (BATCH_SIZE cfg)) as [bs|] eqn:Hc; [|done].
  do 2 f_equal. apply process_batches_ext. intros k b Hb.
  destruct (Z.ltb_spec 0 (BATCH_SIZE cfg)) as [Hn|Hn].
  - pose proof (chunk_concat _ _ _ Hn Hc) as Hcat.
    destruct (chunk_lookup _ _ _ _ _ Hn Hc Hb) as [Hbk Hk].
    assert (Hlen : (0 < length b <= Z.to_nat (BATCH_SIZE cfg))%nat).
    { rewrite Hbk, length_firstn, length_skipn. lia. }
    apply Hag; [lia | by destruct b; [simpl in Hlen; lia|] | lia |].
    intros c Hin. rewrite <- Hcat. apply list_elem_of_In, in_concat.
    exists b. split; [|by apply list_elem_of_In].
    apply list_elem_of_In. by eapply list_elem_of_lookup_2.
  - destruct (chunk_cases _ _ _ Hc) as [->|Hcat]; [done|].
    unfold chunk in Hc. destruct (Z.eqb_spec (BATCH_SIZE cfg) 0); [done|].
    destruct (Z.ltb_spec (BATCH_SIZE cfg) 0); [|lia].
    injection Hc as <-. done.
Qed.

End Calls.

(** ** The airport list *)

Section AirportListFacts.
Context `{rt : PyRuntime}.

Lemma sublist_List_filter {A} (f : A -> bool) (l : list A) :
  sublist (List.filter f l) l.
Proof.
  induction l as [|x l IH]; simpl; [done|].
  destruct (f x); [by apply sublist_skip | by apply sublist_cons].
Qed.

Lemma unique_in_order_inv codes : forall (out : list text) (seen : gset text),
  (forall x, x ∈ out <-> x ∈ seen) ->
  exists l,
    (fold_left
       (fun (acc : list text * gset text) c =>
          let '(out, seen) := acc in
          if bool_decide (c ∈ seen) then acc else (out ++ [c], {[c]} ∪ seen))
       codes (out, seen)).1 = out ++ l
    /\ sublist l codes
    /\ (forall x, x ∈ codes -> x ∈ out \/ x ∈ l).
Proof.
  induction codes as [|c codes IH]; intros out seen Hiff; simpl.
  - exists []. rewrite app_nil_r. split_and!; [done|done|]. by intros x ?%elem_of_nil.
  - case_bool_decide as Hc.
    + destruct (IH out seen Hiff) as (l & -> & Hsub & Hin).
      exists l. split_and!; [done|by apply sublist_cons|].
      intros x [->|Hx]%elem_of_cons; [left; by apply Hiff | by apply Hin].
    + destruct (IH (out ++ [c]) ({[c]} ∪ seen)) as (l & -> & Hsub & Hin).
      { intros x. rewrite elem_of_app, list_elem_of_singleton, Hiff. set_solver. }
      exists (c :: l). rewrite <- app_assoc. split_and!; [done|by apply sublist_skip|].
      intros x [->|Hx]%elem_of_cons; [right; by left|].
      destruct (Hin x Hx) as [[?| ->%list_elem_of_singleton]%elem_of_app|?];
        [by left | right; by left | right; by right].
Qed.

Lemma unique_in_order_spec codes :
  sublist (unique_in_order codes) codes
  /\ (forall x, x ∈ unique_in_order codes <-> x ∈ codes).
Proof.
  unfold unique_in_order.
  destruct (unique_in_order_inv codes [] ∅) as (l & -> & Hsub & Hin);
    [set_solver|]. simpl. split; [done|]. intros x. split.
  - intros Hx. by eapply elem_of_sublist.
  - intros Hx. destruct (Hin x Hx) as [?%elem_of_nil|?]; done.
Qed.

(** X9. The airport list is made of the lines of [airports.txt], stripped
    and upper-cased, that have four characters all of them alphanumeric:
    every such code is listed, nothing else is, no code is listed twice, and
    the codes keep the order of the file. *)
Theorem read_airport_list_codes lines :
  (forall c, c ∈ read_airport_list lines
     <-> length c = 4%nat /\ isalnum c = true
         /\ exists line, line ∈ lines /\ c = str_upper (strip line))
  /\ NoDup (read_airport_list lines)
  /\ sublist (read_airport_list lines)
             (map (fun line => str_upper (strip line)) lines).
Proof.
  split_and!; [|apply read_airport_list_NoDup|].
  - intros c. unfold read_airport_list.
    destruct (unique_in_order_spec
      (List.filter
         (fun c => negb (text_eqb c []) && (length c =? 4)%nat && isalnum c)
         (map (fun line => str_upper (strip line)) lines))) as [_ ->].
    rewrite list_elem_of_In, filter_In, in_map_iff. split.
    + intros [(line & <- & Hl) H]. apply andb_prop in H as [H Ha].
      apply andb_prop in H as [_ H4]. apply Nat.eqb_eq in H4.
      split_and!; [done|done|]. exists line. by rewrite list_elem_of_In.
    + intros (H4 & Ha & line & Hl & ->). split.
      * exists line. by rewrite <- list_elem_of_In.
      * rewrite Ha, H4. simpl. rewrite andb_true_r.
        by destruct (str_upper (strip line)).
  - unfold read_airport_list.
    etransitivity; [apply unique_in_order_spec|].
    apply sublist_List_filter.
Qed.

End AirportListFacts.

(** ** The digest *)

Section Digest.

Lemma hex_digit_is_hex x : x < 16 -> is_hex (Hashlib.hex_digit x) = true.
Proof.
  intros Hx. unfold is_hex, Hashlib.hex_digit.
  destruct (N.ltb_spec x 10).
  - apply orb_true_iff. left. apply andb_true_iff.
    split; apply N.leb_le; lia.
  - apply orb_true_iff. right. apply andb_true_iff.
    split; apply N.leb_le; lia.
Qed.

Lemma hex_byte_is_hex b :
  b < 256 -> Forall (fun c => is_hex c = true) (Hashlib.hex_byte b).
Proof.
  intros Hb. unfold Hashlib.hex_byte. repeat constructor.
  - apply hex_digit_is_hex. rewrite N.shiftr_div_pow2.
    apply N.Div0.div_lt_upper_bound. simpl. lia.
  - apply hex_digit_is_hex. change 15 with (N.ones 4).
    rewrite N.land_ones. apply N.mod_lt. done.
Qed.

Lemma be_bytes_small n x : Forall (fun b => b < 256) (Hashlib.be_bytes n x).
Proof.
  induction n as [|n IH]; simpl; constructor; [|done].
  change 255 with (N.ones 8). rewrite N.land_ones. apply N.mod_lt. done.
Qed.

Lemma be_bytes_length n x : length (Hashlib.be_bytes n x) = n.
Proof. induction n as [|n IH]; simpl; [done | by rewrite IH]. Qed.

Lemma flat_map_hex_byte bs :
  Forall (fun b => b < 256) bs ->
  length (flat_map Hashlib.hex_byte bs) = (2 * length bs)%nat
  /\ Forall (fun c => is_hex c = true) (flat_map Hashlib.hex_byte bs).
Proof.
  induction 1 as [|b bs Hb _ [IHl IHf]]; [by split|].
  change (flat_map Hashlib.hex_byte (b :: bs))
    with (Hashlib.hex_byte b ++ flat_map Hashlib.hex_byte bs).
  split.
  - rewrite length_app, IHl. simpl. lia.
  - apply Forall_app. split; [by apply hex_byte_is_hex | done].
Qed.

(** A digest is forty characters out of [0-9a-f]. *)
Lemma sha1_text_shape s :
  length (sha1_text s) = 40%nat
  /\ Forall (fun c => is_hex c = true) (sha1_text s).
Proof.
  unfold sha1_text, Hashlib.sha1_hexdigest.
  destruct (Hashlib.blocks _ _ _) as [[[[h0 h1] h2] h3] h4].
  destruct (flat_map_hex_byte
    (Hashlib.be_bytes 4 h0 ++ Hashlib.be_bytes 4 h1 ++ Hashlib.be_bytes 4 h2
     ++ Hashlib.be_bytes 4 h3 ++ Hashlib.be_bytes 4 h4)) as [Hl Hf].
  { repeat (apply Forall_app; split); apply be_bytes_small. }
  split; [|done]. rewrite Hl, !length_app, !be_bytes_length. done.
Qed.

Lemma sha1_text_not_sentinel s : sha1_text s <> py "NO_SNOWTAM".
Proof.
  intros H. apply (f_equal length) in H.
  rewrite (proj1 (sha1_text_shape s)) in H. vm_compute in H. done.
Qed.

End Digest.

(** ** The notices of one airport *)

Section Airport.
Context `{rt : PyRuntime}.
Variable prev : gmap text PrevRecord.
Variable clock : Clock.

Lemma group_step_lookup (m : gmap text (list Notam)) ns icao :
  fold_left
    (fun (m : gmap text (list Notam)) n =>
       let code := str_upper (strip (or_empty (icao_code n))) in
       match m !! code with
       | Some l => <[code := l ++ [n]]> m
       | None => m
       end) ns m !! icao
  = (fun l => l ++ List.filter
                (fun n => bool_decide
                   (str_upper (strip (or_empty (icao_code n))) = icao)) ns)
    <$> m !! icao.
Proof.
  revert m. induction ns as [|n ns IH]; intros m; simpl.
  - destruct (m !! icao); simpl; [by rewrite app_nil_r | done].
  - rewrite IH. set (code := str_upper (strip (or_empty (icao_code n)))).
    case_bool_decide as Hc.
    + rewrite <- Hc. destruct (m !! code) as [l|] eqn:Hm.
      * rewrite lookup_insert_eq. simpl. by rewrite <- app_assoc.
      * by rewrite Hm.
    + destruct (m !! code) as [l|] eqn:Hm; [|done].
      by rewrite lookup_insert_ne.
Qed.

(** X10. Grouping gives each airport of the batch the notices whose code,
    stripped and upper-cased, is its own, in the order of the response; a
    notice with another code, or none, goes to no airport, and a code outside
    the batch gets no list. *)
Theorem group_by_icao_lookup batch ns icao :
  group_by_icao batch ns !! icao
  = if decide (icao ∈ batch)
    then Some (List.filter
                 (fun n => bool_decide
                    (str_upper (strip (or_empty (icao_code n))) = icao)) ns)
    else None.
Proof.
  unfold group_by_icao. rewrite group_step_lookup.
  rewrite (fold_insert_lookup (fun _ => [])).
  destruct (decide (icao ∈ batch)); [done|]. by rewrite lookup_empty.
Qed.

Lemma scan_notam_skip acc n : relevant n = false -> scan_notam acc n = acc.
Proof.
  unfold relevant, scan_notam. destruct acc as [[its ws] we]. by intros ->.
Qed.

Lemma fold_scan_filter ns : forall acc,
  fold_left scan_notam ns acc
  = fold_left scan_notam (List.filter relevant ns) acc.
Proof.
  induction ns as [|n ns IH]; intros acc; simpl; [done|].
  destruct (relevant n) eqn:Hr; simpl; [apply IH|].
  rewrite scan_notam_skip by done. apply IH.
Qed.

Lemma scan_notam_items acc n :
  relevant n = true ->
  (scan_notam acc n).1.1 = acc.1.1 ++ [snow_item n].
Proof.
  unfold relevant, scan_notam. destruct acc as [[its ws] we]. intros ->. simpl.
  destruct (severity_from_text _) as [sev ev].
  destruct ws; simpl; try done; by destruct (_ >? _)%Z.
Qed.

Lemma fold_scan_items ns : forall acc,
  (fold_left scan_notam ns acc).1.1
  = acc.1.1 ++ map snow_item (List.filter relevant ns).
Proof.
  induction ns as [|n ns IH]; intros acc; simpl; [by rewrite app_nil_r|].
  rewrite IH. destruct (relevant n) eqn:Hr; simpl.
  - rewrite scan_notam_items by done. by rewrite <- app_assoc.
  - by rewrite scan_notam_skip.
Qed.

Lemma airport_status_items icao ns :
  items (airport_status prev clock icao ns)
  = map snow_item (List.filter relevant ns).
Proof.
  unfold airport_status. pose proof (fold_scan_items ns ([], green, None)) as H.
  by destruct (fold_left _ _ _) as [[its ws] we].
Qed.

Lemma airport_status_has_snowtam icao ns :
  has_snowtam (airport_status prev clock icao ns)
  = (0 <? length (items (airport_status prev clock icao ns)))%nat.
Proof. unfold airport_status. by destruct (fold_left _ _ _) as [[its ws] we]. Qed.

Lemma airport_status_hash icao ns :
  hash (airport_status prev clock icao ns)
  = Some (if has_snowtam (airport_status prev clock icao ns)
          then sha1_text (join BLOB_SEP
                   (map item_text (items (airport_status prev clock icao ns))))
          else py "NO_SNOWTAM").
Proof. unfold airport_status. by destruct (fold_left _ _ _) as [[its ws] we]. Qed.

(** X11. A notice that fails the relevance test leaves no trace: the record
    of an airport is the record computed from its relevant notices alone,
    its items are those notices in order, and it has a SNOWTAM exactly when
    one of its notices is relevant. *)
Theorem irrelevant_notices_leave_no_trace icao ns :
  airport_status prev clock icao ns
  = airport_status prev clock icao (List.filter relevant ns)
  /\ items (airport_status prev clock icao ns)
     = map snow_item (List.filter relevant ns)
  /\ (has_snowtam (airport_status prev clock icao ns) = true
      <-> exists n, In n ns /\ relevant n = true).
Proof.
  split_and!.
  - unfold airport_status. by rewrite fold_scan_filter.
  - apply airport_status_items.
  - rewrite airport_status_has_snowtam, airport_status_items, length_map.
    rewrite Nat.ltb_lt. split.
    + destruct (List.filter relevant ns) as [|n l] eqn:Hf; simpl; [lia|].
      intros _. exists n. apply filter_In. rewrite Hf. by left.
    + intros (n & Hn). apply filter_In in Hn.
      destruct (List.filter relevant ns); [done | simpl; lia].
Qed.

(** X12. The hash of a fetched record tells whether there were notices:
    it is the sentinel [NO_SNOWTAM] exactly when the airport has no relevant
    notice, and otherwise forty characters out of [0-9a-f], the digest of
    the items joined. *)
Theorem hash_is_sentinel_or_digest icao ns :
  let r := airport_status prev clock icao ns in
  (hash r = Some (py "NO_SNOWTAM") <-> has_snowtam r = false)
  /\ (has_snowtam r = true ->
      exists h, hash r = Some h
        /\ h = sha1_text (join BLOB_SEP (map item_text (items r)))
        /\ length h = 40%nat
        /\ Forall (fun c => is_hex c = true) h).
Proof.
  intros r. subst r. rewrite airport_status_hash.
  destruct (has_snowtam _) eqn:Hh.
  - split.
    + split; [|done]. intros [= H]. by apply sha1_text_not_sentinel in H.
    + intros _. eexists. split; [done|]. split; [done|]. apply sha1_text_shape.
  - split; [done|]. done.
Qed.

End Airport.

Section Worst.
Context `{rt : PyRuntime}.
Variable prev : gmap text PrevRecord.
Variable clock : Clock.

Lemma scan_notam_worst its ws we n :
  relevant n = true ->
  scan_notam (its, ws, we) n
  = (its ++ [snow_item n],
     if match ws with green => true | _ => false end
        || (order (severity_from_text (scored_text n)).1 >? order ws)%Z
     then (severity_from_text (scored_text n)).1 else ws,
     if match ws with green => true | _ => false end
        || (order (severity_from_text (scored_text n)).1 >? order ws)%Z
     then Some (severity_from_text (scored_text n)).2 else we).
Proof.
  unfold relevant, scan_notam, scored_text, snow_item. intros ->. simpl.
  destruct (severity_from_text _) as [sev ev]. simpl.
  destruct ws; simpl; try done; by destruct (_ >? _)%Z.
Qed.

(** The state of the loop over the relevant notices [l] of an airport. *)
Lemma fold_scan_worst l :
  Forall (fun n => relevant n = true) l ->
  let '(its, ws, we) := fold_left scan_notam l ([], green, None) in
  (l = [] /\ ws = green /\ we = None)
  \/ (exists pre n post,
        l = pre ++ n :: post
        /\ ws = (severity_from_text (scored_text n)).1
        /\ we = Some (severity_from_text (scored_text n)).2
        /\ (forall n', In n' pre ->
              (order (severity_from_text (scored_text n')).1 < order ws)%Z)
        /\ (forall n', In n' post ->
              (order (severity_from_text (scored_text n')).1 <= order ws)%Z)).
Proof.
  induction l as [|n l IH] using rev_ind; intros Hl; simpl; [by left|].
  apply Forall_app in Hl as [Hl Hn]. inversion Hn as [|? ? Hr _]; subst.
  rewrite fold_left_app. simpl. specialize (IH Hl).
  destruct (fold_left scan_notam l _) as [[its ws] we].
  rewrite scan_notam_worst by done. right.
  pose proof (severity_from_text_warm (scored_text n)) as Hw.
  destruct IH as [(-> & -> & ->)|(pre & m & post & -> & Hws & Hwe & Hpre & Hpost)].
  - exists [], n, []. simpl. split_and!; [done|done|done| |]; by intros ? [].
  - assert (Hg : match ws with green => true | _ => false end = false).
    { pose proof (severity_from_text_warm (scored_text m)) as Hm.
      rewrite <- Hws in Hm. destruct ws; simpl in Hm; try done; lia. }
    rewrite Hg. simpl.
    destruct (Z.gtb_spec (order (severity_from_text (scored_text n)).1) (order ws)).
    + exists ((pre ++ m :: post)), n, []. split_and!; [done|done|done| |by intros ? []].
      intros n' [Hin|[<-|Hin]]%in_app_or.
      * specialize (Hpre _ Hin). lia.
      * rewrite <- Hws. lia.
      * specialize (Hpost _ Hin). lia.
    + exists pre, m, (post ++ [n]). rewrite <- app_assoc. simpl.
      split_and!; [done|done|done|done|].
      intros n' [Hin|[<-|[]]]%in_app_or; [by apply Hpost | lia].
Qed.

Lemma filter_relevant_Forall ns :
  Forall (fun n => relevant n = true) (List.filter relevant ns).
Proof. apply Forall_forall. intros n Hn. by apply filter_In in Hn as [_ ?]. Qed.

(** X13. The record of a fetched airport carries the score of its worst
    relevant notice: with no relevant notice it is green with null evidence;
    otherwise score and evidence are those of one relevant notice, every
    earlier relevant notice scores strictly lower and no later one scores
    higher, so that among equals the first wins, and the score is yellow,
    orange or red. *)
Theorem worst_notice_wins icao ns :
  let r := airport_status prev clock icao ns in
  (List.filter relevant ns = []
   /\ has_snowtam r = false /\ severity r = green /\ evidence r = Some None)
  \/ (exists pre n post,
        List.filter relevant ns = pre ++ n :: post
        /\ has_snowtam r = true
        /\ severity r = (severity_from_text (scored_text n)).1
        /\ evidence r = Some (Some (severity_from_text (scored_text n)).2)
        /\ (forall n', In n' pre ->
              (order (severity_from_text (scored_text n')).1
               < order (severity r))%Z)
        /\ (forall n', In n' post ->
              (order (severity_from_text (scored_text n')).1
               <= order (severity r))%Z)
        /\ (severity r = yellow \/ severity r = orange \/ severity r = red)).
Proof.
  intros r. subst r.
  pose proof (fold_scan_worst _ (filter_relevant_Forall ns)) as H.
  pose proof (fold_scan_items ns ([], green, None)) as Hits.
  unfold airport_status. rewrite fold_scan_filter.
  rewrite fold_scan_filter in Hits.
  destruct (fold_left scan_notam (List.filter relevant ns) _) as [[its ws] we].
  simpl in Hits. subst its.
  destruct H as [(Hnil & -> & ->)|(pre & n & post & Hl & Hws & Hwe & Hpre & Hpost)].
  - left. rewrite Hnil. by simpl.
  - right. exists pre, n, post. rewrite Hl, length_map, length_app. simpl.
    replace (0 <? length pre + S (length post))%nat with true
      by (symmetry; apply Nat.ltb_lt; lia).
    simpl. split_and!; try done; [by rewrite Hwe|].
    pose proof (severity_from_text_warm (scored_text n)) as Hw.
    rewrite <- Hws in Hw. by destruct ws; simpl in Hw; try lia; auto.
Qed.

(** X14. A run that finds the same items as the run that wrote the
    previous hash reports no change and keeps the previous time of change,
    whatever else differs between the two runs: the hash of a fetched record
    is a function of its items alone. *)
Theorem same_items_no_change prev0 clock0 icao0 ns0 icao ns p :
  prev !! icao = Some p ->
  prev_hash p = hash (airport_status prev0 clock0 icao0 ns0) ->
  map snow_item (List.filter relevant ns)
  = map snow_item (List.filter relevant ns0) ->
  let r := airport_status prev clock icao ns in
  hash r = prev_hash p
  /\ changed r = false
  /\ last_change_utc r = prev_last_change_utc p.
Proof.
  intros Hp Hh Hsame r. subst r.
  assert (Heq : hash (airport_status prev clock icao ns) = prev_hash p).
  { rewrite Hh, !airport_status_hash, !airport_status_has_snowtam,
      !airport_status_items. by rewrite Hsame. }
  split; [done|].
  assert (Hch : changed (airport_status prev clock icao ns) = false).
  { rewrite airport_status_changed. unfold prev_get. rewrite Hp.
    destruct (prev_hash p) as [h|]; [|done].
    rewrite Heq. by rewrite bool_decide_eq_true_2. }
  split; [done|].
  rewrite airport_status_last_change, Hch. unfold prev_get. by rewrite Hp.
Qed.

End Worst.

(** ** The fingerprint and the previous snapshot *)

Section Fingerprint.
Context `{rt : PyRuntime}.
Variable cfg : Config.
Variable prev : gmap text PrevRecord.
Variable clock : Clock.
Variable fetch : nat -> list text -> FetchResult.

(** C1. A record written by a batch whose fetch succeeded (its [error] is
    null) belongs to an airport of a fetched batch; its items are the
    relevant notices of the response that carry the airport's code, and its
    hash is the fingerprint of this run: the digest of the joined items, or
    the sentinel when there is none.  [changed] is true exactly when the
    previous snapshot has a record for the airport that holds a hash, and
    that hash is not the new fingerprint; with no previous record, or a
    previous record without hash, [changed] is false whatever the notices
    are. *)
Theorem changed_iff_prev_hash_differs icao_list snap icao r :
  build_status cfg prev clock fetch icao_list = Some snap ->
  airports snap !! icao = Some r ->
  error r = None ->
  let new_hash :=
    if has_snowtam r
    then sha1_text (join BLOB_SEP (map item_text (items r)))
    else py "NO_SNOWTAM" in
  (exists batches k batch ns,
     chunk icao_list (BATCH_SIZE cfg) = Some batches
     /\ batches !! k = Some batch /\ icao ∈ batch
     /\ fetch (S k) batch = Fetched ns
     /\ items r
        = map snow_item
            (List.filter relevant
               (List.filter
                  (fun n => bool_decide
                     (str_upper (strip (or_empty (icao_code n))) = icao))
                  ns)))
  /\ has_snowtam r = (0 <? length (items r))%nat
  /\ hash r = Some new_hash
  /\ (changed r = true
      <-> exists p h, prev !! icao = Some p /\ prev_hash p = Some h
                      /\ h <> new_hash)
  /\ (prev !! icao = None -> changed r = false)
  /\ (forall p, prev !! icao = Some p -> prev_hash p = None ->
      changed r = false).
Proof.
  intros Hb Hr He new_hash. subst new_hash. unfold build_status in Hb.
  destruct (chunk icao_list (BATCH_SIZE cfg)) as [bs|] eqn:Hc; [|done].
  injection Hb as <-. simpl in Hr.
  apply process_batches_origin in Hr as [Hr|(k & b & Hk & Hin & Hrec)];
    [by rewrite lookup_empty in Hr|].
  subst r. unfold batch_record in *. change (1 + k)%nat with (S k) in *.
  destruct (fetch (S k) b) as [ty m|ns] eqn:Hf; [done|].
  assert (Hg : group_by_icao b ns !! icao
               = Some (List.filter
                         (fun n => bool_decide
                            (str_upper (strip (or_empty (icao_code n))) = icao))
                         ns)).
  { unfold group_by_icao. rewrite group_step_lookup.
    rewrite (fold_insert_lookup (fun _ => [])).
    by destruct (decide (icao ∈ b)). }
  rewrite Hg in *. simpl.
  set (l := List.filter _ ns) in *.
  split_and!.
  - exists bs, k, b, ns. split_and!; try done. apply airport_status_items.
  - apply airport_status_has_snowtam.
  - apply airport_status_hash.
  - rewrite airport_status_changed, airport_status_hash. unfold prev_get.
    destruct (prev !! icao) as [p|] eqn:Hp.
    + destruct (prev_hash p) as [h|] eqn:Hh.
      * rewrite negb_true_iff, bool_decide_eq_false. split.
        -- intros Hne. exists p, h. split_and!; [done|done|].
           intros ->. by apply Hne.
        -- intros (p' & h' & [= <-] & Hh' & Hne). rewrite Hh in Hh'.
           injection Hh' as <-. intros [= Heq]. by apply Hne.
      * split; [done|]. intros (p' & h' & [= <-] & Hh' & _). congruence.
    + split; [done|]. by intros (p' & h' & ? & _).
  - intros Hp. rewrite airport_status_changed. unfold prev_get. by rewrite Hp.
  - intros p Hp Hh. rewrite airport_status_changed. unfold prev_get.
    by rewrite Hp, Hh.
Qed.

End Fingerprint.

(** EPWA had the previous hash h0 and has a notice: flagged.  EPGD is seen
    for the first time, with a notice: not flagged. *)
Lemma changed_iff_prev_hash_differs_witness :
  exists snap r r',
    demo_snapshot = Some snap
    /\ (airports snap !! py "EPWA" = Some r
        /\ error r = None
        /\ demo_prev !! py "EPWA" = Some (mkPrev (Some (py "h0")) None)
        /\ items r
           = [mkSnowItem (py "SNOWTAM 0123 RWYCC 5/5/4 BRAKING ACTION GOOD")
                         (py "Runway codes 5/5/4") []]
        /\ hash r = Some (py "57398fd4e4a881a3b4d1084c084657ed107de30b")
        /\ changed r = true)
    /\ (airports snap !! py "EPGD" = Some r'
        /\ error r' = None
        /\ demo_prev !! py "EPGD" = None
        /\ items r' = [mkSnowItem (py "RWY 09 CLSD DUE SNOW") [] []]
        /\ hash r' = Some (py "9537cdeda615cae007f3d7bca977fc46cb7a0f07")
        /\ changed r' = false).
Proof.
  eexists _, _, _.
  split; [vm_compute; reflexivity|]. split.
  - split; [vm_compute; reflexivity|]. split; [vm_compute; reflexivity|].
    split; [vm_compute; reflexivity|]. split; [vm_compute; reflexivity|].
    split.
    + etransitivity; [|vm_compute; reflexivity].
      refine (proj1 (proj2 (proj2 (changed_iff_prev_hash_differs
                demo_config demo_prev demo_clock demo_fetch demo_airports
                _ (py "EPWA") _ _ _ _))));
        vm_compute; reflexivity.
    + refine (proj2 (proj1 (proj2 (proj2 (proj2
                (changed_iff_prev_hash_differs
                   demo_config demo_prev demo_clock demo_fetch demo_airports
                   _ (py "EPWA") _ _ _ _))))) _);
        [vm_compute; reflexivity ..|].
      exists (mkPrev (Some (py "h0")) None), (py "h0").
      split; [vm_compute; reflexivity|]. split; [reflexivity|].
      vm_compute. discriminate.
  - split; [vm_compute; reflexivity|]. split; [vm_compute; reflexivity|].
    split; [vm_compute; reflexivity|]. split; [vm_compute; reflexivity|].
    split.
    + etransitivity; [|vm_compute; reflexivity].
      refine (proj1 (proj2 (proj2 (changed_iff_prev_hash_differs
                demo_config demo_prev demo_clock demo_fetch demo_airports
                _ (py "EPGD") _ _ _ _))));
        vm_compute; reflexivity.
    + refine (proj1 (proj2 (proj2 (proj2 (proj2
                (changed_iff_prev_hash_differs
                   demo_config demo_prev demo_clock demo_fetch demo_airports
                   _ (py "EPGD") _ _ _ _))))) _);
        vm_compute; reflexivity.
Defined.


(** ** The exchange with the service *)

Section FetchFacts.
Variable cfg : Config.
Variable get : Request -> GetResult.
Variables (api_key : text) (batch : list text) (starts_at ends_at : text).

Lemma fetch_pages_from n : forall a out,
  match fetch_pages cfg get api_key batch starts_at ends_at
          (map Z.of_nat (seq a n)) out with
  | Raised ty msg =>
      exists j,
        (j < n)%nat
        /\ page_result cfg get api_key batch starts_at ends_at (a + j)
           = PageRaised ty msg
        /\ forall i, (i < j)%nat ->
             exists ns,
               page_result cfg get api_key batch starts_at ends_at (a + i)
               = PageNotams ns
               /\ full_page cfg ns
  | Fetched out' =>
      exists pgs,
        out' = out ++ concat pgs
        /\ (length pgs <= n)%nat
        /\ (forall i ns, pgs !! i = Some ns ->
              page_result cfg get api_key batch starts_at ends_at (a + i)
              = PageNotams ns
              /\ ns <> []
              /\ (S i < length pgs -> full_page cfg ns)%nat)
        /\ (length pgs = n
            \/ page_result cfg get api_key batch starts_at ends_at
                 (a + length pgs) = PageNotams []
            \/ exists ns, pgs !! (length pgs - 1)%nat = Some ns
                 /\ (Z.of_nat (length ns) < PER_PAGE cfg)%Z)
  end.
Proof.
  induction n as [|n IH]; intros a out; simpl.
  - exists []. rewrite app_nil_r. split_and!; [done|done|done|by left].
  - change (read_page (get (page_request cfg api_key batch starts_at ends_at
                                   (Z.of_nat a))))
      with (page_result cfg get api_key batch starts_at ends_at a).
    destruct (page_result cfg get api_key batch starts_at ends_at a)
      as [ty msg|[|x ns]] eqn:Hp.
    + exists 0%nat. rewrite Nat.add_0_r. split_and!; [lia|done|lia].
    + exists []. rewrite app_nil_r, Nat.add_0_r.
      split_and!; [done|simpl; lia|done|by right; left].
    + destruct (Z.ltb_spec (Z.of_nat (length (x :: ns))) (PER_PAGE cfg))
        as [Hs|Hs].
      * exists [x :: ns]. simpl. rewrite app_nil_r.
        split_and!; [done|lia| |].
        -- intros [|i] ns' Hi; [|done]. injection Hi as <-.
           rewrite Nat.add_0_r. split_and!; [done|done|simpl; lia].
        -- right; right. by exists (x :: ns).
      * specialize (IH (S a) (out ++ x :: ns)).
        destruct (fetch_pages _ _ _ _ _ _ _ _) as [ty msg|out'].
        -- destruct IH as (j & Hj & Hr & Hbefore).
           exists (S j). replace (a + S j)%nat with (S a + j)%nat by lia.
           split_and!; [lia|done|].
           intros [|i] Hi.
           ++ exists (x :: ns). rewrite Nat.add_0_r. by split.
           ++ replace (a + S i)%nat with (S a + i)%nat by lia.
              apply Hbefore. lia.
        -- destruct IH as (pgs & -> & Hlen & Hall & Hstop).
           exists ((x :: ns) :: pgs).
           split_and!.
           ++ simpl. by rewrite <- app_assoc.
           ++ simpl. lia.
           ++ intros [|i] ns' Hi.
              ** injection Hi as <-. rewrite Nat.add_0_r. by split_and!.
              ** replace (a + S i)%nat with (S a + i)%nat by lia.
                 destruct (Hall i ns' Hi) as (? & ? & Hf).
                 split_and!; [done|done|]. simpl. intros ?. apply Hf. lia.
           ++ simpl length.
              replace (a + S (length pgs))%nat with (S a + length pgs)%nat
                by lia.
              destruct Hstop as [?|[?|(ns' & Hl & ?)]];
                [left; lia | by right; left |].
              right; right. exists ns'. split; [|done].
              destruct pgs as [|pg pgs]; [done|]. simpl in *.
              by rewrite Nat.sub_0_r in *.
Qed.

(** X15. [fetch_notams_for_batch] returns all or nothing.  When it raises,
    some page from 1 to [MAX_PAGES] raised after full pages only, and the
    notices of those pages are lost with it.  When it returns, the result is
    the pages read, in order, each of them non-empty and all but the last
    full, and reading stopped at [MAX_PAGES], before an empty page or after
    a page shorter than [PER_PAGE]. *)
Theorem fetch_all_or_nothing :
  match fetch_notams_for_batch cfg get api_key batch starts_at ends_at with
  | Raised ty msg =>
      exists p, (1 <= p <= Z.to_nat (MAX_PAGES cfg))%nat
        /\ page_result cfg get api_key batch starts_at ends_at p
           = PageRaised ty msg
        /\ forall q, (1 <= q < p)%nat ->
             exists ns,
               page_result cfg get api_key batch starts_at ends_at q
               = PageNotams ns
               /\ full_page cfg ns
  | Fetched out =>
      exists pgs,
        out = concat pgs
        /\ (length pgs <= Z.to_nat (MAX_PAGES cfg))%nat
        /\ (forall i ns, pgs !! i = Some ns ->
              page_result cfg get api_key batch starts_at ends_at (S i)
              = PageNotams ns
              /\ ns <> []
              /\ (S i < length pgs -> full_page cfg ns)%nat)
        /\ (length pgs = Z.to_nat (MAX_PAGES cfg)
            \/ page_result cfg get api_key batch starts_at ends_at
                 (S (length pgs)) = PageNotams []
            \/ exists ns, pgs !! (length pgs - 1)%nat = Some ns
                 /\ (Z.of_nat (length ns) < PER_PAGE cfg)%Z)
  end.
Proof.
  unfold fetch_notams_for_batch.
  pose proof (fetch_pages_from (Z.to_nat (MAX_PAGES cfg)) 1 []) as H.
  destruct (fetch_pages _ _ _ _ _ _ _ _) as [ty msg|out].
  - destruct H as (j & Hj & Hr & Hbefore). exists (S j).
    split_and!; [lia|lia|done|]. intros q Hq.
    destruct (Hbefore (q - 1)%nat) as (ns & Hns & Hf); [lia|].
    exists ns. replace (1 + (q - 1))%nat with q in Hns by lia. done.
  - destruct H as (pgs & -> & Hlen & Hall & Hstop). exists pgs.
    split_and!; done.
Qed.

End FetchFacts.

Section FetchBound.
Variable cfg : Config.
Variable get : Request -> GetResult.
Variables (api_key : text) (batch : list text) (starts_at ends_at : text).

Lemma concat_length_bound (pgs : list (list Notam)) (b : Z) :
  (forall i ns, pgs !! i = Some ns -> (Z.of_nat (length ns) <= b)%Z) ->
  (Z.of_nat (length (concat pgs)) <= Z.of_nat (length pgs) * b)%Z.
Proof.
  induction pgs as [|pg pgs IH]; intros Hall; simpl; [lia|].
  rewrite length_app. specialize (Hall 0%nat pg eq_refl) as H0.
  assert (H : (Z.of_nat (length (concat pgs)) <= Z.of_nat (length pgs) * b)%Z).
  { apply IH. intros i ns Hi. by apply (Hall (S i)). }
  lia.
Qed.

(** X16. One call reads at most [MAX_PAGES] pages: when the service sends
    no page longer than [PER_PAGE], the call returns at most
    [MAX_PAGES * PER_PAGE] notices for the whole batch, whatever the number
    of notices in force. *)
Theorem fetch_returns_at_most_max_pages out :
  (forall p ns,
     page_result cfg get api_key batch starts_at ends_at p = PageNotams ns ->
     (Z.of_nat (length ns) <= PER_PAGE cfg)%Z) ->
  fetch_notams_for_batch cfg get api_key batch starts_at ends_at
  = Fetched out ->
  (Z.of_nat (length out) <= Z.max 0 (MAX_PAGES cfg) * PER_PAGE cfg)%Z.
Proof.
  intros Hsrv. unfold fetch_notams_for_batch.
  pose proof (fetch_pages_from cfg get api_key batch starts_at ends_at
                (Z.to_nat (MAX_PAGES cfg)) 1 []) as H.
  destruct (fetch_pages _ _ _ _ _ _ _ _) as [ty msg|out']; [done|].
  intros [= ->]. destruct H as (pgs & -> & Hlen & Hall & Hstop). simpl.
  destruct pgs as [|pg pgs].
  { simpl in *. destruct Hstop as [Hz|[Hp|(ns & Hns & _)]]; [nia| |done].
    apply Hsrv in Hp. simpl in Hp. nia. }
  assert (H0 : (0 <= PER_PAGE cfg)%Z).
  { destruct (Hall 0%nat pg eq_refl) as (Hp & _). apply Hsrv in Hp. lia. }
  etransitivity.
  - apply (concat_length_bound _ (PER_PAGE cfg)). intros i ns Hi.
    destruct (Hall i ns Hi) as (Hp & _). by apply Hsrv in Hp.
  - apply Z.mul_le_mono_nonneg_r; [done|]. lia.
Qed.

(** With [MAX_PAGES] below 1 the loop has no round. *)
Lemma fetch_without_pages :
  (MAX_PAGES cfg <= 0)%Z ->
  fetch_notams_for_batch cfg get api_key batch starts_at ends_at = Fetched [].
Proof.
  intros H. unfold fetch_notams_for_batch.
  replace (Z.to_nat (MAX_PAGES cfg)) with 0%nat by lia. done.
Qed.

(** A first page that raises is the outcome of the call. *)
Lemma fetch_first_page_raised ty msg :
  (1 <= MAX_PAGES cfg)%Z ->
  page_result cfg get api_key batch starts_at ends_at 1 = PageRaised ty msg ->
  fetch_notams_for_batch cfg get api_key batch starts_at ends_at
  = Raised ty msg.
Proof.
  intros H Hp. unfold fetch_notams_for_batch.
  destruct (Z.to_nat (MAX_PAGES cfg)) as [|n] eqn:Hn; [lia|].
  simpl. unfold page_result in Hp. simpl in Hp. by rewrite Hp.
Qed.

End FetchBound.

Section HttpRun.
Context `{rt : PyRuntime}.
Variable cfg : Config.
Variable prev : gmap text PrevRecord.
Variable clock : Clock.
Variable get : nat -> Request -> GetResult.
Variable api_key : text.

(** X17. A rejected key shows on the dashboard: when the service answers
    the first page of a batch with status 401, every airport of the batch
    gets a gray record without notices that carries the fixed message of the
    script and, as hash and last-change time, what the previous snapshot
    holds for the airport (null where it has no record). *)
Theorem unauthorized_batch_is_gray icao_list batches k batch resp :
  NoDup icao_list ->
  chunk icao_list (BATCH_SIZE cfg) = Some batches ->
  batches !! k = Some batch ->
  (1 <= MAX_PAGES cfg)%Z ->
  get (S k) (page_request cfg api_key batch (starts clock) (ends clock) 1)
  = Got resp ->
  status_code resp = 401%Z ->
  exists snap,
    build_status_http cfg prev clock get api_key icao_list = Some snap
    /\ forall icao, icao ∈ batch ->
       exists r, airports snap !! icao = Some r
         /\ severity r = gray /\ has_snowtam r = false /\ items r = []
         /\ changed r = false
         /\ error r = Some (py "RuntimeError: Notamify returned 401 Unauthorized. Check NOTAMIFY_API_KEY secret/header.")
         /\ hash r = prev !! icao ≫= prev_hash
         /\ last_change_utc r = prev !! icao ≫= prev_last_change_utc.
Proof.
  intros Hnd Hc Hb Hmp Hget H401. unfold build_status_http.
  set (fetch := fun (bi : nat) (batch : list text) =>
         fetch_notams_for_batch cfg (get bi) api_key batch
           (starts clock) (ends clock)).
  destruct (build_status_all_batches cfg prev clock fetch icao_list batches
              Hnd Hc) as (snap & Hsnap & Hrec).
  exists snap. split; [done|]. intros icao Hin.
  rewrite (Hrec k batch icao Hb Hin). eexists. split; [done|].
  unfold batch_record. subst fetch. simpl.
  rewrite (fetch_first_page_raised cfg (get (S k)) api_key batch _ _
             (py "RuntimeError")
             (py "Notamify returned 401 Unauthorized. Check NOTAMIFY_API_KEY secret/header."));
    [|done|].
  { unfold degraded_status, prev_get. simpl. by destruct (prev !! icao). }
  unfold page_result. change (Z.of_nat 1) with 1%Z. rewrite Hget.
  unfold read_page. by rewrite H401.
Qed.

(** X18. With [MAX_PAGES] below 1 no request is made and every airport
    comes out green: whatever the service would answer, every record of the
    snapshot is without notices, green, without error, with the sentinel
    hash. *)
Theorem no_pages_every_airport_green icao_list snap icao r :
  (MAX_PAGES cfg <= 0)%Z ->
  build_status_http cfg prev clock get api_key icao_list = Some snap ->
  airports snap !! icao = Some r ->
  has_snowtam r = false /\ severity r = green /\ items r = []
  /\ error r = None /\ hash r = Some (py "NO_SNOWTAM").
Proof.
  intros Hmp. unfold build_status_http, build_status.
  destruct (chunk _ _) as [bs|]; [|done]. intros [= <-]. simpl. intros Hr.
  apply process_batches_origin in Hr as [Hr|(k & b & Hb & Hin & ->)];
    [by rewrite lookup_empty in Hr|].
  unfold batch_record. rewrite fetch_without_pages by done.
  unfold group_by_icao. simpl. rewrite (fold_insert_lookup (fun _ => [])).
  destruct (decide (icao ∈ b)); [|done]. done.
Qed.

End HttpRun.

(** ** From one run to the next *)

Section Runs.
Context `{rt : PyRuntime}.

(** X19. Without a usable status file the run is a first run: when the
    file is absent, unreadable, no JSON object or without an [airports]
    entry, no record of the snapshot is marked as changed or has a time of
    change, and the records of failed batches have no hash. *)
Theorem first_run_marks_nothing cfg clock fetch f icao_list snap icao r :
  f = NoStatusFile \/ f = UnreadableStatus \/ f = NotAnObject
  \/ f = StatusObject None ->
  build_status cfg (load_prev_status f) clock fetch icao_list = Some snap ->
  airports snap !! icao = Some r ->
  changed r = false /\ last_change_utc r = None
  /\ (error r <> None -> hash r = None).
Proof.
  intros Hf Hs Hr.
  assert (Hp : load_prev_status f = ∅) by (by destruct Hf as [->|[->|[->| ->]]]).
  rewrite Hp in Hs.
  destruct (snapshot_record_cases _ _ _ _ _ _ _ _ Hs Hr)
    as [(ty & msg & ->)|(ns & ->)].
  - unfold degraded_status, prev_get. simpl. by rewrite lookup_empty.
  - rewrite airport_status_last_change, airport_status_changed, airport_status_error.
    unfold prev_get. rewrite lookup_empty. done.
Qed.

(** What a run reads of the file that the run before it wrote. *)
Lemma load_written_status snap icao :
  load_prev_status (status_file_of snap) !! icao
  = as_prev <$> airports snap !! icao.
Proof. unfold status_file_of, load_prev_status. apply lookup_fmap. Qed.

(** X20. The hash survives a failed fetch.  Run 1 fetches the airport and
    writes its record to the file [f1]; run 2 reads [f1], the fetch of the
    airport's batch fails, and it writes the degraded record to [f2]; run 3
    reads [f2] and finds the items of run 1.  Then run 3 reports no change
    and the time of change that run 1 wrote, and its hash is the hash of
    run 1. *)
Theorem hash_survives_failed_fetch
  prev1 clock1 icao1 ns1 (f1 f2 : StatusFile) err clock3 icao ns3 :
  load_prev_status f1 !! icao
  = Some (as_prev (airport_status prev1 clock1 icao1 ns1)) ->
  load_prev_status f2 !! icao
  = Some (as_prev (degraded_status (load_prev_status f1) icao err)) ->
  map snow_item (List.filter relevant ns3)
  = map snow_item (List.filter relevant ns1) ->
  let r1 := airport_status prev1 clock1 icao1 ns1 in
  let r3 := airport_status (load_prev_status f2) clock3 icao ns3 in
  hash r3 = hash r1 /\ changed r3 = false
  /\ last_change_utc r3 = last_change_utc r1.
Proof.
  intros H1 H2 Hsame r1 r3. subst r1 r3.
  set (r1 := airport_status prev1 clock1 icao1 ns1) in *.
  set (prev3 := load_prev_status f2) in *.
  assert (Hp3 : prev3 !! icao = Some (mkPrev (hash r1) (last_change_utc r1))).
  { rewrite H2. unfold as_prev, degraded_status, prev_get. simpl.
    by rewrite H1. }
  assert (Heq : hash (airport_status prev3 clock3 icao ns3) = hash r1).
  { subst r1. rewrite !airport_status_hash, !airport_status_has_snowtam,
      !airport_status_items. by rewrite Hsame. }
  split; [done|].
  assert (Hch : changed (airport_status prev3 clock3 icao ns3) = false).
  { rewrite airport_status_changed. unfold prev_get. rewrite Hp3. simpl.
    destruct (hash r1) as [h|]; [|done].
    rewrite Heq. by rewrite bool_decide_eq_true_2. }
  split; [done|].
  rewrite airport_status_last_change, Hch. unfold prev_get. by rewrite Hp3.
Qed.

End Runs.

Section Flagged.
Context `{rt : PyRuntime}.

(** X21. Notices that appear or disappear are always flagged: when the
    previous record of an airport was written by a fetched run, and the
    airport had relevant notices then and has none now, or the other way
    round, the new record is marked as changed, with the time of this run. *)
Theorem appearance_and_disappearance_are_flagged
  prev0 clock0 icao0 ns0 prev clock icao ns :
  prev !! icao = Some (as_prev (airport_status prev0 clock0 icao0 ns0)) ->
  has_snowtam (airport_status prev clock icao ns)
  <> has_snowtam (airport_status prev0 clock0 icao0 ns0) ->
  changed (airport_status prev clock icao ns) = true
  /\ last_change_utc (airport_status prev clock icao ns) = Some (now_z clock).
Proof.
  intros Hp Hne.
  assert (Hch : changed (airport_status prev clock icao ns) = true).
  { rewrite airport_status_changed. unfold prev_get. rewrite Hp. simpl.
    rewrite !airport_status_hash.
    apply negb_true_iff, bool_decide_eq_false. intros [= Heq].
    destruct (has_snowtam (airport_status prev clock icao ns)),
             (has_snowtam (airport_status prev0 clock0 icao0 ns0));
      try done.
    - symmetry in Heq. by apply sha1_text_not_sentinel in Heq.
    - by apply sha1_text_not_sentinel in Heq. }
  split; [done|]. by rewrite airport_status_last_change, Hch.
Qed.

End Flagged.

(** ** The coordinates file *)

Section EnsureFacts.
Context `{rt : PyRuntime}.
Variable F : Type.
Variable float : text -> option F.

Lemma row_entry_key need row c e :
  row_entry F float need row = Some (c, e) ->
  c ∈ need /\ entry_icao e = c
  /\ c = str_upper (strip (or_empty (row_ident row)))
  /\ float (or_empty (row_latitude_deg row)) = Some (entry_lat e)
  /\ float (or_empty (row_longitude_deg row)) = Some (entry_lon e).
Proof.
  unfold row_entry. case_bool_decide as Hin; [|done].
  destruct (float (or_empty (row_latitude_deg row))) as [lat|]; [|done].
  destruct (float (or_empty (row_longitude_deg row))) as [lon|]; [|done].
  by intros [= <- <-].
Qed.

Lemma read_rows_none need rows : forall (m : gmap text (AirportEntry F)) c,
  (forall r e', In r rows -> row_entry F float need r <> Some (c, e')) ->
  fold_left (read_row F float need) rows m !! c = m !! c.
Proof.
  induction rows as [|r rows IH]; intros m c Hno; simpl; [done|].
  rewrite IH by (intros r' e' Hr'; apply Hno; by right).
  unfold read_row.
  destruct (row_entry F float need r) as [[k e]|] eqn:Hr; [|done].
  apply lookup_insert_ne. intros ->. by apply (Hno r e); [left|].
Qed.

Lemma read_rows_last need pre row post c e :
  row_entry F float need row = Some (c, e) ->
  (forall r e', In r post -> row_entry F float need r <> Some (c, e')) ->
  read_rows F float need (pre ++ row :: post) !! c = Some e.
Proof.
  intros Hrow Hpost. unfold read_rows. rewrite fold_left_app. simpl.
  rewrite read_rows_none by done. unfold read_row. rewrite Hrow.
  apply lookup_insert_eq.
Qed.

Lemma read_rows_cases need c rows :
  match read_rows F float need rows !! c with
  | Some e =>
      exists pre row post,
        rows = pre ++ row :: post
        /\ row_entry F float need row = Some (c, e)
        /\ forall r e', In r post -> row_entry F float need r <> Some (c, e')
  | None => forall r e', In r rows -> row_entry F float need r <> Some (c, e')
  end.
Proof.
  induction rows as [|r rows IH] using rev_ind.
  - unfold read_rows. simpl. rewrite lookup_empty. by intros r e' [].
  - unfold read_rows in *. rewrite fold_left_app. simpl.
    unfold read_row at 1.
    destruct (row_entry F float need r) as [[k e]|] eqn:Hr.
    + destruct (decide (k = c)) as [->|Hk].
      * rewrite lookup_insert_eq. exists rows, r, []. split_and!; [done|done|].
        by intros ? ? [].
      * rewrite lookup_insert_ne by done.
        destruct (fold_left _ rows ∅ !! c) as [e0|].
        -- destruct IH as (pre & row & post & -> & Hrow & Hpost).
           exists pre, row, (post ++ [r]). rewrite <- app_assoc.
           split_and!; [done|done|].
           intros r' e' [Hin|[<-|[]]]%in_app_or; [by apply Hpost|].
           rewrite Hr. intros [= ? ?]. done.
        -- intros r' e' [Hin|[<-|[]]]%in_app_or; [by apply IH|].
           rewrite Hr. intros [= ? ?]. done.
    + destruct (fold_left _ rows ∅ !! c) as [e0|].
      * destruct IH as (pre & row & post & -> & Hrow & Hpost).
        exists pre, row, (post ++ [r]). rewrite <- app_assoc.
        split_and!; [done|done|].
        intros r' e' [Hin|[<-|[]]]%in_app_or; [by apply Hpost|].
        by rewrite Hr.
      * intros r' e' [Hin|[<-|[]]]%in_app_or; [by apply IH|]. by rewrite Hr.
Qed.

Lemma read_rows_key need rows c e :
  read_rows F float need rows !! c = Some e -> entry_icao e = c /\ c ∈ need.
Proof.
  intros H. pose proof (read_rows_cases need c rows) as Hc. rewrite H in Hc.
  destruct Hc as (pre & row & post & _ & Hrow & _).
  apply row_entry_key in Hrow. naive_solver.
Qed.

Lemma omap_filter_length {A B} (f : A -> option B) `{forall x, Decision (f x = None)}
  (l : list A) :
  (length (omap f l)
   + length (List.filter (fun x => bool_decide (f x = None)) l) = length l)%nat.
Proof.
  induction l as [|x l IH]; simpl; [done|].
  case_bool_decide as Hx.
  - unfold omap in *. simpl. rewrite Hx. simpl in *. lia.
  - unfold omap in *. simpl. destruct (f x); [simpl in *; lia | done].
Qed.

(** The coordinates file in terms of [row_entry]. *)
Lemma ensure_airports_json_entries
  existing st msg rows generated_at icao_list doc :
  ensure_airports_json F float existing (CsvGot st msg rows) generated_at
    icao_list = Wrote doc ->
  let need : gset text := list_to_set icao_list in
  (forall c, c ∈ icao_list
     <-> c ∈ map entry_icao (doc_airports doc) \/ c ∈ doc_missing doc)
  /\ (forall c, c ∈ doc_missing doc -> c ∉ map entry_icao (doc_airports doc))
  /\ (length (doc_airports doc) + length (doc_missing doc)
      = length icao_list)%nat
  /\ (forall c, c ∈ doc_missing doc
        <-> c ∈ icao_list
            /\ forall r e, In r rows -> row_entry F float need r <> Some (c, e))
  /\ (forall e, In e (doc_airports doc) ->
        exists pre row post,
          rows = pre ++ row :: post
          /\ row_entry F float need row = Some (entry_icao e, e)
          /\ forall r e', In r post ->
               row_entry F float need r <> Some (entry_icao e, e')).
Proof.
  intros H need. unfold ensure_airports_json in H.
  destruct (match existing with Some _ => _ | None => _ end); [done|].
  destruct ((400 <=? st)%Z && (st <? 600)%Z); [done|].
  injection H as <-. simpl. fold need.
  set (by_icao := read_rows F float need rows).
  assert (Hmiss : forall c, c ∈ List.filter
             (fun icao => bool_decide (by_icao !! icao = None)) icao_list
             <-> c ∈ icao_list /\ by_icao !! c = None).
  { intros c. rewrite list_elem_of_In, filter_In, <- list_elem_of_In.
    by rewrite bool_decide_eq_true. }
  assert (Hair : forall c, c ∈ map entry_icao (omap (fun icao => by_icao !! icao) icao_list)
             <-> c ∈ icao_list /\ is_Some (by_icao !! c)).
  { intros c. rewrite list_elem_of_In, in_map_iff. split.
    - intros (e & <- & He). apply list_elem_of_In, list_elem_of_omap in He
        as (c' & Hc' & He).
      destruct (read_rows_key _ _ _ _ He) as [-> _]. by split; [|exists e].
    - intros (Hc & e & He). exists e.
      split; [by apply (read_rows_key _ _ _ _ He)|].
      apply list_elem_of_In, list_elem_of_omap. by exists c. }
  split_and!.
  - intros c. rewrite Hair, Hmiss. destruct (by_icao !! c) eqn:E.
    + split; [left; by split | by intros [[? _]|[? _]]].
    + split; [right; by split | by intros [[? _]|[? _]]].
  - intros c. rewrite Hair, Hmiss. intros [_ ->] [_ [? ?]]. done.
  - apply omap_filter_length.
  - intros c. rewrite Hmiss. pose proof (read_rows_cases need c rows) as Hc.
    fold by_icao in Hc. split.
    + intros [Hin Hn]. rewrite Hn in Hc. done.
    + intros [Hin Hno]. split; [done|].
      destruct (by_icao !! c) as [e|]; [|done].
      destruct Hc as (pre & row & post & -> & Hrow & _).
      exfalso. apply (Hno row e); [|done]. apply in_or_app. right. by left.
  - intros e He. apply list_elem_of_In, list_elem_of_omap in He as (c & Hc & He).
    destruct (read_rows_key _ _ _ _ He) as [Hk _].
    pose proof (read_rows_cases need c rows) as Hcase.
    fold by_icao in Hcase. rewrite He in Hcase. by rewrite Hk.
Qed.

(** What makes a row put an entry under [c]: its identifier, stripped and
    upper-cased, is [c], [c] is asked for, and [float] accepts its latitude
    and its longitude; the entry holds the two numbers and the three
    stripped texts. *)
Lemma row_entry_iff need row c e :
  row_entry F float need row = Some (c, e)
  <-> c ∈ need
      /\ str_upper (strip (or_empty (row_ident row))) = c
      /\ exists lat lon,
           float (or_empty (row_latitude_deg row)) = Some lat
           /\ float (or_empty (row_longitude_deg row)) = Some lon
           /\ e = mkAirportEntry c (strip (or_empty (row_name row))) lat lon
                    (strip (or_empty (row_iso_country row)))
                    (strip (or_empty (row_municipality row))).
Proof.
  unfold row_entry. split.
  - case_bool_decide as Hin; [|done].
    destruct (float (or_empty (row_latitude_deg row))) as [lat|]; [|done].
    destruct (float (or_empty (row_longitude_deg row))) as [lon|]; [|done].
    intros [= <- <-]. split_and!; [done|done|]. by exists lat, lon.
  - intros (Hin & <- & lat & lon & -> & -> & ->).
    by rewrite bool_decide_eq_true_2.
Qed.

(** X22. When [ensure_airports_json] writes the coordinates file, every
    code of the list is either under [airports] or under [missing], never
    both.  A code is missing exactly when every row of the CSV whose
    identifier, stripped and upper-cased, is that code has a latitude or a
    longitude that [float] refuses.  The entry of an airport is built from
    the last row with its identifier and two numbers that [float] accepts:
    it holds these numbers and the stripped name, country and
    municipality of that row. *)
Theorem coordinates_from_last_valid_row
  existing st msg rows generated_at icao_list doc :
  ensure_airports_json F float existing (CsvGot st msg rows) generated_at
    icao_list = Wrote doc ->
  let ident_of (row : Row) := str_upper (strip (or_empty (row_ident row))) in
  let lat_of (row : Row) := float (or_empty (row_latitude_deg row)) in
  let lon_of (row : Row) := float (or_empty (row_longitude_deg row)) in
  (forall c, c ∈ icao_list
     <-> c ∈ map entry_icao (doc_airports doc) \/ c ∈ doc_missing doc)
  /\ (forall c, c ∈ doc_missing doc -> c ∉ map entry_icao (doc_airports doc))
  /\ (length (doc_airports doc) + length (doc_missing doc)
      = length icao_list)%nat
  /\ (forall c, c ∈ doc_missing doc
        <-> c ∈ icao_list
            /\ forall row, In row rows -> ident_of row = c ->
                 lat_of row = None \/ lon_of row = None)
  /\ (forall e, In e (doc_airports doc) ->
        entry_icao e ∈ icao_list
        /\ exists pre row post lat lon,
             rows = pre ++ row :: post
             /\ ident_of row = entry_icao e
             /\ lat_of row = Some lat /\ lon_of row = Some lon
             /\ e = mkAirportEntry (ident_of row)
                      (strip (or_empty (row_name row))) lat lon
                      (strip (or_empty (row_iso_country row)))
                      (strip (or_empty (row_municipality row)))
             /\ forall r, In r post -> ident_of r = entry_icao e ->
                  lat_of r = None \/ lon_of r = None)
  /\ doc_generated_at_utc doc = generated_at
  /\ doc_source doc = py "OurAirports airports.csv".
Proof.
  intros H ident_of lat_of lon_of.
  destruct (ensure_airports_json_entries _ _ _ _ _ _ _ H)
    as (Hpart & Hdisj & Hlen & Hmiss & Hair).
  assert (Hneed : forall c, c ∈ (list_to_set icao_list : gset text)
                            <-> c ∈ icao_list)
    by (intros c; apply elem_of_list_to_set).
  assert (Hno : forall c r, c ∈ icao_list ->
            (forall e, row_entry F float (list_to_set icao_list) r <> Some (c, e))
            <-> (ident_of r = c -> lat_of r = None \/ lon_of r = None)).
  { intros c r Hc. split.
    - intros Hne Hid. unfold lat_of, lon_of.
      destruct (float (or_empty (row_latitude_deg r))) as [lat|] eqn:Hlat;
        [|by left].
      destruct (float (or_empty (row_longitude_deg r))) as [lon|] eqn:Hlon;
        [|by right].
      exfalso. eapply Hne. apply row_entry_iff.
      split_and!; [by apply Hneed | exact Hid |]. by exists lat, lon.
    - intros Himp e He. apply row_entry_iff in He
        as (_ & Hid & lat & lon & Hlat & Hlon & _).
      destruct (Himp Hid) as [Hn|Hn]; unfold lat_of, lon_of in Hn; congruence. }
  split_and!; [done|done|done| | | |].
  - intros c. rewrite Hmiss. split.
    + intros [Hc Hall]. split; [done|]. intros row Hrow.
      apply Hno; [done|]. intros e. by apply Hall.
    + intros [Hc Hall]. split; [done|]. intros r e Hr.
      apply (proj2 (Hno c r Hc)). by apply Hall.
  - intros e He.
    assert (Hin : entry_icao e ∈ icao_list).
    { apply Hpart. left. apply list_elem_of_In, in_map. exact He. }
    split; [done|].
    destruct (Hair e He) as (pre & row & post & -> & Hrow & Hpost).
    apply row_entry_iff in Hrow as (_ & Hid & lat & lon & Hlat & Hlon & He').
    exists pre, row, post, lat, lon.
    split_and!; try done.
    + unfold ident_of. rewrite Hid. exact He'.
    + intros r Hr. apply Hno; [done|]. intros e'. by apply Hpost.
  - unfold ensure_airports_json in H.
    destruct (match existing with Some _ => _ | None => _ end); [done|].
    destruct ((400 <=? st)%Z && (st <? 600)%Z); [done|]. by injection H as <-.
  - unfold ensure_airports_json in H.
    destruct (match existing with Some _ => _ | None => _ end); [done|].
    destruct ((400 <=? st)%Z && (st <? 600)%Z); [done|]. by injection H as <-.
Qed.

End EnsureFacts.

(** ** [main] *)

Section StripFacts.

Lemma drop_spaces_nil s :
  drop_spaces s = [] <-> forallb is_space s = true.
Proof.
  induction s as [|c s IH]; simpl; [done|].
  destruct (is_space c); simpl; [done|]. split; done.
Qed.

Lemma drop_spaces_head s c s' :
  drop_spaces s = c :: s' -> is_space c = false.
Proof.
  induction s as [|x s IH]; simpl; [done|].
  destruct (is_space x) eqn:Hx; [done|]. by intros [= <- <-].
Qed.

(** [strip] leaves nothing exactly of the strings of white space. *)
Lemma strip_nil s : strip s = [] <-> forallb is_space s = true.
Proof.
  unfold strip. split.
  - intros H. apply (f_equal (@rev N)) in H. rewrite rev_involutive in H.
    simpl in H. apply drop_spaces_nil in H.
    destruct (drop_spaces s) as [|c s'] eqn:Hd; [by apply drop_spaces_nil|].
    apply drop_spaces_head in Hd. rewrite forallb_forall in H.
    rewrite (H c) in Hd; [done|]. apply in_rev. rewrite rev_involutive. by left.
  - intros H. apply drop_spaces_nil in H. by rewrite H.
Qed.

End StripFacts.

Section MainFacts.
Context `{rt : PyRuntime}.
Variable cfg : Config.
Variable F : Type.
Variable float : text -> option F.

Lemma main_blank_key w :
  main cfg F float w = Returned2
  <-> strip (or_empty (env_NOTAMIFY_API_KEY w)) = [].
Proof.
  unfold main.
  destruct (strip (or_empty (env_NOTAMIFY_API_KEY w))) as [|c k]; [done|].
  split; [|done].
  destruct (file_airports_txt w); [|done].
  destruct (ensure_airports_json _ _ _ _ _ _); [|done|];
    by destruct (build_status_http _ _ _ _ _ _).
Qed.

Lemma build_status_http_None prev clock get api_key icao_list :
  build_status_http cfg prev clock get api_key icao_list = None
  <-> BATCH_SIZE cfg = 0%Z.
Proof.
  unfold build_status_http, build_status, chunk.
  destruct (Z.eqb_spec (BATCH_SIZE cfg) 0) as [->|Hn]; simpl; [done|].
  by destruct (BATCH_SIZE cfg <? 0)%Z.
Qed.

(** X23. [main] returns 2 exactly when the key is unset, empty or made of
    white space only; what the files and the services hold plays no part. *)
Theorem main_returns_2_iff_blank_key w :
  main cfg F float w = Returned2
  <-> forallb is_space (or_empty (env_NOTAMIFY_API_KEY w)) = true.
Proof. rewrite <- strip_nil. apply main_blank_key. Qed.

(** X25. When [main] gets to dump the status, the key was not blank,
    [airports.txt] was there, the batch size is not 0, and the snapshot
    speaks of the airport list and nothing else: with a positive batch size
    it has a loaded record for each code of the list, and in any case it has
    no record for anything else. *)
Theorem main_status_covers_the_list w doc snap :
  main cfg F float w = DumpedStatus doc snap ->
  forallb is_space (or_empty (env_NOTAMIFY_API_KEY w)) = false
  /\ BATCH_SIZE cfg <> 0%Z
  /\ exists lines,
       file_airports_txt w = Some lines
       /\ (forall c r, airports snap !! c = Some r ->
             c ∈ read_airport_list lines /\ loaded r = true)
       /\ ((0 < BATCH_SIZE cfg)%Z ->
           forall c, c ∈ read_airport_list lines ->
                     is_Some (airports snap !! c))
       /\ ((BATCH_SIZE cfg < 0)%Z -> airports snap = ∅).
Proof.
  intros Hm.
  assert (Hk : forallb is_space (or_empty (env_NOTAMIFY_API_KEY w)) = false).
  { destruct (forallb _ _) eqn:E; [|done].
    apply strip_nil, main_blank_key in E. congruence. }
  split; [done|]. unfold main in Hm.
  destruct (strip (or_empty (env_NOTAMIFY_API_KEY w))) as [|c k]; [done|].
  destruct (file_airports_txt w) as [lines|]; [|done].
  set (icao_list := read_airport_list lines) in *.
  assert (Hb : build_status_http cfg
                 (load_prev_status (file_status_json w)) (clock_status w)
                 (notamify w) (c :: k) icao_list = Some snap).
  { destruct (ensure_airports_json _ _ _ _ _ _); [|done|];
      destruct (build_status_http _ _ _ _ _ _) eqn:Hb; try done;
      by injection Hm as _ <-. }
  split.
  { intros Hz. apply (build_status_http_None
             (load_prev_status (file_status_json w)) (clock_status w)
             (notamify w) (c :: k) icao_list) in Hz. congruence. }
  exists lines. split; [done|].
  unfold build_status_http, build_status in Hb.
  destruct (chunk icao_list (BATCH_SIZE cfg)) as [bs|] eqn:Hc; [|done].
  injection Hb as <-. simpl.
  split_and!.
  - intros c' r Hr.
    apply process_batches_origin in Hr as [Hr|(i & b & Hi & Hin & ->)];
      [by rewrite lookup_empty in Hr|].
    split; [|apply batch_record_loaded].
    destruct (chunk_cases _ _ _ Hc) as [->|Hcat]; [done|].
    fold icao_list. rewrite <- Hcat. apply list_elem_of_In, in_concat. exists b.
    split; apply list_elem_of_In; [by eapply list_elem_of_lookup_2 | done].
  - intros Hpos c' Hin. apply process_batches_is_Some. right.
    fold icao_list in Hin. by rewrite (chunk_concat _ _ _ Hpos Hc).
  - intros Hneg. unfold chunk in Hc.
    destruct (Z.eqb_spec (BATCH_SIZE cfg) 0); [done|].
    destruct (Z.ltb_spec (BATCH_SIZE cfg) 0); [|lia].
    by injection Hc as <-.
Qed.

End MainFacts.

(** ** More worked examples *)

(** *** Worked exchanges *)

(** The request for the first page of a batch. *)
Example demo_page_request :
  page_request demo_config (py "k") (map py ["EPWA"; "EPKK"]%string)
    (starts demo_clock) (ends demo_clock) 1
  = mkRequest
      (py "https://api.notamify.com/api/v2/notams")
      [(py "Accept", py "application/json");
       (py "Authorization", py "Bearer k");
       (py "Authentication", py "Bearer k");
       (py "User-Agent", py "wizz-snowtam-watch/1.0")]
      [(py "page", py "1"); (py "per_page", py "30");
     (py "starts_at", py "2024-01-01T06:00:00Z");
     (py "ends_at", py "2024-01-09T06:00:00Z");
       (py "location", py "EPWA"); (py "location", py "EPKK")].
Proof. by vm_compute. Qed.

(** A short page ends the reading; a failure on a later page loses the
    earlier pages; the page limit cuts the list. *)
Example demo_paging :
  let n1 := mkNotam (Some (py "EPWA")) (Some (py "one")) None in
  let n2 := mkNotam (Some (py "EPWA")) (Some (py "two")) None in
  let n3 := mkNotam (Some (py "EPKK")) (Some (py "three")) None in
  let run cfg pages :=
    fetch_notams_for_batch cfg (demo_service pages) (py "key")
      [py "EPWA"; py "EPKK"] (starts demo_clock) (ends demo_clock) in
  run (mkConfig 5 2 3 90) [demo_ok [n1; n2]; demo_ok [n3]; demo_ok [n1]]
  = Fetched [n1; n2; n3]
  /\ run (mkConfig 5 2 3 90)
         [demo_ok [n1; n2];
          Got (mkResponse 503 (py "503 Server Error") (BodyObject None))]
     = Raised (py "HTTPError") (py "503 Server Error")
  /\ run (mkConfig 5 2 1 90) [demo_ok [n1; n2]; demo_ok [n3]]
     = Fetched [n1; n2]
  /\ run (mkConfig 5 2 3 90) [demo_ok [n1; n2]; demo_ok []; demo_ok [n3]]
     = Fetched [n1; n2]
  /\ run (mkConfig 5 2 3 90)
         [Got (mkResponse 200 [] (BodyRaised (py "JSONDecodeError") (py "x")))]
     = Raised (py "JSONDecodeError") (py "x").
Proof. by vm_compute. Qed.

(** *** Worked texts for the scorer *)

Lemma braking_word_decides_witness :
  let t := py "TWY B BRAKING ACTION POOR" in
  ~ Occurs RUNWAY_CLOSED_RE t
  /\ extract_rwycc_values t = []
  /\ braking_word t = Some (py "POOR")
  /\ severity_from_text t
     = (red, mkEvidence None (Some (py "POOR")) false []).
Proof.
  intros t.
  assert (Hc : ~ Occurs RUNWAY_CLOSED_RE t)
    by (apply not_found_iff; vm_compute; reflexivity).
  assert (Hrw : extract_rwycc_values t = []) by (vm_compute; reflexivity).
  assert (Hb : braking_word t = Some (py "POOR")) by (vm_compute; reflexivity).
  split; [exact Hc|]. split; [exact Hrw|]. split; [exact Hb|].
  destruct (braking_word_decides t (py "POOR") Hc Hrw Hb) as (_ & Hp & _).
  exact (Hp eq_refl).
Defined.

Lemma explicit_word_is_relevant_witness :
  Occurs (word_re "SNOWTAM") (py "SNOWTAM 0123")
  /\ is_snowtam_like (py "SNOWTAM 0123") = true.
Proof.
  assert (Hw : Occurs (word_re "SNOWTAM") (py "SNOWTAM 0123"))
    by (apply found_iff_Occurs; vm_compute; reflexivity).
  split; [exact Hw|].
  apply explicit_word_is_relevant. left. exact Hw.
Defined.

Lemma ascii_braking_phrase_decides_witness :
  let t := py "braking action medium" in
  ascii_faithful demo_runtime /\ is_ascii t = true
  /\ ~ Occurs RUNWAY_CLOSED_RE t
  /\ extract_rwycc_values t = []
  /\ Occurs BRAKING_RE t
  /\ exists b,
       braking_word t = Some b
       /\ (b = py "POOR" \/ b = py "MEDIUM" \/ b = py "GOOD")
       /\ severity_from_text t
          = (if text_eqb b (py "POOR") then red
             else if text_eqb b (py "MEDIUM") then orange else yellow,
             mkEvidence None (Some b) false []).
Proof.
  intros t.
  assert (Hf : ascii_faithful demo_runtime) by (by split).
  assert (Ha : is_ascii t = true) by (vm_compute; reflexivity).
  assert (Hc : ~ Occurs RUNWAY_CLOSED_RE t)
    by (apply not_found_iff; vm_compute; reflexivity).
  assert (Hrw : extract_rwycc_values t = []) by (vm_compute; reflexivity).
  assert (Hb : Occurs BRAKING_RE t)
    by (apply found_iff_Occurs; vm_compute; reflexivity).
  split; [exact Hf|]. split; [exact Ha|]. split; [exact Hc|].
  split; [exact Hrw|]. split; [exact Hb|].
  exact (ascii_braking_phrase_decides t Hf Ha Hc Hrw Hb).
Defined.

(** *** Worked batches *)

Lemma chunk_batches_witness :
  let bs := [take 5 demo_airports; drop 5 demo_airports] in
  (0 < 5)%Z
  /\ chunk demo_airports 5 = Some bs
  /\ concat bs = demo_airports
  /\ (forall k b, bs !! k = Some b ->
        b <> []
        /\ (length b <= Z.to_nat 5)%nat
        /\ (S k < length bs -> length b = Z.to_nat 5)%nat
        /\ b = firstn (Z.to_nat 5) (skipn (k * Z.to_nat 5) demo_airports)).
Proof.
  intros bs.
  assert (Hn : (0 < 5)%Z) by lia.
  assert (Hc : chunk demo_airports 5 = Some bs) by (vm_compute; reflexivity).
  split; [exact Hn|]. split; [exact Hc|].
  exact (chunk_batches demo_airports 5 bs Hn Hc).
Defined.

Lemma fetcher_called_on_batches_only_witness :
  (forall bi b,
     (1 <= bi)%nat -> b <> [] ->
     (Z.of_nat (length b) <= BATCH_SIZE demo_config)%Z ->
     (forall c, c ∈ b -> c ∈ demo_airports) ->
     demo_fetch bi b = demo_fetch_guarded bi b)
  /\ build_status demo_config demo_prev demo_clock demo_fetch demo_airports
     = build_status demo_config demo_prev demo_clock demo_fetch_guarded
         demo_airports.
Proof.
  assert (Hag : forall bi b,
            (1 <= bi)%nat -> b <> [] ->
            (Z.of_nat (length b) <= BATCH_SIZE demo_config)%Z ->
            (forall c, c ∈ b -> c ∈ demo_airports) ->
            demo_fetch bi b = demo_fetch_guarded bi b).
  { intros bi b _ Hb _ _. destruct b; [done | reflexivity]. }
  split; [exact Hag|].
  exact (fetcher_called_on_batches_only demo_config demo_prev demo_clock
           demo_fetch demo_fetch_guarded demo_airports Hag).
Defined.

(** The airports of the worked run as they are grouped, and a code in
    another spelling. *)
Example demo_grouping :
  let batch := take 5 demo_airports in
  map (fun k => length <$> group_by_icao batch demo_notams !! py k)
      ["EPWA"; "EPKK"; "EPGD"; "EPWR"; "LHBP"; "epgd "]%string
  = [Some 1; Some 1; Some 1; Some 0; None; None]%nat.
Proof. by vm_compute. Qed.

(** *** Worked runs *)

Lemma same_items_no_change_witness :
  let prev := load_prev_status demo_status_file in
  let ns0 := take 1 demo_notams in
  let ns := demo_other_notam :: take 1 demo_notams in
  let r := airport_status prev demo_clock2 (py "EPWA") ns in
  exists p,
    prev !! py "EPWA" = Some p
    /\ prev_hash p = hash (airport_status demo_prev demo_clock (py "EPWA") ns0)
    /\ map snow_item (List.filter relevant ns)
       = map snow_item (List.filter relevant ns0)
    /\ hash r = prev_hash p
    /\ changed r = false
    /\ last_change_utc r = prev_last_change_utc p.
Proof.
  intros prev ns0 ns r. subst r.
  assert (Hp : prev !! py "EPWA"
               = Some (mkPrev
                         (hash (airport_status demo_prev demo_clock (py "EPWA") ns0))
                         (Some (py "2024-01-02T06:00:00Z"))))
    by (vm_compute; reflexivity).
  assert (Hs : map snow_item (List.filter relevant ns)
               = map snow_item (List.filter relevant ns0))
    by (vm_compute; reflexivity).
  eexists. split; [exact Hp|]. split; [reflexivity|]. split; [exact Hs|].
  exact (same_items_no_change prev demo_clock2 demo_prev demo_clock (py "EPWA")
           ns0 (py "EPWA") ns _ Hp eq_refl Hs).
Defined.

Lemma fetch_returns_at_most_max_pages_witness :
  let get := demo_service [demo_ok demo_notams; demo_ok demo_notams;
                           demo_ok demo_notams] in
  let batch := take 5 demo_airports in
  let out := demo_notams ++ demo_notams in
  (forall p ns,
     page_result demo_paged_config get (py "key") batch
       (starts demo_clock) (ends demo_clock) p = PageNotams ns ->
     (Z.of_nat (length ns) <= PER_PAGE demo_paged_config)%Z)
  /\ fetch_notams_for_batch demo_paged_config get (py "key") batch
       (starts demo_clock) (ends demo_clock) = Fetched out
  /\ (Z.of_nat (length out)
      <= Z.max 0 (MAX_PAGES demo_paged_config) * PER_PAGE demo_paged_config)%Z.
Proof.
  intros get batch out.
  assert (Hsrv : forall p ns,
            page_result demo_paged_config get (py "key") batch
              (starts demo_clock) (ends demo_clock) p = PageNotams ns ->
            (Z.of_nat (length ns) <= PER_PAGE demo_paged_config)%Z).
  { intros p ns. unfold page_result, page_request, get, demo_service. simpl.
    generalize (Init.Nat.pred (Z.to_nat (int_of (str_int (Z.of_nat p))))).
    intros [|[|[|i]]]; simpl; intros [= <-]; simpl; lia. }
  assert (Hf : fetch_notams_for_batch demo_paged_config get (py "key") batch
                 (starts demo_clock) (ends demo_clock) = Fetched out)
    by (vm_compute; reflexivity).
  split; [exact Hsrv|]. split; [exact Hf|].
  exact (fetch_returns_at_most_max_pages demo_paged_config get (py "key") batch
           (starts demo_clock) (ends demo_clock) out Hsrv Hf).
Defined.

Lemma unauthorized_batch_is_gray_witness :
  let batch := take 5 demo_airports in
  NoDup demo_airports
  /\ chunk demo_airports (BATCH_SIZE demo_config)
     = Some [batch; drop 5 demo_airports]
  /\ (1 <= MAX_PAGES demo_config)%Z
  /\ demo_prev !! py "EPKK"
     = Some (mkPrev (Some (py "NO_SNOWTAM")) (Some (py "2024-01-01T05:00:00Z")))
  /\ exists snap,
       build_status_http demo_config demo_prev demo_clock demo_unauthorized
         (py "wrong") demo_airports = Some snap
       /\ (forall icao, icao ∈ batch ->
           exists r, airports snap !! icao = Some r
             /\ severity r = gray /\ has_snowtam r = false /\ items r = []
             /\ changed r = false
             /\ error r = Some (py "RuntimeError: Notamify returned 401 Unauthorized. Check NOTAMIFY_API_KEY secret/header.")
             /\ hash r = demo_prev !! icao ≫= prev_hash
             /\ last_change_utc r
                = demo_prev !! icao ≫= prev_last_change_utc)
       /\ exists r, airports snap !! py "EPKK" = Some r
            /\ hash r = Some (py "NO_SNOWTAM")
            /\ last_change_utc r = Some (py "2024-01-01T05:00:00Z").
Proof.
  intros batch.
  assert (Hnd : NoDup demo_airports)
    by (refine (bool_decide_unpack _ _); vm_compute; exact I).
  assert (Hc : chunk demo_airports (BATCH_SIZE demo_config)
               = Some [batch; drop 5 demo_airports])
    by (vm_compute; reflexivity).
  assert (Hmp : (1 <= MAX_PAGES demo_config)%Z) by (vm_compute; discriminate).
  assert (Hp : demo_prev !! py "EPKK"
               = Some (mkPrev (Some (py "NO_SNOWTAM"))
                         (Some (py "2024-01-01T05:00:00Z"))))
    by (vm_compute; reflexivity).
  split; [exact Hnd|]. split; [exact Hc|]. split; [exact Hmp|].
  split; [exact Hp|].
  destruct (unauthorized_batch_is_gray demo_config demo_prev demo_clock
              demo_unauthorized (py "wrong") demo_airports _ 0%nat batch _
              Hnd Hc eq_refl Hmp eq_refl eq_refl) as (snap & Hs & Hall).
  exists snap. split; [exact Hs|]. split; [exact Hall|].
  destruct (Hall (py "EPKK")) as (r & Hr & _ & _ & _ & _ & _ & Hh & Hl).
  { right. by left. }
  exists r. split; [exact Hr|]. rewrite Hp in Hh, Hl.
  split; [exact Hh | exact Hl].
Defined.

Lemma no_pages_every_airport_green_witness :
  let cfg := mkConfig 5 30 0 90 in
  (MAX_PAGES cfg <= 0)%Z
  /\ exists snap r,
       build_status_http cfg demo_prev demo_clock demo_notamify (py "key")
         demo_airports = Some snap
       /\ airports snap !! py "EPWA" = Some r
       /\ has_snowtam r = false /\ severity r = green /\ items r = []
       /\ error r = None /\ hash r = Some (py "NO_SNOWTAM").
Proof.
  intros cfg.
  assert (Hmp : (MAX_PAGES cfg <= 0)%Z) by (vm_compute; discriminate).
  split; [exact Hmp|].
  eexists _, _.
  split; [vm_compute; reflexivity|]. split; [vm_compute; reflexivity|].
  eapply (no_pages_every_airport_green cfg demo_prev demo_clock demo_notamify
            (py "key") demo_airports _ (py "EPWA") _ Hmp);
    vm_compute; reflexivity.
Defined.

Lemma first_run_marks_nothing_witness :
  exists snap r,
    build_status demo_config (load_prev_status NoStatusFile) demo_clock
      demo_fetch demo_airports = Some snap
    /\ airports snap !! py "LHBP" = Some r
    /\ changed r = false /\ last_change_utc r = None
    /\ (error r <> None -> hash r = None).
Proof.
  eexists _, _.
  split; [vm_compute; reflexivity|]. split; [vm_compute; reflexivity|].
  eapply (first_run_marks_nothing demo_config demo_clock demo_fetch
            NoStatusFile demo_airports _ (py "LHBP"));
    [by left | vm_compute; reflexivity | vm_compute; reflexivity].
Defined.

(** The three runs: the change that run 1 flagged for EPWA keeps its time
    through the failed run 2 into run 3, which flags nothing. *)
Example demo_three_runs :
  map (fun s => (fun snap =>
                   (fun r => (severity r, changed r, last_change_utc r))
                     <$> airports snap !! py "EPWA") <$> s)
      [demo_snapshot; demo_snapshot2; demo_snapshot3]
  = [Some (Some (yellow, true, Some (py "2024-01-02T06:00:00Z")));
     Some (Some (gray, false, Some (py "2024-01-02T06:00:00Z")));
     Some (Some (yellow, false, Some (py "2024-01-02T06:00:00Z")))].
Proof. by vm_compute. Qed.

Lemma hash_survives_failed_fetch_witness :
  let ns1 := take 1 demo_notams in
  let ns3 := demo_other_notam :: take 1 demo_notams in
  let r1 := airport_status demo_prev demo_clock (py "EPWA") ns1 in
  let r3 := airport_status (load_prev_status demo_status_file2) demo_clock3
              (py "EPWA") ns3 in
  load_prev_status demo_status_file !! py "EPWA" = Some (as_prev r1)
  /\ load_prev_status demo_status_file2 !! py "EPWA"
     = Some (as_prev (degraded_status (load_prev_status demo_status_file)
                        (py "EPWA") (py "ConnectionError: timed out")))
  /\ hash r3 = hash r1 /\ changed r3 = false
  /\ last_change_utc r3 = last_change_utc r1.
Proof.
  intros ns1 ns3 r1 r3. subst r1 r3.
  assert (H1 : load_prev_status demo_status_file !! py "EPWA"
               = Some (as_prev (airport_status demo_prev demo_clock
                                  (py "EPWA") ns1)))
    by (vm_compute; reflexivity).
  assert (H2 : load_prev_status demo_status_file2 !! py "EPWA"
               = Some (as_prev (degraded_status
                                  (load_prev_status demo_status_file)
                                  (py "EPWA") (py "ConnectionError: timed out"))))
    by (vm_compute; reflexivity).
  assert (Hs : map snow_item (List.filter relevant ns3)
               = map snow_item (List.filter relevant ns1))
    by (vm_compute; reflexivity).
  split; [exact H1|]. split; [exact H2|].
  exact (hash_survives_failed_fetch demo_prev demo_clock (py "EPWA") ns1
           demo_status_file demo_status_file2 (py "ConnectionError: timed out")
           demo_clock3 (py "EPWA") ns3 H1 H2 Hs).
Defined.

Lemma appearance_and_disappearance_are_flagged_witness :
  let prev := load_prev_status demo_status_file in
  let ns0 := [] in
  let ns := [mkNotam (Some (py "EPKK")) (Some (py "RWY 07 BRAKING ACTION POOR"))
                     None] in
  let r := airport_status prev demo_clock2 (py "EPKK") ns in
  prev !! py "EPKK"
  = Some (as_prev (airport_status demo_prev demo_clock (py "EPKK") ns0))
  /\ has_snowtam r
     <> has_snowtam (airport_status demo_prev demo_clock (py "EPKK") ns0)
  /\ changed r = true
  /\ last_change_utc r = Some (now_z demo_clock2).
Proof.
  intros prev ns0 ns r. subst r.
  assert (Hp : prev !! py "EPKK"
               = Some (as_prev (airport_status demo_prev demo_clock (py "EPKK") ns0)))
    by (vm_compute; reflexivity).
  assert (Hne : has_snowtam (airport_status prev demo_clock2 (py "EPKK") ns)
                <> has_snowtam (airport_status demo_prev demo_clock (py "EPKK") ns0))
    by (vm_compute; discriminate).
  split; [exact Hp|]. split; [exact Hne|].
  exact (appearance_and_disappearance_are_flagged demo_prev demo_clock
           (py "EPKK") ns0 prev demo_clock2 (py "EPKK") ns Hp Hne).
Defined.

(** *** The worked coordinates file and the worked [main] *)

(** EPWA takes its last valid row, the only row of EPKK has no longitude,
    the bad second row of EPGD does not undo its first one. *)
Example demo_coordinates :
  ensure_airports_json Z demo_float None (CsvGot 200 [] demo_rows)
    (py "2024-01-02T06:00:00.250000+00:00") (map py ["EPWA"; "EPKK"; "EPGD"]%string)
  = Wrote (mkAirportsDoc (py "2024-01-02T06:00:00.250000+00:00")
             (py "OurAirports airports.csv")
             [py "EPKK"]
             [mkAirportEntry (py "EPWA") (py "Warsaw") 53 21 (py "PL") [];
              mkAirportEntry (py "EPGD") (py "Gdansk") 54 18 [] []]%Z).
Proof. by vm_compute. Qed.

(** A file that covers the list is kept, without a download; a failed
    download raises. *)
Example demo_coordinates_kept :
  ensure_airports_json Z demo_float
    (Some (list_to_set (map py ["EPWA"; "EPKK"; "LHBP"]%string)))
    (CsvRaised (py "ConnectionError") (py "down")) []
    (map py ["EPWA"; "EPKK"]%string)
  = Kept
  /\ ensure_airports_json Z demo_float
       (Some (list_to_set (map py ["EPWA"]%string)))
       (CsvGot 404 (py "404 Client Error") []) []
       (map py ["EPWA"; "EPKK"]%string)
     = EnsureRaised (py "HTTPError") (py "404 Client Error").
Proof. by vm_compute. Qed.

Lemma coordinates_from_last_valid_row_witness :
  let icao_list := map py ["EPWA"; "EPKK"; "EPGD"]%string in
  exists doc,
    ensure_airports_json Z demo_float None (CsvGot 200 [] demo_rows) []
      icao_list = Wrote doc
    /\ doc_missing doc = [py "EPKK"]
    /\ doc_airports doc
       = [mkAirportEntry (py "EPWA") (py "Warsaw") 53 21 (py "PL") [];
          mkAirportEntry (py "EPGD") (py "Gdansk") 54 18 [] []]%Z
    /\ (forall c, c ∈ doc_missing doc
          <-> c ∈ icao_list
              /\ forall row, In row demo_rows ->
                   str_upper (strip (or_empty (row_ident row))) = c ->
                   demo_float (or_empty (row_latitude_deg row)) = None
                   \/ demo_float (or_empty (row_longitude_deg row)) = None).
Proof.
  intros icao_list. eexists. split; [vm_compute; reflexivity|].
  split; [vm_compute; reflexivity|]. split; [vm_compute; reflexivity|].
  refine (proj1 (proj2 (proj2 (proj2
            (coordinates_from_last_valid_row Z demo_float None 200%Z []
               demo_rows [] icao_list _ _)))));
    vm_compute; reflexivity.
Defined.

(** The worked [main]: the list has three codes, the coordinates file is
    written, and the status has the three airports. *)
Example demo_main :
  match main demo_config Z demo_float demo_world with
  | DumpedStatus (Some doc) snap =>
      doc_missing doc = [py "EPKK"]
      /\ map (fun k => severity <$> airports snap !! py k)
             ["EPWA"; "EPKK"; "EPGD"; "LHBP"]%string
         = [Some yellow; Some green; Some red; None]
  | _ => False
  end.
Proof. by vm_compute. Qed.

(** Without a key nothing is done; with a batch size of 0 [range] raises
    after the coordinates file was written. *)
Example demo_main_stops :
  main demo_config Z demo_float
    (mkWorld (Some (py "  ")) None None UnreadableStatus
       (CsvRaised [] []) demo_notamify demo_clock [])
  = Returned2
  /\ main demo_config Z demo_float
       (mkWorld (Some (py "k")) None None NoStatusFile
          (CsvRaised [] []) demo_notamify demo_clock [])
     = MainRaised (py "FileNotFoundError") None
  /\ match main (mkConfig 0 30 1 90) Z demo_float demo_world with
     | MainRaised ty (Some _) => ty = py "ValueError"
     | _ => False
     end.
Proof. by vm_compute. Qed.

Lemma main_status_covers_the_list_witness :
  exists doc snap,
    main demo_config Z demo_float demo_world = DumpedStatus doc snap
    /\ forallb is_space (or_empty (env_NOTAMIFY_API_KEY demo_world)) = false
    /\ BATCH_SIZE demo_config <> 0%Z
    /\ exists lines,
         file_airports_txt demo_world = Some lines
         /\ (forall c r, airports snap !! c = Some r ->
               c ∈ read_airport_list lines /\ loaded r = true)
         /\ ((0 < BATCH_SIZE demo_config)%Z ->
             forall c, c ∈ read_airport_list lines ->
                       is_Some (airports snap !! c))
         /\ ((BATCH_SIZE demo_config < 0)%Z -> airports snap = ∅).
Proof.
  eexists _, _. split; [vm_compute; reflexivity|].
  eapply (main_status_covers_the_list demo_config Z demo_float demo_world).
  vm_compute. reflexivity.
Defined.
